(** * ISIC challenge scoring: a shallow embedding of the validation and
      metrics engine

    Two source files are embedded:
    - [Python/scoreP1.py]: segmentation scoring ([loadImage],
      [matchInputFile], [scoreP1Image], [scoreP1]);
    - [isic_challenge_scoring/task3.py]: classification scoring
      ([parseCsv], [excludeRows], [validateRows], [sortRows],
      [computeMetrics]).

    Conventions of the embedding:
    - a Python exception is a value of [exn] (class and message) and a
      function that can raise returns [result A];
    - a finite Python [float] is an exact rational ([Q]): rounding is not
      modelled; a division whose divisor is zero raises
      [ZeroDivisionError], as Python's float division does;
    - [image /= v] on an integer array is the floor division of Python 2,
      the language of [scoreP1.py];
    - a numpy array is its shape together with its samples in row-major
      order; a numpy [uint8] multiplication wraps modulo 256;
    - what the operating system, PIL and pandas' CSV reader return is an
      input of the model ([world], [DataFrame]). *)

From Stdlib Require Import ZArith QArith Lia List Ascii String Bool.
From Stdlib Require Import Sorting.Sorted Sorting.Permutation.
From stdpp Require Import gmap.
Import ListNotations.

Local Open Scope string_scope.
Local Open Scope Z_scope.

(** ** Python exceptions *)

Inductive exn_class :=
| Exception
| ScoreException
| ValueError
| IndexError
| ZeroDivisionError
| KeyError.

Definition exn_class_eqb (c d : exn_class) : bool :=
  match c, d with
  | Exception, Exception
  | ScoreException, ScoreException
  | ValueError, ValueError
  | IndexError, IndexError
  | ZeroDivisionError, ZeroDivisionError
  | KeyError, KeyError => true
  | _, _ => false
  end.

(** The class hierarchy: every class derives from [Exception]; the builtin
    classes and [ScoreException] are otherwise unrelated.  [ScoreException]
    is declared in [scoreCommon], a module that is not among the sources;
    it is taken as a direct subclass of [Exception]. *)
Definition issubclass (c d : exn_class) : bool :=
  match d with
  | Exception => true
  | _ => exn_class_eqb c d
  end.

Record exn := mkExn { exn_cls : exn_class; exn_msg : string }.

Definition isinstance (e : exn) (c : exn_class) : bool :=
  issubclass (exn_cls e) c.

Definition result (A : Type) : Type := (exn + A)%type.

Definition ret {A} (a : A) : result A := inr a.
Definition raise {A} (c : exn_class) (msg : string) : result A :=
  inl (mkExn c msg).
#[export] Instance result_ret : MRet result := @ret.
#[export] Instance result_bind : MBind result := fun A B k m =>
  match m with
  | inl e => inl e
  | inr a => k a
  end.

Fixpoint mapM_result {A B} (f : A -> result B) (l : list A) : result (list B) :=
  match l with
  | [] => ret []
  | a :: l' => b ← f a; bs ← mapM_result f l'; ret (b :: bs)
  end.

(** ** Python strings *)

(** [s.split(sep)] for a one-character separator. *)
Fixpoint split (sep : ascii) (s : string) : list string :=
  match s with
  | EmptyString => [EmptyString]
  | String c s' =>
      if Ascii.eqb c sep then EmptyString :: split sep s'
      else match split sep s' with
           | [] => [String c EmptyString]
           | tok :: toks => String c tok :: toks
           end
  end.

Fixpoint has_char (c : ascii) (s : string) : bool :=
  match s with
  | EmptyString => false
  | String d s' => Ascii.eqb d c || has_char c s'
  end.

(** [s.rsplit(sep, 1)[0]]: what precedes the last separator, the whole
    string when there is none. *)
Fixpoint rsplit1_head (sep : ascii) (s : string) : string :=
  match s with
  | EmptyString => EmptyString
  | String c s' =>
      if Ascii.eqb c sep && negb (has_char sep s') then EmptyString
      else String c (rsplit1_head sep s')
  end.

(** [s.startswith(p)]. *)
Fixpoint startswith (p s : string) : bool :=
  match p, s with
  | EmptyString, _ => true
  | String _ _, EmptyString => false
  | String a p', String b s' => Ascii.eqb a b && startswith p' s'
  end.

(** [needle in hay]. *)
Fixpoint contains (needle hay : string) : bool :=
  startswith needle hay ||
  match hay with
  | EmptyString => false
  | String _ hay' => contains needle hay'
  end.

Definition ends_with_slash (s : string) : bool :=
  match String.get (String.length s - 1) s with
  | Some c => Ascii.eqb c "/"
  | None => false
  end.

(** [os.path.join(a, b)] and [os.path.basename(p)] on POSIX paths. *)
Definition path_join (a b : string) : string :=
  match b with
  | String "/" _ => b
  | _ => if (String.eqb a "" || ends_with_slash a)%bool then a ++ b
         else a ++ "/" ++ b
  end.

Definition basename (p : string) : string :=
  List.last (split "/" p) "".

(** [sorted(l)] on strings: code-point order. *)
Fixpoint insert_sorted (x : string) (l : list string) : list string :=
  match l with
  | [] => [x]
  | y :: l' => if String.leb x y then x :: l else y :: insert_sorted x l'
  end.

Definition sorted (l : list string) : list string :=
  fold_right insert_sorted [] l.

(** The one-character string holding a double quote. *)
Definition dquote : string := String (ascii_of_nat 34) EmptyString.

(** The order of [sorted]. *)
Definition str_le (a b : string) : Prop := String.leb a b = true.

(** [str(n)] for a natural number. *)
Definition digit (n : nat) : string :=
  String (ascii_of_nat (48 + n)) "".

Fixpoint str_nat_fuel (fuel n : nat) : string :=
  match fuel with
  | O => ""
  | S fuel' =>
      if (n <? 10)%nat then digit n
      else str_nat_fuel fuel' (n / 10) ++ digit (n mod 10)
  end.

Definition str_nat (n : nat) : string := str_nat_fuel (S n) n.

(** [str((h, w))]. *)
Definition str_shape (s : nat * nat) : string :=
  "(" ++ str_nat (fst s) ++ ", " ++ str_nat (snd s) ++ ")".

(** ** Python floats *)

(** A float is not-a-number, an infinity, or a finite value, kept as a
    rational in lowest terms. *)
Inductive pyfloat :=
| NaN
| PosInf
| NegInf
| Finite (q : Q).

(** [a / b] on finite Python floats. *)
Definition float_div (a b : Q) : result pyfloat :=
  if Qeq_bool b 0 then raise ZeroDivisionError "float division by zero"
  else ret (Finite (Qred (a / b))).

(** ** numpy arrays and PIL images *)

Record ndarray := mkArray { shape : nat * nat; samples : list Z }.

(** The array holds one sample per grid position. *)
Definition wf_ndarray (a : ndarray) : Prop :=
  length (samples a) = (fst (shape a) * snd (shape a))%nat.

Definition shape_eqb (s t : nat * nat) : bool :=
  (fst s =? fst t)%nat && (snd s =? snd t)%nat.

(** What [Image.open] yields when it succeeds: the mode of the image and
    the array [np.array(image)] of its samples. *)
Record PILImage := mkImage { mode : string; np_array : ndarray }.

(** The environment of a run: directory listings ([os.listdir]), the
    decoder ([Image.open], [None] when it raises) and the position at which
    [set.pop] finds its element, which the language leaves open. *)
Record world := mkWorld {
  listdir : string -> list string;
  Image_open : string -> option PILImage;
  pop_choice : nat
}.

(** [set(np.unique(image))]. *)
Definition unique_values (a : ndarray) : gset Z := list_to_set (samples a).

(** [s.pop()]: some element of [s]; [None] stands for the [KeyError] of an
    empty set. *)
Definition set_pop (choice : nat) (s : gset Z) : option Z :=
  elements s !! (choice mod size s)%nat.

(** [image /= d] on an integer array: floor division. *)
Definition floor_divide (a : ndarray) (d : Z) : ndarray :=
  mkArray (shape a) (map (fun x => x / d) (samples a)).

(** [image *= k] on a [uint8] array. *)
Definition multiply_uint8 (a : ndarray) (k : Z) : ndarray :=
  mkArray (shape a) (map (fun x => (x * k) mod 256) (samples a)).

(** [image > t]. *)
Definition greater (a : ndarray) (t : Z) : list bool :=
  map (fun x => t <? x) (samples a).

(** Truth value of an array element, as [np.logical_and] takes it. *)
Class Truthy (A : Type) := truthy : A -> bool.
#[export] Instance truthy_bool : Truthy bool := fun b => b.
#[export] Instance truthy_Z : Truthy Z := fun z => negb (z =? 0).

Fixpoint logical_and {A B} `{Truthy A} `{Truthy B}
    (x : list A) (y : list B) : list bool :=
  match x, y with
  | a :: x', b :: y' => (truthy a && truthy b) :: logical_and x' y'
  | _, _ => []
  end.

(** [1 - mask]. *)
Definition one_minus (mask : list bool) : list Z :=
  map (fun b : bool => 1 - (if b then 1 else 0)) mask.

(** [np.sum(mask)]. *)
Definition np_sum (mask : list bool) : Z :=
  fold_right (fun (b : bool) acc => (if b then 1 else 0) + acc) 0 mask.

(** ** Python/scoreP1.py *)

Definition value_domain_message (imagePath : string) : string :=
  "Image " ++ basename imagePath ++ " contains values other than 0 and 255.".

(** [loadImage]; its second parameter, [rsize], is never read and is left
    out. *)
Definition loadImage (w : world) (imagePath : string) : result ndarray :=
  match Image_open w imagePath with
  | None =>
      raise Exception ("Could not decode image: " ++ basename imagePath)
  | Some image =>
      if negb (String.eqb (mode image) "L") then
        raise Exception ("Image " ++ basename imagePath ++
                         " is not single-channel (grayscale).")
      else
        let image := np_array image in
        let imageValues := unique_values image in
        if bool_decide (imageValues ⊆ {[0; 255]}) then
          ret image
        else if bool_decide (size imageValues ≤ 2)%nat then
          match set_pop (pop_choice w) (imageValues ∖ {[0]}) with
          | None => raise KeyError "pop from an empty set"
          | Some highValue =>
              let image := floor_divide image highValue in
              let image := multiply_uint8 image 255 in
              if bool_decide (({[0; 255]} : gset Z) ⊂ unique_values image) then
                raise Exception (value_domain_message imagePath)
              else ret image
          end
        else
          raise Exception (value_domain_message imagePath)
  end.

Definition no_match_message (truthFile : string) : string :=
  "No matching submission image for: " ++ truthFile.

Fixpoint matchInputFile_loop (truthFile testDir : string)
    (files : list string) : result string :=
  match files with
  | [] => raise Exception (no_match_message truthFile)
  | testFile :: files' =>
      match split "_" truthFile !! 1%nat with
      | None => raise IndexError "list index out of range"
      | Some truthFileId =>
          if contains truthFileId testFile then
            ret (path_join testDir testFile)
          else matchInputFile_loop truthFile testDir files'
      end
  end.

Definition matchInputFile (w : world) (truthFile testDir : string)
    : result string :=
  matchInputFile_loop truthFile testDir (listdir w testDir).

Record Metric := mkMetric { name : string; value : pyfloat }.
Record Score := mkScore { dataset : string; metrics : list Metric }.

(** The four confusion counts of two binarized images, in the order
    true positive, true negative, false positive, false negative. *)
Record Confusion := mkConfusion {
  truePositive : Z; trueNegative : Z; falsePositive : Z; falseNegative : Z
}.

Definition confusion (truthBinaryImage testBinaryImage : list bool)
    : Confusion :=
  let truthBinaryNegativeImage := one_minus truthBinaryImage in
  let testBinaryNegativeImage := one_minus testBinaryImage in
  {| truePositive := np_sum (logical_and truthBinaryImage testBinaryImage);
     trueNegative := np_sum (logical_and truthBinaryNegativeImage
                                         testBinaryNegativeImage);
     falsePositive := np_sum (logical_and truthBinaryNegativeImage
                                          testBinaryImage);
     falseNegative := np_sum (logical_and truthBinaryImage
                                          testBinaryNegativeImage) |}.

Definition shape_message (testPath : string) (testShape truthShape : nat * nat)
    : string :=
  "Image " ++ basename testPath ++ " has dimensions " ++ str_shape testShape
  ++ "; expected " ++ str_shape truthShape ++ ".".

(** The metric list of two binarized images. *)
Definition maskMetrics (truthBinaryImage testBinaryImage : list bool)
    : result (list Metric) :=
  let truthPixelSum := inject_Z (np_sum truthBinaryImage) in
  let testPixelSum := inject_Z (np_sum testBinaryImage) in
  let c := confusion truthBinaryImage testBinaryImage in
  let truePositive := inject_Z (truePositive c) in
  let trueNegative := inject_Z (trueNegative c) in
  let falsePositive := inject_Z (falsePositive c) in
  let falseNegative := inject_Z (falseNegative c) in
  accuracy ← float_div (truePositive + trueNegative)%Q
               (truePositive + trueNegative + falsePositive + falseNegative)%Q;
  jaccard ← float_div truePositive
               (truePositive + falseNegative + falsePositive)%Q;
  dice ← float_div (2 * truePositive)%Q (truthPixelSum + testPixelSum)%Q;
  sensitivity ← float_div truePositive (truePositive + falseNegative)%Q;
  specificity ← float_div trueNegative (trueNegative + falsePositive)%Q;
  ret [ mkMetric "accuracy" accuracy;
        mkMetric "jaccard" jaccard;
        mkMetric "dice" dice;
        mkMetric "sensitivity" sensitivity;
        mkMetric "specificity" specificity ].

Definition scoreP1Image (w : world) (truthPath testPath : string)
    : result (list Metric) :=
  truthImage ← loadImage w truthPath;
  testImage ← loadImage w testPath;
  if negb (shape_eqb (shape testImage) (shape truthImage)) then
    raise Exception
      (shape_message testPath (shape testImage) (shape truthImage))
  else
    let truthBinaryImage := greater truthImage 128 in
    let testBinaryImage := greater testImage 128 in
    maskMetrics truthBinaryImage testBinaryImage.

Definition scoreP1 (w : world) (truthDir testDir : string)
    : result (list Score) :=
  mapM_result
    (fun truthFile =>
       testPath ← matchInputFile w truthFile testDir;
       let truthPath := path_join truthDir truthFile in
       let datasetName := rsplit1_head "_" truthFile in
       metrics ← scoreP1Image w truthPath testPath;
       ret (mkScore datasetName metrics))
    (sorted (listdir w truthDir)).

(** ** pandas data frames *)

Inductive dtype := float64 | int64 | object | bool_.

Inductive cell :=
| CFloat (x : pyfloat)
| CInt (z : Z)
| CStr (s : string)
| CBool (b : bool).

(** A frame: the column names, the type of each column, and the rows, each
    with its index label.  A cell that is missing in the CSV is [CFloat NaN],
    in a column of any type. *)
Record DataFrame := mkFrame {
  columns : list string;
  dtypes : list dtype;
  rows : list (cell * list cell)
}.

Record Series (A : Type) := mkSeries {
  series_index : list cell;
  series_values : list A
}.
Arguments mkSeries {A} _ _.
Arguments series_index {A} _.
Arguments series_values {A} _.

Definition index (df : DataFrame) : list cell := map fst (rows df).

Definition dtype_eqb (a b : dtype) : bool :=
  match a, b with
  | float64, float64 | int64, int64 | object, object | bool_, bool_ => true
  | _, _ => false
  end.

Definition pyfloat_eqb (x y : pyfloat) : bool :=
  match x, y with
  | NaN, NaN | PosInf, PosInf | NegInf, NegInf => true
  | Finite p, Finite q => Qeq_bool p q
  | _, _ => false
  end.

(** Equality of index labels; missing labels count as equal to each other,
    as they do for [verify_integrity] and [drop]. *)
Definition cell_eqb (a b : cell) : bool :=
  match a, b with
  | CFloat x, CFloat y => pyfloat_eqb x y
  | CInt x, CInt y => x =? y
  | CStr x, CStr y => String.eqb x y
  | CBool x, CBool y => Bool.eqb x y
  | _, _ => false
  end.

Definition pyfloat_leb (x y : pyfloat) : bool :=
  match x, y with
  | NaN, _ | _, NaN => false
  | NegInf, _ | _, PosInf => true
  | _, NegInf | PosInf, _ => false
  | Finite p, Finite q => Qle_bool p q
  end.

(** [x < y] and [x > y] on floats: false as soon as one side is NaN. *)
Definition pyfloat_ltb (x y : pyfloat) : bool :=
  match x, y with
  | NaN, _ | _, NaN => false
  | _, _ => negb (pyfloat_leb y x)
  end.

(** The number a numeric cell stands for. *)
Definition cell_number (c : cell) : option pyfloat :=
  match c with
  | CFloat x => Some x
  | CInt z => Some (Finite (inject_Z z))
  | CBool b => Some (Finite (if b then 1 else 0))
  | CStr _ => None
  end.

Definition is_null (c : cell) : bool :=
  match c with
  | CFloat NaN => true
  | _ => false
  end.

(** The order in which labels are sorted: numbers by value, strings by
    code point, missing labels last.  An index read from a CSV column holds
    numbers only or strings only, apart from missing labels; numbers are
    put before strings to have a total order. *)
Definition cell_leb (a b : cell) : bool :=
  if is_null b then true
  else if is_null a then false
  else match cell_number a, cell_number b with
       | Some x, Some y => pyfloat_leb x y
       | Some _, None => true
       | None, Some _ => false
       | None, None =>
           match a, b with
           | CStr s, CStr t => String.leb s t
           | _, _ => true
           end
       end.

(** Python's [repr] of a float is outside the model. *)
Class FloatRepr := float_repr : Q -> string.

Definition str_Z (z : Z) : string :=
  if z <? 0 then "-" ++ str_nat (Z.abs_nat z) else str_nat (Z.abs_nat z).

Section Repr.
Context `{FloatRepr}.

(** [repr] of a label or of a column name; the escaping of quotes inside
    a string is left out. *)
Definition repr_str (s : string) : string := "'" ++ s ++ "'".

Definition repr_cell (c : cell) : string :=
  match c with
  | CFloat NaN => "nan"
  | CFloat PosInf => "inf"
  | CFloat NegInf => "-inf"
  | CFloat (Finite q) => float_repr q
  | CInt z => str_Z z
  | CStr s => repr_str s
  | CBool true => "True"
  | CBool false => "False"
  end.

Fixpoint join (sep : string) (l : list string) : string :=
  match l with
  | [] => ""
  | [x] => x
  | x :: l' => x ++ sep ++ join sep l'
  end.

(** What an f-string shows for a list. *)
Definition repr_list {A} (r : A -> string) (l : list A) : string :=
  "[" ++ join ", " (map r l) ++ "]".
End Repr.

(** *** Index operations *)

Definition mem_str (s : string) (l : list string) : bool :=
  existsb (String.eqb s) l.

Definition mem_cell (c : cell) (l : list cell) : bool :=
  existsb (cell_eqb c) l.

Fixpoint unique_str (l : list string) : list string :=
  match l with
  | [] => []
  | x :: l' => if mem_str x l' then unique_str l' else x :: unique_str l'
  end.

Fixpoint unique_cell (l : list cell) : list cell :=
  match l with
  | [] => []
  | x :: l' => if mem_cell x l' then unique_cell l' else x :: unique_cell l'
  end.

Fixpoint insert_cell (x : cell) (l : list cell) : list cell :=
  match l with
  | [] => [x]
  | y :: l' => if cell_leb x y then x :: l else y :: insert_cell x l'
  end.

Definition sorted_cells (l : list cell) : list cell :=
  fold_right insert_cell [] l.

(** [a.difference(b)] on indexes of column names and of row labels: the
    elements of [a] that are not in [b], without repetition, sorted. *)
Definition difference_str (a b : list string) : list string :=
  sorted (unique_str (List.filter (fun x => negb (mem_str x b)) a)).

Definition difference_cell (a b : list cell) : list cell :=
  sorted_cells (unique_cell (List.filter (fun x => negb (mem_cell x b)) a)).

(** The labels that occur again later in an index. *)
Fixpoint duplicated (l : list cell) : list cell :=
  match l with
  | [] => []
  | x :: l' => if mem_cell x l' then x :: duplicated l' else duplicated l'
  end.

(** *** Frame operations *)

Fixpoint position (s : string) (l : list string) : option nat :=
  match l with
  | [] => None
  | x :: l' => if String.eqb s x then Some O else S <$> position s l'
  end.

Fixpoint remove_nth {A} (n : nat) (l : list A) : list A :=
  match n, l with
  | _, [] => []
  | O, _ :: l' => l'
  | S n', x :: l' => x :: remove_nth n' l'
  end.

Section Pandas.
Context `{FloatRepr}.

(** [df.set_index(name, drop=True, inplace=True, verify_integrity=True)]
    for a column that is present: the column becomes the index and leaves
    the frame; an index with a repeated label raises [ValueError].  The
    text after the colon follows the version of pandas. *)
Definition set_index (df : DataFrame) (name : string) : result DataFrame :=
  match position name (columns df) with
  | None => raise KeyError (repr_list repr_str [name])
  | Some i =>
      let labels := map (fun r => nth i (snd r) (CFloat NaN)) (rows df) in
      match duplicated labels with
      | [] =>
          ret (mkFrame (remove_nth i (columns df))
                       (remove_nth i (dtypes df))
                       (map (fun r => (nth i (snd r) (CFloat NaN),
                                       remove_nth i (snd r)))
                            (rows df)))
      | dup =>
          raise ValueError
            ("Index has duplicate keys: " ++
             repr_list repr_cell (unique_cell dup))
      end
  end.

(** The entry of [l] at the place of the column [name]; [d] when the
    frame has no such column. *)
Definition pick {A} (df : DataFrame) (l : list A) (d : A) (name : string)
    : A :=
  match position name (columns df) with
  | Some i => nth i l d
  | None => d
  end.

(** [df.reindex(names, axis='columns')]: the columns [names], in that
    order; a name the frame lacks gives a column of missing values. *)
Definition reindex_columns (df : DataFrame) (names : list string)
    : DataFrame :=
  mkFrame names
          (map (pick df (dtypes df) float64) names)
          (map (fun r => (fst r, map (pick df (snd r) (CFloat NaN)) names))
               (rows df)).

(** [df[mask.any(axis='columns')].index] for a cell-wise test. *)
Definition index_where_any (test : cell -> bool) (df : DataFrame)
    : list cell :=
  map fst (List.filter (fun r => existsb test (snd r)) (rows df)).

(** [df.drop(index=labels, inplace=True, errors='ignore')]. *)
Definition drop_index (df : DataFrame) (labels : list cell) : DataFrame :=
  mkFrame (columns df) (dtypes df)
          (List.filter (fun r => negb (mem_cell (fst r) labels)) (rows df)).

Fixpoint insert_row (x : cell * list cell) (l : list (cell * list cell))
    : list (cell * list cell) :=
  match l with
  | [] => [x]
  | y :: l' =>
      if cell_leb (fst x) (fst y) then x :: l else y :: insert_row x l'
  end.

(** [df.sort_index(axis='rows', inplace=True)]. *)
Definition sort_index (df : DataFrame) : DataFrame :=
  mkFrame (columns df) (dtypes df) (fold_right insert_row [] (rows df)).

(** [df[name]]. *)
Definition getitem (df : DataFrame) (name : string) : result (Series cell) :=
  match position name (columns df) with
  | None => raise KeyError (repr_str name)
  | Some i =>
      ret (mkSeries (index df)
                    (map (fun r => nth i (snd r) (CFloat NaN)) (rows df)))
  end.

(** [x > t] on a cell and a float. *)
Definition cell_gt (t : pyfloat) (c : cell) : bool :=
  match cell_number c with
  | Some x => pyfloat_ltb t x
  | None => false
  end.

(** [series.gt(t)]. *)
Definition series_gt (s : Series cell) (t : Q) : Series bool :=
  mkSeries (series_index s) (map (cell_gt (Finite t)) (series_values s)).
End Pandas.

(** ** isic_challenge_scoring/task3.py *)

Definition CATEGORIES : list string :=
  ["MEL"; "NV"; "BCC"; "AKIEC"; "BKL"; "DF"; "VASC"].

Definition EXCLUDE_LABELS : list cell := [CStr "ISIC_0035068"].

(** The functions of the [metrics] module, which is not among the
    sources. *)
Class MetricsModule := {
  balancedMulticlassAccuracy : DataFrame -> DataFrame -> result pyfloat;
  binaryAccuracy : Series bool -> Series bool -> result pyfloat;
  binarySensitivity : Series bool -> Series bool -> result pyfloat;
  binarySpecificity : Series bool -> Series bool -> result pyfloat;
  binaryF1 : Series bool -> Series bool -> result pyfloat;
  binaryPpv : Series bool -> Series bool -> result pyfloat;
  binaryNpv : Series bool -> Series bool -> result pyfloat;
  auc : Series cell -> Series cell -> result pyfloat;
  aucAboveSensitivity : Series cell -> Series cell -> Q -> result pyfloat
}.

Section Task3.
Context `{FloatRepr} `{MetricsModule}.

(** [x < 0.0 or x > 1.0]. *)
Definition out_of_range (c : cell) : bool :=
  match cell_number c with
  | Some x => pyfloat_ltb x (Finite 0) || pyfloat_ltb (Finite 1) x
  | None => false
  end.

(** [parseCsv], from the frame that [pd.read_csv(csvFileStream, header=0)]
    returned. *)
Definition parseCsv (csvFileStream : DataFrame) : result DataFrame :=
  let probabilities := csvFileStream in
  if negb (mem_str "image" (columns probabilities)) then
    raise ScoreException
      ("Missing column in CSV: " ++ dquote ++ "image" ++ dquote ++ ".")
  else
    probabilities ← set_index probabilities "image";
    let missingColumns := difference_str CATEGORIES (columns probabilities) in
    if negb (Nat.eqb (length missingColumns) 0) then
      raise ScoreException
        ("Missing columns in CSV: " ++ repr_list repr_str missingColumns ++ ".")
    else
      let extraColumns := difference_str (columns probabilities) CATEGORIES in
      if negb (Nat.eqb (length extraColumns) 0) then
        raise ScoreException
          ("Extra columns in CSV: " ++ repr_list repr_str extraColumns ++ ".")
      else
        let probabilities := reindex_columns probabilities CATEGORIES in
        let missingRows := index_where_any is_null probabilities in
        if negb (Nat.eqb (length missingRows) 0) then
          raise ScoreException
            ("Missing value(s) in CSV for images: " ++
             repr_list repr_cell missingRows ++ ".")
        else
          let nonFloatColumns :=
            map fst (List.filter (fun cd => negb (dtype_eqb (snd cd) float64))
                            (combine (columns probabilities)
                                     (dtypes probabilities))) in
          if negb (Nat.eqb (length nonFloatColumns) 0) then
            raise ScoreException
              ("CSV contains non-floating-point value(s) in columns: " ++
               repr_list repr_str nonFloatColumns ++ ".")
          else
            let outOfRangeRows := index_where_any out_of_range probabilities in
            if negb (Nat.eqb (length outOfRangeRows) 0) then
              raise ScoreException
                ("Values in CSV are outside the interval [0.0, 1.0] for images: "
                 ++ repr_list repr_cell outOfRangeRows ++ ".")
            else ret probabilities.

(** [excludeRows], [sortRows]: the frame is changed in place, so the new
    frame is returned. *)
Definition excludeRows (probabilities : DataFrame) (labels : list cell)
    : DataFrame :=
  drop_index probabilities labels.

Definition validateRows (truthProbabilities predictionProbabilities : DataFrame)
    : result unit :=
  let missingImages :=
    difference_cell (index truthProbabilities)
                    (index predictionProbabilities) in
  if negb (Nat.eqb (length missingImages) 0) then
    raise ScoreException
      ("Missing images in CSV: " ++ repr_list repr_cell missingImages ++ ".")
  else
    let extraImages :=
      difference_cell (index predictionProbabilities)
                      (index truthProbabilities) in
    if negb (Nat.eqb (length extraImages) 0) then
      raise ScoreException
        ("Extra images in CSV: " ++ repr_list repr_cell extraImages ++ ".")
    else ret tt.

Definition sortRows (probabilities : DataFrame) : DataFrame :=
  sort_index probabilities.

(** One turn of the loop over [CATEGORIES]. *)
Definition categoryScore (truthProbabilities predictionProbabilities : DataFrame)
    (category : string) : result Score :=
  truthCategoryProbabilities ← getitem truthProbabilities category;
  predictionCategoryProbabilities ← getitem predictionProbabilities category;
  let truthBinaryValues := series_gt truthCategoryProbabilities (1 # 2) in
  let predictionBinaryValues :=
    series_gt predictionCategoryProbabilities (1 # 2) in
  accuracy ← binaryAccuracy truthBinaryValues predictionBinaryValues;
  sensitivity ← binarySensitivity truthBinaryValues predictionBinaryValues;
  specificity ← binarySpecificity truthBinaryValues predictionBinaryValues;
  f1_score ← binaryF1 truthBinaryValues predictionBinaryValues;
  ppv ← binaryPpv truthBinaryValues predictionBinaryValues;
  npv ← binaryNpv truthBinaryValues predictionBinaryValues;
  auc_ ← auc truthCategoryProbabilities predictionCategoryProbabilities;
  auc_sens_80 ← aucAboveSensitivity truthCategoryProbabilities
                  predictionCategoryProbabilities (4 # 5);
  ret (mkScore category
         [ mkMetric "accuracy" accuracy;
           mkMetric "sensitivity" sensitivity;
           mkMetric "specificity" specificity;
           mkMetric "f1_score" f1_score;
           mkMetric "ppv" ppv;
           mkMetric "npv" npv;
           mkMetric "auc" auc_;
           mkMetric "auc_sens_80" auc_sens_80 ]).

(** [computeMetrics] from its third line on: what it does with the two
    tables that [parseCsv] returned. *)
Definition computeMetricsParsed
    (truthProbabilities predictionProbabilities : DataFrame)
    : result (list Score) :=
  let truthProbabilities := excludeRows truthProbabilities EXCLUDE_LABELS in
  let predictionProbabilities :=
    excludeRows predictionProbabilities EXCLUDE_LABELS in
  _ ← validateRows truthProbabilities predictionProbabilities;
  let truthProbabilities := sortRows truthProbabilities in
  let predictionProbabilities := sortRows predictionProbabilities in
  balanced_accuracy ← balancedMulticlassAccuracy truthProbabilities
                        predictionProbabilities;
  let scores :=
    [ mkScore "aggregate" [ mkMetric "balanced_accuracy" balanced_accuracy ] ] in
  categoryScores ← mapM_result
                     (categoryScore truthProbabilities predictionProbabilities)
                     CATEGORIES;
  ret (scores ++ categoryScores)%list.

Definition computeMetrics (truthFileStream predictionFileStream : DataFrame)
    : result (list Score) :=
  truthProbabilities ← parseCsv truthFileStream;
  predictionProbabilities ← parseCsv predictionFileStream;
  computeMetricsParsed truthProbabilities predictionProbabilities.
End Task3.

(** ** Directories of CSV and PDF files *)

(** The line feed. *)
Definition line_feed : ascii := ascii_of_nat 10.

(** [s.lower()], on the ASCII letters. *)
Definition lower_ascii (c : ascii) : ascii :=
  let n := nat_of_ascii c in
  if (65 <=? n)%nat && (n <=? 90)%nat then ascii_of_nat (n + 32) else c.

Fixpoint lower (s : string) : string :=
  match s with
  | EmptyString => EmptyString
  | String c s' => String (lower_ascii c) (lower s')
  end.

(** [s.rfind(c)]; [None] stands for -1. *)
Fixpoint rfind (c : ascii) (s : string) : option nat :=
  match s with
  | EmptyString => None
  | String d s' =>
      match rfind c s' with
      | Some i => Some (S i)
      | None => if Ascii.eqb d c then Some O else None
      end
  end.

(** [PurePath.suffix] of a file name, as [pathlib] computes it up to
    Python 3.12: [name[i:]] for [i = name.rfind('.')] when
    [0 < i < len(name) - 1], the empty string otherwise. *)
Definition suffix (name : string) : string :=
  match rfind "." name with
  | Some i =>
      if (0 <? i)%nat && (i <? String.length name - 1)%nat
      then String.substring i (String.length name - i) name
      else EmptyString
  | None => EmptyString
  end.

(** [s.endswith(e)]. *)
Definition endswith (e s : string) : bool :=
  (String.length e <=? String.length s)%nat
  && String.eqb (String.substring (String.length s - String.length e)
                                  (String.length e) s) e.

(** [re.match(r'^ISIC.*GroundTruth\.csv$', name)]: [.] stands for any
    character but the line feed, and [$] for the end of the name or the
    place before a line feed that ends it. *)
Definition matches_truth_pattern (name : string) : bool :=
  let body :=
    if endswith (String line_feed EmptyString) name
    then String.substring 0 (String.length name - 1) name
    else name in
  startswith "ISIC" body
  && endswith "GroundTruth.csv" body
  && (19 <=? String.length body)%nat
  && negb (has_char line_feed body).

(** The directories of a classification run: the names that
    [path.iterdir()] yields, in its order, and the frame that the CSV
    reader gives for a file.  File names are strings of ASCII characters;
    the files are taken to open and to be read without error. *)
Record csv_world := mkCsvWorld {
  iterdir : string -> list string;
  read_csv : string -> DataFrame
}.

(** [file.suffix.lower() == ext], the test of [scoreP3] and of
    [ensureManuscript] on a file name. *)
Definition has_suffix (ext name : string) : bool :=
  String.eqb (lower (suffix name)) ext.

Section ScoreP3.
Context `{FloatRepr} `{MetricsModule}.

(** [scoreP3], task3.py. *)
Definition scoreP3 (w : csv_world) (truthPath predictionPath : string)
    : result (list Score) :=
  match List.find matches_truth_pattern (iterdir w truthPath) with
  | None =>
      raise ScoreException "Internal error, truth file could not be found."
  | Some truthFile =>
      let predictionFiles :=
        List.filter (has_suffix ".csv") (iterdir w predictionPath) in
      if (1 <? length predictionFiles)%nat then
        raise ScoreException
          "Multiple prediction files submitted. Exactly one CSV file should be submitted."
      else if (length predictionFiles <? 1)%nat then
        raise ScoreException
          "No prediction files submitted. Exactly one CSV file should be submitted."
      else
        match predictionFiles with
        | predictionFile :: _ =>
            computeMetrics
              (read_csv w (path_join truthPath truthFile))
              (read_csv w (path_join predictionPath predictionFile))
        | [] => raise IndexError "list index out of range"
        end
  end.
End ScoreP3.

(** [ensureManuscript], __init__.py. *)
Definition ensureManuscript (w : csv_world) (predictionPath : string)
    : result unit :=
  let manuscriptFileCount :=
    length (List.filter (has_suffix ".pdf") (iterdir w predictionPath)) in
  if (1 <? manuscriptFileCount)%nat then
    raise ScoreException
      "Multiple PDFs submitted. Exactly one PDF file, containing the descriptive manuscript, must included in the submission."
  else if (manuscriptFileCount <? 1)%nat then
    raise ScoreException
      "No PDF submitted. Exactly one PDF file, containing the descriptive manuscript, must included in the submission."
  else ret tt.

(** * Vocabulary of the statements *)

(** [tok] occurs in [f] as a substring. *)
Definition occurs_in (tok f : string) : Prop :=
  exists a b, f = a ++ tok ++ b.

(** The metric list in which every metric is 1.0. *)
Definition all_metrics_one : list Metric :=
  [ mkMetric "accuracy" (Finite 1);
    mkMetric "jaccard" (Finite 1);
    mkMetric "dice" (Finite 1);
    mkMetric "sensitivity" (Finite 1);
    mkMetric "specificity" (Finite 1) ].

(** Every sample of the grid is 0 or 255. *)
Definition normalized (grid : ndarray) : Prop :=
  Forall (fun v => v = 0 \/ v = 255) (samples grid).

(** A cell fits the type of its column.  A missing cell fits [float64] and
    [object]: the CSV reader turns an integer or boolean column with a
    missing cell into one of these. *)
Definition cell_has_dtype (c : cell) (d : dtype) : bool :=
  match d, c with
  | float64, CFloat _ => true
  | int64, CInt _ => true
  | bool_, CBool _ => true
  | object, CStr _ => true
  | object, CFloat NaN => true
  | _, _ => false
  end.

Fixpoint row_has_dtypes (r : list cell) (ds : list dtype) : bool :=
  match r, ds with
  | [], [] => true
  | c :: r', d :: ds' => cell_has_dtype c d && row_has_dtypes r' ds'
  | _, _ => false
  end.

(** Cell by cell, a row fits the types of the columns; beyond the last
    column [nth] gives a missing cell and [float64]. *)
Definition row_typed (r : list cell) (ds : list dtype) : Prop :=
  forall j, cell_has_dtype (nth j r (CFloat NaN)) (nth j ds float64) = true.

Fixpoint nodup_str (l : list string) : bool :=
  match l with
  | [] => true
  | x :: l' => negb (mem_str x l') && nodup_str l'
  end.

(** What the CSV reader guarantees of the frame it returns: the column
    names are distinct, and every row has one cell per column, of the type
    of the column. *)
Definition wf_frame (df : DataFrame) : bool :=
  nodup_str (columns df)
  && Nat.eqb (length (dtypes df)) (length (columns df))
  && forallb (fun r => row_has_dtypes (snd r) (dtypes df)) (rows df).

(** The cells of the column [name], from the first row to the last. *)
Definition column_values (df : DataFrame) (name : string)
    : option (list cell) :=
  match position name (columns df) with
  | Some i => Some (map (fun r => nth i (snd r) (CFloat NaN)) (rows df))
  | None => None
  end.

(** A floating-point value in [0.0, 1.0]. *)
Definition probability (c : cell) : Prop :=
  exists q : Q, c = CFloat (Finite q) /\ (0 <= q)%Q /\ (q <= 1)%Q.

(** No label occurs at two positions. *)
Definition unique_labels (l : list cell) : Prop :=
  forall (i j : nat) (a b : cell),
    l !! i = Some a -> l !! j = Some b -> cell_eqb a b = true -> i = j.

(** The invariant of a probability table. *)
Definition ProbabilityTable (df : DataFrame) : Prop :=
  columns df = CATEGORIES
  /\ Forall (fun d => d = float64) (dtypes df)
  /\ length (dtypes df) = length CATEGORIES
  /\ Forall (fun r => length (snd r) = length CATEGORIES
                      /\ Forall probability (snd r)) (rows df)
  /\ unique_labels (index df).

(** The rows of a table whose identifier is not the excluded one. *)
Definition other_rows (df : DataFrame) : list (cell * list cell) :=
  List.filter (fun r => negb (cell_eqb (fst r) (CStr "ISIC_0035068")))
              (rows df).

(** Two tables agree on all rows with other identifiers. *)
Definition agree_elsewhere (a b : DataFrame) : Prop :=
  other_rows a = other_rows b.

(** The metric names of a category record, in order. *)
Definition category_metric_names : list string :=
  ["accuracy"; "sensitivity"; "specificity"; "f1_score"; "ppv"; "npv";
   "auc"; "auc_sens_80"].

(** The float [a / b] of two integer counts. *)
Definition ratio (a b : Z) : pyfloat :=
  Finite (Qred (inject_Z a / inject_Z b)).

(** The names of the segmentation metrics, in order. *)
Definition mask_metric_names : list string :=
  ["accuracy"; "jaccard"; "dice"; "sensitivity"; "specificity"].

(** A float between 0.0 and 1.0. *)
Definition unit_interval (x : pyfloat) : Prop :=
  exists q : Q, x = Finite q /\ (0 <= q)%Q /\ (q <= 1)%Q.

(** The metric list in which every metric is 0.0. *)
Definition all_metrics_zero : list Metric :=
  [ mkMetric "accuracy" (Finite 0);
    mkMetric "jaccard" (Finite 0);
    mkMetric "dice" (Finite 0);
    mkMetric "sensitivity" (Finite 0);
    mkMetric "specificity" (Finite 0) ].

(** One turn of the loop of [scoreP1]: the record of one ground-truth
    file. *)
Definition scoreFile (w : world) (truthDir testDir truthFile : string)
    : result Score :=
  testPath ← matchInputFile w truthFile testDir;
  let truthPath := path_join truthDir truthFile in
  let datasetName := rsplit1_head "_" truthFile in
  metrics ← scoreP1Image w truthPath testPath;
  ret (mkScore datasetName metrics).

(** What [parseCsv] asks of a CSV: an [image] column whose labels are
    distinct, no column besides [image] and the categories, and for every
    category a column of type [float64] whose cells are all probabilities. *)
Definition acceptable (csv : DataFrame) : Prop :=
  (exists keys, column_values csv "image" = Some keys /\ unique_labels keys)
  /\ (forall name, In name (columns csv) ->
                   name = "image" \/ In name CATEGORIES)
  /\ (forall category, In category CATEGORIES ->
        exists j,
          position category (columns csv) = Some j
          /\ nth j (dtypes csv) object = float64
          /\ forall r, In r (rows csv) ->
                       probability (nth j (snd r) (CFloat NaN))).

(** The order of [sortRows]: by row label. *)
Definition row_le (a b : cell * list cell) : Prop :=
  cell_leb (fst a) (fst b) = true.

(** * Inputs on which the statements are tried *)

Module Examples.

Definition grid_1x2 (a b : Z) : ndarray := mkArray (1%nat, 2%nat) [a; b].

(** A test directory with two masks, every image a 1x2 grid. *)
Definition two_masks (a b : Z) : world :=
  mkWorld (fun _ => ["ISIC_0000003_Segmentation.png";
                     "ISIC_0000007_Segmentation.png"])
          (fun _ => Some (mkImage "L" (grid_1x2 a b)))
          0.

(** Two ground-truth masks whose identifiers are one a beginning of the
    other. *)
Definition nested_identifiers : world :=
  mkWorld (fun _ => ["ISIC_0000003_Segmentation.png";
                     "ISIC_00000030_Segmentation.png"])
          (fun _ => Some (mkImage "L" (grid_1x2 0 255)))
          0.

End Examples.

Module ExampleFrames.

(** A rendering of floats for the examples: numerator, [/], denominator. *)
#[global] Instance decimal_repr : FloatRepr :=
  fun q => str_Z (Qnum q) ++ "/" ++ str_nat (Pos.to_nat (Qden q)).

Definition header : list string :=
  ["image"; "NV"; "MEL"; "BCC"; "AKIEC"; "BKL"; "DF"; "VASC"].

Definition header_dtypes : list dtype :=
  [object; float64; float64; float64; float64; float64; float64; float64].

(** A CSV line: the identifier, then the probabilities of NV and MEL; the
    other categories are 0.0. *)
Definition line (n : Z) (image : string) (nv mel : Q) : cell * list cell :=
  (CInt n,
   [CStr image; CFloat (Finite nv); CFloat (Finite mel);
    CFloat (Finite 0); CFloat (Finite 0); CFloat (Finite 0);
    CFloat (Finite 0); CFloat (Finite 0)]).

Definition two_images : DataFrame :=
  mkFrame header header_dtypes
    [line 0 "ISIC_0000002" 1 0; line 1 "ISIC_0000001" (1 # 4) (3 # 4)].

(** [two_images] with one more line, for the excluded identifier. *)
Definition with_excluded (nv mel : Q) : DataFrame :=
  mkFrame header header_dtypes
    [line 0 "ISIC_0000002" 1 0; line 1 "ISIC_0035068" nv mel;
     line 2 "ISIC_0000001" (1 # 4) (3 # 4)].

(** Two lines for one identifier. *)
Definition repeated_image : DataFrame :=
  mkFrame header header_dtypes
    [line 0 "ISIC_0000001" 1 0; line 1 "ISIC_0000001" 0 1].

End ExampleFrames.

Module ExampleMetrics.

(** A stand-in for the [metrics] module, to try the statements on: every
    function returns the number of rows it was given. *)
Definition row_count {A} (l : list A) : result pyfloat :=
  ret (Finite (inject_Z (Z.of_nat (length l)))).

#[global] Instance row_count_metrics : MetricsModule := {|
  balancedMulticlassAccuracy := fun t _ => row_count (rows t);
  binaryAccuracy := fun t _ => row_count (series_values t);
  binarySensitivity := fun t _ => row_count (series_values t);
  binarySpecificity := fun t _ => row_count (series_values t);
  binaryF1 := fun t _ => row_count (series_values t);
  binaryPpv := fun t _ => row_count (series_values t);
  binaryNpv := fun t _ => row_count (series_values t);
  auc := fun t _ => row_count (series_values t);
  aucAboveSensitivity := fun t _ _ => row_count (series_values t)
|}.

End ExampleMetrics.

Module ExampleFiles.


(** [ExampleFrames.two_images] with its lines in the other order. *)
Definition two_images_reversed : DataFrame :=
  mkFrame ExampleFrames.header ExampleFrames.header_dtypes
    [ExampleFrames.line 0 "ISIC_0000001" (1 # 4) (3 # 4);
     ExampleFrames.line 1 "ISIC_0000002" 1 0].

(** A truth directory and a prediction directory, each with one file
    beside the one that counts. *)
Definition submission : csv_world :=
  mkCsvWorld
    (fun path =>
       if String.eqb path "truth"
       then ["readme.txt"; "ISIC2018_Task3_Test_GroundTruth.csv"]
       else ["manuscript.pdf"; "Predictions.CSV"])
    (fun path =>
       if String.eqb path "truth/ISIC2018_Task3_Test_GroundTruth.csv"
       then ExampleFrames.two_images
       else two_images_reversed).

(** One line of [ExampleFrames.two_images], and a line for the excluded
    identifier. *)
Definition one_image_and_excluded : DataFrame :=
  mkFrame ExampleFrames.header ExampleFrames.header_dtypes
    [ExampleFrames.line 0 "ISIC_0000002" 1 0;
     ExampleFrames.line 1 "ISIC_0035068" 0 1].

End ExampleFiles.

(** * Properties *)

(** ** Strings *)

Lemma startswith_spec (p s : string) :
  startswith p s = true <-> exists b, s = p ++ b.
Proof.
  revert s. induction p as [|c p IH]; intros s; cbn.
  - split; [intros _; by exists s | done].
  - destruct s as [|d s].
    + split; [done | intros [b Hb]; discriminate].
    + rewrite andb_true_iff, Ascii.eqb_eq, IH. split.
      * intros [-> [b ->]]. by exists b.
      * intros [b Hb]. inversion Hb; subst. split; [done | by exists b].
Qed.

(** [contains] decides the substring relation. *)
Lemma contains_spec (needle hay : string) :
  contains needle hay = true <-> exists a b, hay = a ++ needle ++ b.
Proof.
  induction hay as [|c hay IH]; cbn [contains].
  - rewrite orb_false_r, startswith_spec. split.
    + intros [b Hb]. by exists "", b.
    + intros [a [b Hab]]. destruct a; [by exists b | discriminate].
  - rewrite orb_true_iff, startswith_spec, IH. split.
    + intros [[b Hb] | [a [b Hab]]].
      * by exists "", b.
      * exists (String c a), b. cbn. by rewrite Hab.
    + intros [a [b Hab]]. destruct a as [|d a]; cbn in Hab.
      * left. by exists b.
      * right. exists a, b. by inversion Hab.
Qed.

Lemma insert_sorted_perm (x : string) (l : list string) :
  Permutation (x :: l) (insert_sorted x l).
Proof.
  induction l as [|y l IH]; simpl; [reflexivity|].
  destruct (String.leb x y); [reflexivity|].
  etransitivity; [apply perm_swap|]. by constructor.
Qed.

Lemma sorted_perm (l : list string) : Permutation l (sorted l).
Proof.
  induction l as [|x l IH]; simpl; [reflexivity|].
  etransitivity; [|apply insert_sorted_perm]. by constructor.
Qed.

Lemma insert_sorted_Sorted (x : string) (l : list string) :
  Sorted str_le l -> Sorted str_le (insert_sorted x l).
Proof.
  induction l as [|y l IH]; intros Hs; simpl.
  - repeat constructor.
  - destruct (String.leb x y) eqn:Hxy.
    + constructor; [done | by constructor].
    + inversion Hs as [|? ? Hl Hhd]; subst.
      constructor; [by apply IH|].
      assert (Hyx : str_le y x).
      { destruct (String.leb_total x y) as [H|H]; [congruence | done]. }
      destruct l as [|z l]; simpl; [by constructor|].
      destruct (String.leb x z); constructor; [done|].
      by inversion Hhd.
Qed.

(** [sorted] returns the names it was given, in ascending order. *)
Lemma sorted_Sorted (l : list string) : Sorted str_le (sorted l).
Proof.
  induction l as [|x l IH]; simpl; [constructor|].
  by apply insert_sorted_Sorted.
Qed.

(** ** matchInputFile *)

Section MatchInputFile.
Variables (truthFile testDir truthFileId : string).
Hypothesis Htoken : split "_" truthFile !! 1%nat = Some truthFileId.

Lemma matchInputFile_loop_found (pre : list string) (f : string)
    (post : list string) :
  occurs_in truthFileId f ->
  Forall (fun g => ~ occurs_in truthFileId g) pre ->
  matchInputFile_loop truthFile testDir (pre ++ f :: post)
  = ret (path_join testDir f).
Proof using Htoken.
  intros Hf Hpre. induction Hpre as [|g pre Hg _ IH]; cbn.
  - rewrite Htoken. apply contains_spec in Hf. by rewrite Hf.
  - rewrite Htoken. destruct (contains truthFileId g) eqn:Hc; [|done].
    apply contains_spec in Hc. contradiction.
Qed.

Lemma matchInputFile_loop_no_match (files : list string) :
  matchInputFile_loop truthFile testDir files
  = raise Exception (no_match_message truthFile)
  <-> Forall (fun g => ~ occurs_in truthFileId g) files.
Proof using Htoken.
  induction files as [|g files IH]; cbn.
  - split; [constructor | done].
  - rewrite Htoken. destruct (contains truthFileId g) eqn:Hc.
    + apply contains_spec in Hc. split; [done|].
      intros HF. inversion HF; subst. contradiction.
    + rewrite IH. split.
      * intros HF. constructor; [|done].
        intros Ho. apply contains_spec in Ho. congruence.
      * intros HF. by inversion HF.
Qed.
End MatchInputFile.

(** Without a second token, the first turn of the loop raises. *)
Lemma matchInputFile_loop_no_token (truthFile testDir testFile : string)
    (files : list string) :
  split "_" truthFile !! 1%nat = None ->
  matchInputFile_loop truthFile testDir (testFile :: files)
  = raise IndexError "list index out of range".
Proof. intros Htoken. cbn. by rewrite Htoken. Qed.

(** C7, as amended: when the ground-truth filename has a second
    [_]-separated token, [matchInputFile] returns the path of the first
    candidate, in listing order, whose name contains that token, and it
    fails with the no-match error exactly when no candidate contains it. *)
Theorem matchInputFile_first_match (w : world)
    (truthFile testDir truthFileId : string) :
  split "_" truthFile !! 1%nat = Some truthFileId ->
  (forall pre f post,
      listdir w testDir = (pre ++ f :: post)%list ->
      occurs_in truthFileId f ->
      Forall (fun g => ~ occurs_in truthFileId g) pre ->
      matchInputFile w truthFile testDir = ret (path_join testDir f))
  /\ (matchInputFile w truthFile testDir
      = raise Exception (no_match_message truthFile)
      <-> Forall (fun g => ~ occurs_in truthFileId g) (listdir w testDir)).
Proof.
  intros Htoken. unfold matchInputFile. split.
  - intros pre f post -> Hf Hpre.
    by apply matchInputFile_loop_found with (truthFileId := truthFileId).
  - by apply matchInputFile_loop_no_match.
Qed.

Lemma matchInputFile_first_match_witness :
  split "_" "ISIC_0000007_Segmentation.png" !! 1%nat = Some "0000007"
  /\ ((forall pre f post,
         listdir (Examples.two_masks 0 255) "test" = (pre ++ f :: post)%list ->
         occurs_in "0000007" f ->
         Forall (fun g => ~ occurs_in "0000007" g) pre ->
         matchInputFile (Examples.two_masks 0 255)
           "ISIC_0000007_Segmentation.png" "test" = ret (path_join "test" f))
      /\ (matchInputFile (Examples.two_masks 0 255)
            "ISIC_0000007_Segmentation.png" "test"
          = raise Exception (no_match_message "ISIC_0000007_Segmentation.png")
          <-> Forall (fun g => ~ occurs_in "0000007" g)
                (listdir (Examples.two_masks 0 255) "test"))).
Proof.
  split; [reflexivity|].
  apply (matchInputFile_first_match (Examples.two_masks 0 255)
           "ISIC_0000007_Segmentation.png" "test" "0000007").
  reflexivity.
Defined.

(** C7, as stated, fails on a ground-truth filename without [_]: there is
    no second token, and with a non-empty listing the lookup of the token
    raises [IndexError], which is neither a candidate nor the no-match
    error. *)
Lemma matchInputFile_without_token :
  split "_" "README.txt" !! 1%nat = None
  /\ matchInputFile (Examples.two_masks 0 255) "README.txt" "test"
     = raise IndexError "list index out of range"
  /\ matchInputFile (Examples.two_masks 0 255) "README.txt" "test"
     <> raise Exception (no_match_message "README.txt").
Proof. split; [reflexivity | split; [reflexivity | discriminate]]. Qed.

(** ** Confusion counts *)

Lemma np_sum_cons (b : bool) (mask : list bool) :
  np_sum (b :: mask) = (if b then 1 else 0) + np_sum mask.
Proof. reflexivity. Qed.

Lemma np_sum_nonneg (mask : list bool) : 0 <= np_sum mask.
Proof.
  induction mask as [|b mask IH]; [done|].
  rewrite np_sum_cons. destruct b; lia.
Qed.

Lemma np_sum_le_length (mask : list bool) :
  np_sum mask <= Z.of_nat (length mask).
Proof.
  induction mask as [|b mask IH]; [done|].
  rewrite np_sum_cons. cbn [length]. destruct b; lia.
Qed.

Lemma confusion_cons (a b : bool) (t s : list bool) :
  confusion (a :: t) (b :: s)
  = mkConfusion
      ((if a && b then 1 else 0) + truePositive (confusion t s))
      ((if negb a && negb b then 1 else 0) + trueNegative (confusion t s))
      ((if negb a && b then 1 else 0) + falsePositive (confusion t s))
      ((if a && negb b then 1 else 0) + falseNegative (confusion t s)).
Proof. by destruct a, b. Qed.

Lemma confusion_total (t s : list bool) :
  length t = length s ->
  truePositive (confusion t s) + trueNegative (confusion t s)
  + falsePositive (confusion t s) + falseNegative (confusion t s)
  = Z.of_nat (length t).
Proof.
  revert s. induction t as [|a t IH]; intros [|b s] Hlen; try discriminate.
  - reflexivity.
  - injection Hlen as Hlen. specialize (IH s Hlen).
    rewrite confusion_cons.
    cbn [truePositive trueNegative falsePositive falseNegative length].
    destruct a, b; cbn [andb negb]; lia.
Qed.

(** Against itself a mask has no false positive and no false negative. *)
Lemma confusion_self (m : list bool) :
  confusion m m
  = mkConfusion (np_sum m) (Z.of_nat (length m) - np_sum m) 0 0.
Proof.
  induction m as [|a m IH]; [reflexivity|].
  rewrite confusion_cons, IH, np_sum_cons.
  cbn [truePositive trueNegative falsePositive falseNegative length].
  destruct a; cbn [andb negb]; f_equal; lia.
Qed.

Lemma length_greater (a : ndarray) (t : Z) :
  length (greater a t) = length (samples a).
Proof. unfold greater. apply length_map. Qed.

Lemma lookup_greater (a : ndarray) (t : Z) (i : nat) (v : Z) :
  samples a !! i = Some v -> greater a t !! i = Some (bool_decide (t < v)).
Proof.
  unfold greater. revert i. induction (samples a) as [|x l IH]; intros [|i] Hi;
    try discriminate; cbn in *.
  - injection Hi as ->. f_equal. destruct (Z.ltb_spec t v).
    + by rewrite bool_decide_eq_true_2.
    + rewrite bool_decide_eq_false_2; [done | lia].
  - by apply IH.
Qed.

Lemma np_sum_greater_pos (a : ndarray) (t v : Z) :
  In v (samples a) -> t < v -> 0 < np_sum (greater a t).
Proof.
  unfold greater. induction (samples a) as [|x l IH]; intros Hin Hv; [done|].
  cbn [map]. rewrite np_sum_cons.
  pose proof (np_sum_nonneg (map (fun x => t <? x) l)).
  destruct Hin as [->|Hin].
  - destruct (Z.ltb_spec t v); lia.
  - specialize (IH Hin Hv). destruct (t <? x); lia.
Qed.

Lemma np_sum_greater_lt_length (a : ndarray) (t v : Z) :
  In v (samples a) -> v <= t ->
  np_sum (greater a t) < Z.of_nat (length (samples a)).
Proof.
  unfold greater. induction (samples a) as [|x l IH]; intros Hin Hv; [done|].
  cbn [map length]. rewrite np_sum_cons.
  pose proof (np_sum_le_length (map (fun x => t <? x) l)) as Hle.
  rewrite length_map in Hle.
  destruct Hin as [->|Hin].
  - destruct (Z.ltb_spec t v); lia.
  - specialize (IH Hin Hv). destruct (t <? x); lia.
Qed.

Lemma shape_eqb_eq (s t : nat * nat) : shape_eqb s t = true <-> s = t.
Proof.
  destruct s as [a b], t as [c d]. unfold shape_eqb; cbn.
  rewrite andb_true_iff, !Nat.eqb_eq. split; [intros [-> ->]; done | by inversion 1].
Qed.

(** C6: for two grids of one shape, the four confusion counts that
    [scoreP1Image] computes from their binarizations are non-negative and
    add up to the number of samples of a grid. *)
Theorem confusion_counts_sum (truthImage testImage : ndarray) :
  wf_ndarray truthImage ->
  wf_ndarray testImage ->
  shape testImage = shape truthImage ->
  let c := confusion (greater truthImage 128) (greater testImage 128) in
  0 <= truePositive c /\ 0 <= trueNegative c
  /\ 0 <= falsePositive c /\ 0 <= falseNegative c
  /\ truePositive c + trueNegative c + falsePositive c + falseNegative c
     = Z.of_nat (fst (shape truthImage) * snd (shape truthImage)).
Proof.
  intros Hwt Hws Hshape c.
  repeat (split; [apply np_sum_nonneg|]).
  subst c. rewrite confusion_total.
  - by rewrite length_greater, Hwt.
  - rewrite !length_greater. unfold wf_ndarray in *. congruence.
Qed.

Lemma confusion_counts_sum_witness :
  wf_ndarray (Examples.grid_1x2 255 0)
  /\ wf_ndarray (Examples.grid_1x2 129 128)
  /\ shape (Examples.grid_1x2 129 128) = shape (Examples.grid_1x2 255 0)
  /\ (let c := confusion (greater (Examples.grid_1x2 255 0) 128)
                         (greater (Examples.grid_1x2 129 128) 128) in
      0 <= truePositive c /\ 0 <= trueNegative c
      /\ 0 <= falsePositive c /\ 0 <= falseNegative c
      /\ truePositive c + trueNegative c + falsePositive c + falseNegative c
         = Z.of_nat (fst (shape (Examples.grid_1x2 255 0))
                     * snd (shape (Examples.grid_1x2 255 0)))).
Proof.
  split; [reflexivity|]. split; [reflexivity|]. split; [reflexivity|].
  apply (confusion_counts_sum (Examples.grid_1x2 255 0)
           (Examples.grid_1x2 129 128)); reflexivity.
Defined.

(** ** scoreP1Image *)

(** C5: once both images are loaded, [scoreP1Image] fails with the
    dimension error when the shapes differ, and no metric is computed;
    when they agree, the metrics are those of the two masks in which a
    sample is positive exactly when its value exceeds 128. *)
Theorem scoreP1Image_shape_check_and_threshold (w : world)
    (truthPath testPath : string) (truthImage testImage : ndarray) :
  loadImage w truthPath = ret truthImage ->
  loadImage w testPath = ret testImage ->
  (shape testImage <> shape truthImage ->
   scoreP1Image w truthPath testPath
   = raise Exception
       (shape_message testPath (shape testImage) (shape truthImage)))
  /\ (shape testImage = shape truthImage ->
      exists truthMask testMask : list bool,
        scoreP1Image w truthPath testPath = maskMetrics truthMask testMask
        /\ length truthMask = length (samples truthImage)
        /\ length testMask = length (samples testImage)
        /\ (forall i v, samples truthImage !! i = Some v ->
                        truthMask !! i = Some (bool_decide (128 < v)))
        /\ (forall i v, samples testImage !! i = Some v ->
                        testMask !! i = Some (bool_decide (128 < v)))).
Proof.
  intros Ht Hs. unfold scoreP1Image. rewrite Ht, Hs. cbn. split.
  - intros Hne. destruct (shape_eqb (shape testImage) (shape truthImage)) eqn:He.
    + apply shape_eqb_eq in He. contradiction.
    + reflexivity.
  - intros Heq. exists (greater truthImage 128), (greater testImage 128).
    apply shape_eqb_eq in Heq. rewrite Heq. cbn.
    split; [reflexivity|].
    split; [apply length_greater|]. split; [apply length_greater|].
    split; intros i v; apply lookup_greater.
Qed.

Lemma scoreP1Image_shape_check_and_threshold_witness :
  loadImage (Examples.two_masks 0 255) "truth/a.png"
  = ret (Examples.grid_1x2 0 255)
  /\ loadImage (Examples.two_masks 0 255) "test/a.png"
     = ret (Examples.grid_1x2 0 255)
  /\ exists truthMask testMask : list bool,
       scoreP1Image (Examples.two_masks 0 255) "truth/a.png" "test/a.png"
       = maskMetrics truthMask testMask
       /\ truthMask !! 0%nat = Some false /\ truthMask !! 1%nat = Some true.
Proof.
  assert (Hl : forall p, loadImage (Examples.two_masks 0 255) p
                         = ret (Examples.grid_1x2 0 255)).
  { intros p. vm_compute. reflexivity. }
  split; [apply Hl|]. split; [apply Hl|].
  destruct (scoreP1Image_shape_check_and_threshold
              (Examples.two_masks 0 255) "truth/a.png" "test/a.png"
              (Examples.grid_1x2 0 255) (Examples.grid_1x2 0 255)
              (Hl _) (Hl _)) as [_ Hsame].
  destruct (Hsame eq_refl) as (tm & sm & Hscore & _ & _ & Htm & _).
  exists tm, sm. split; [exact Hscore|].
  split; [exact (Htm 0%nat 0 eq_refl) | exact (Htm 1%nat 255 eq_refl)].
Defined.

Lemma float_div_same (a b : Q) :
  (a == b)%Q -> ~ (b == 0)%Q -> float_div a b = ret (Finite 1).
Proof.
  intros Hab Hb. unfold float_div.
  destruct (Qeq_bool b 0) eqn:He.
  - apply Qeq_bool_iff in He. contradiction.
  - do 2 f_equal. change 1%Q with (Qred 1). apply Qred_complete.
    rewrite Hab. by apply Qmult_inv_r.
Qed.

Lemma maskMetrics_self (m : list bool) :
  0 < np_sum m -> np_sum m < Z.of_nat (length m) ->
  maskMetrics m m = ret all_metrics_one.
Proof.
  intros Hpos Hneg. unfold maskMetrics. rewrite confusion_self.
  cbn [truePositive trueNegative falsePositive falseNegative].
  set (tp := np_sum m) in *. set (n := Z.of_nat (length m)) in *.
  assert (Hnz : forall z, 0 < z -> ~ (inject_Z z == 0)%Q).
  { intros z Hz Heq. change 0%Q with (inject_Z 0) in Heq.
    apply (proj1 (inject_Z_injective z 0)) in Heq. lia. }
  assert (Hacc : float_div (inject_Z tp + inject_Z (n - tp))%Q
            (inject_Z tp + inject_Z (n - tp) + inject_Z 0 + inject_Z 0)%Q
          = ret (Finite 1)).
  { apply float_div_same.
    - change (inject_Z 0) with 0%Q. ring.
    - rewrite <- !inject_Z_plus. apply Hnz. lia. }
  assert (Hjac : float_div (inject_Z tp)
            (inject_Z tp + inject_Z 0 + inject_Z 0)%Q = ret (Finite 1)).
  { apply float_div_same.
    - change (inject_Z 0) with 0%Q. ring.
    - rewrite <- !inject_Z_plus. apply Hnz. lia. }
  assert (Hdice : float_div (2 * inject_Z tp)%Q (inject_Z tp + inject_Z tp)%Q
          = ret (Finite 1)).
  { apply float_div_same.
    - ring.
    - rewrite <- !inject_Z_plus. apply Hnz. lia. }
  assert (Hsens : float_div (inject_Z tp) (inject_Z tp + inject_Z 0)%Q
          = ret (Finite 1)).
  { apply float_div_same.
    - change (inject_Z 0) with 0%Q. ring.
    - rewrite <- !inject_Z_plus. apply Hnz. lia. }
  assert (Hspec : float_div (inject_Z (n - tp)) (inject_Z (n - tp) + inject_Z 0)%Q
          = ret (Finite 1)).
  { apply float_div_same.
    - change (inject_Z 0) with 0%Q. ring.
    - rewrite <- !inject_Z_plus. apply Hnz. lia. }
  rewrite Hacc. cbn. rewrite Hjac. cbn. rewrite Hdice. cbn.
  rewrite Hsens. cbn. rewrite Hspec. reflexivity.
Qed.

(** C3, as amended: a normalized grid that has at least one sample 255 and
    at least one sample 0, scored against itself, gives
    accuracy = jaccard = dice = sensitivity = specificity = 1.0. *)
Theorem scoreP1Image_identical_masks (w : world) (truthPath testPath : string)
    (grid : ndarray) :
  loadImage w truthPath = ret grid ->
  loadImage w testPath = ret grid ->
  normalized grid ->
  In 255 (samples grid) ->
  In 0 (samples grid) ->
  scoreP1Image w truthPath testPath = ret all_metrics_one.
Proof.
  intros Ht Hs _ H255 H0. unfold scoreP1Image. rewrite Ht, Hs. cbn.
  assert (He : shape_eqb (shape grid) (shape grid) = true) by by apply shape_eqb_eq.
  rewrite He. cbn. apply maskMetrics_self.
  - by apply np_sum_greater_pos with (v := 255).
  - rewrite length_greater. by apply np_sum_greater_lt_length with (v := 0).
Qed.

Lemma scoreP1Image_identical_masks_witness :
  loadImage (Examples.two_masks 0 255) "truth/a.png" = ret (Examples.grid_1x2 0 255)
  /\ loadImage (Examples.two_masks 0 255) "test/a.png" = ret (Examples.grid_1x2 0 255)
  /\ normalized (Examples.grid_1x2 0 255)
  /\ In 255 (samples (Examples.grid_1x2 0 255))
  /\ In 0 (samples (Examples.grid_1x2 0 255))
  /\ scoreP1Image (Examples.two_masks 0 255) "truth/a.png" "test/a.png"
     = ret all_metrics_one.
Proof.
  assert (Hl : forall p, loadImage (Examples.two_masks 0 255) p
                         = ret (Examples.grid_1x2 0 255)).
  { intros p. vm_compute. reflexivity. }
  assert (Hn : normalized (Examples.grid_1x2 0 255)).
  { repeat constructor; cbn; lia. }
  assert (H255 : In 255 (samples (Examples.grid_1x2 0 255))).
  { cbn. right. left. reflexivity. }
  assert (H0 : In 0 (samples (Examples.grid_1x2 0 255))).
  { cbn. left. reflexivity. }
  split; [apply Hl|]. split; [apply Hl|]. split; [exact Hn|].
  split; [exact H255|]. split; [exact H0|].
  exact (scoreP1Image_identical_masks (Examples.two_masks 0 255)
           "truth/a.png" "test/a.png" (Examples.grid_1x2 0 255)
           (Hl _) (Hl _) Hn H255 H0).
Defined.

(** C3, as stated, fails on a normalized grid without a positive sample:
    the all-zero grid scored against itself has accuracy 1.0, and the
    division for the next metric, 0.0 / 0.0, raises. *)
Lemma scoreP1Image_all_zero_mask :
  loadImage (Examples.two_masks 0 0) "truth/a.png" = ret (Examples.grid_1x2 0 0)
  /\ loadImage (Examples.two_masks 0 0) "test/a.png" = ret (Examples.grid_1x2 0 0)
  /\ scoreP1Image (Examples.two_masks 0 0) "truth/a.png" "test/a.png"
     = raise ZeroDivisionError "float division by zero"
  /\ scoreP1Image (Examples.two_masks 0 0) "truth/a.png" "test/a.png"
     <> ret all_metrics_one.
Proof.
  split; [by vm_compute|]. split; [by vm_compute|].
  split; [by vm_compute|]. by vm_compute.
Qed.

(** ** loadImage *)

Lemma elem_of_unique_values (a : ndarray) (x : Z) :
  x ∈ unique_values a <-> In x (samples a).
Proof.
  unfold unique_values. rewrite elem_of_list_to_set. apply list_elem_of_In.
Qed.

Lemma elem_of_pair (x a b : Z) : x ∈ ({[a; b]} : gset Z) <-> x = a \/ x = b.
Proof. by rewrite elem_of_union, !elem_of_singleton. Qed.

Lemma size_pair (x y : Z) : (size ({[x; y]} : gset Z) <= 2)%nat.
Proof.
  rewrite size_union_alt, size_singleton.
  assert (size (({[y]} : gset Z) ∖ {[x]}) <= size ({[y]} : gset Z))%nat
    by (by apply subseteq_size, subseteq_difference_l).
  rewrite size_singleton in *. lia.
Qed.

Lemma set_pop_singleton (choice : nat) (V : Z) :
  set_pop choice {[V]} = Some V.
Proof.
  unfold set_pop. rewrite size_singleton, elements_singleton.
  by rewrite Nat.mod_1_r.
Qed.

Section LoadImage.
Variables (w : world) (imagePath : string) (image : PILImage).
Hypothesis Hopen : Image_open w imagePath = Some image.
Hypothesis Hmode : mode image = "L".

(** An image whose values are among 0 and 255 is returned as decoded. *)
Lemma loadImage_accept :
  unique_values (np_array image) ⊆ {[0; 255]} ->
  loadImage w imagePath = ret (np_array image).
Proof using Hopen Hmode.
  intros Hsub. unfold loadImage. rewrite Hopen, Hmode. cbn.
  by rewrite bool_decide_eq_true_2.
Qed.

(** More than two distinct values: the value-domain error. *)
Lemma loadImage_reject :
  (2 < size (unique_values (np_array image)))%nat ->
  loadImage w imagePath = raise Exception (value_domain_message imagePath).
Proof using Hopen Hmode.
  intros Hsize. unfold loadImage. rewrite Hopen, Hmode. cbn.
  rewrite bool_decide_eq_false_2.
  - rewrite bool_decide_eq_false_2; [done | lia].
  - intros Hsub. apply subseteq_size in Hsub.
    pose proof (size_pair 0 255). lia.
Qed.

(** One non-zero value [V]: the samples become 0 and 255. *)
Lemma loadImage_rescale (V : Z) :
  ~ unique_values (np_array image) ⊆ {[0; 255]} ->
  unique_values (np_array image) ∖ {[0]} = {[V]} ->
  let rescaled :=
    mkArray (shape (np_array image))
            (map (fun x => x / V * 255) (samples (np_array image))) in
  loadImage w imagePath = ret rescaled
  /\ unique_values rescaled ⊆ {[0; 255]}.
Proof using Hopen Hmode.
  intros Hnot HV rescaled.
  assert (HVin : V ∈ unique_values (np_array image) /\ V <> 0).
  { assert (HVV : V ∈ unique_values (np_array image) ∖ {[0]}).
    { rewrite HV. by apply elem_of_singleton. }
    apply elem_of_difference in HVV as [Hin Hne]. split; [done|].
    intros ->. apply Hne. by apply elem_of_singleton. }
  assert (Hall : forall x, In x (samples (np_array image)) -> x = 0 \/ x = V).
  { intros x Hx. apply elem_of_unique_values in Hx.
    destruct (decide (x = 0)) as [|Hx0]; [by left | right].
    assert (Hin : x ∈ unique_values (np_array image) ∖ {[0]}).
    { apply elem_of_difference. split; [done|].
      intros Hx'. by apply elem_of_singleton in Hx'. }
    rewrite HV in Hin. by apply elem_of_singleton in Hin. }
  assert (Hres : unique_values rescaled ⊆ {[0; 255]}).
  { intros y Hy. apply elem_of_unique_values in Hy. cbn in Hy.
    apply in_map_iff in Hy as (x & <- & Hx). apply elem_of_pair.
    destruct (Hall x Hx) as [-> | ->].
    - rewrite Z.div_0_l by apply HVin. by left.
    - rewrite Z.div_same by apply HVin. by right. }
  split; [|done].
  unfold loadImage. rewrite Hopen, Hmode. cbn.
  rewrite bool_decide_eq_false_2 by done.
  rewrite bool_decide_eq_true_2.
  2:{ etransitivity; [|apply (size_pair 0 V)].
      apply subseteq_size. intros x Hx. apply elem_of_unique_values in Hx.
      apply elem_of_pair. by apply Hall. }
  rewrite HV, set_pop_singleton.
  assert (Heq : multiply_uint8 (floor_divide (np_array image) V) 255 = rescaled).
  { unfold multiply_uint8, floor_divide, rescaled. cbn. f_equal.
    rewrite map_map. apply map_ext_in. intros x Hx.
    destruct (Hall x Hx) as [-> | ->].
    - by rewrite Z.div_0_l by apply HVin.
    - by rewrite Z.div_same by apply HVin. }
  rewrite Heq. rewrite bool_decide_eq_false_2; [done|].
  intros [_ Hstrict]. apply Hstrict. rewrite <- Heq in Hres. exact Hres.
Qed.
End LoadImage.

(** C1: for a decoded single-channel image, [loadImage] returns the grid
    unchanged when its values are among 0 and 255; otherwise, when there is
    exactly one non-zero value [V], it divides every sample by [V],
    multiplies it by 255 and checks the outcome against the value domain;
    and it fails with the value-domain error when the grid has more than
    two distinct values. *)
Theorem loadImage_normalization_policy (w : world) (imagePath : string)
    (image : PILImage) :
  Image_open w imagePath = Some image ->
  mode image = "L" ->
  let grid := np_array image in
  (unique_values grid ⊆ {[0; 255]} -> loadImage w imagePath = ret grid)
  /\ (forall V : Z,
        ~ unique_values grid ⊆ {[0; 255]} ->
        unique_values grid ∖ {[0]} = {[V]} ->
        let rescaled :=
          mkArray (shape grid) (map (fun x => x / V * 255) (samples grid)) in
        loadImage w imagePath
        = if bool_decide (unique_values rescaled ⊆ {[0; 255]})
          then ret rescaled
          else raise Exception (value_domain_message imagePath))
  /\ ((2 < size (unique_values grid))%nat ->
      loadImage w imagePath = raise Exception (value_domain_message imagePath)).
Proof.
  intros Hopen Hmode grid. split; [|split].
  - by apply loadImage_accept.
  - intros V Hnot HV rescaled.
    destruct (loadImage_rescale w imagePath image Hopen Hmode V Hnot HV)
      as [Hload Hsub].
    fold grid in Hload, Hsub. fold rescaled in Hload, Hsub.
    by rewrite bool_decide_eq_true_2.
  - by apply loadImage_reject.
Qed.

(** C9: an image all of whose samples are 0 or 255 is returned by
    [loadImage] as it was decoded, every sample unchanged. *)
Theorem loadImage_identity (w : world) (imagePath : string)
    (image : PILImage) :
  Image_open w imagePath = Some image ->
  mode image = "L" ->
  normalized (np_array image) ->
  loadImage w imagePath = ret (np_array image).
Proof.
  intros Hopen Hmode Hnorm. apply loadImage_accept; [done..|].
  intros x Hx. apply elem_of_unique_values in Hx.
  unfold normalized in Hnorm. rewrite Forall_forall in Hnorm.
  apply elem_of_pair, Hnorm. by apply list_elem_of_In.
Qed.

Lemma loadImage_normalization_policy_witness :
  Image_open (Examples.two_masks 0 7) "truth/a.png"
  = Some (mkImage "L" (Examples.grid_1x2 0 7))
  /\ mode (mkImage "L" (Examples.grid_1x2 0 7)) = "L"
  /\ ~ unique_values (Examples.grid_1x2 0 7) ⊆ {[0; 255]}
  /\ unique_values (Examples.grid_1x2 0 7) ∖ {[0]} = {[7]}
  /\ loadImage (Examples.two_masks 0 7) "truth/a.png"
     = ret (Examples.grid_1x2 0 255).
Proof.
  assert (Hnot : ~ unique_values (Examples.grid_1x2 0 7) ⊆ {[0; 255]}).
  { apply (bool_decide_unpack _). vm_compute. exact I. }
  assert (HV : unique_values (Examples.grid_1x2 0 7) ∖ {[0]} = {[7]}).
  { apply (bool_decide_unpack _). vm_compute. exact I. }
  split; [reflexivity|]. split; [reflexivity|].
  split; [exact Hnot|]. split; [exact HV|].
  destruct (loadImage_normalization_policy (Examples.two_masks 0 7)
              "truth/a.png" (mkImage "L" (Examples.grid_1x2 0 7))
              eq_refl eq_refl) as (_ & Hrescale & _).
  rewrite (Hrescale 7 Hnot HV). vm_compute. reflexivity.
Defined.

Lemma loadImage_identity_witness :
  Image_open (Examples.two_masks 0 255) "truth/a.png"
  = Some (mkImage "L" (Examples.grid_1x2 0 255))
  /\ mode (mkImage "L" (Examples.grid_1x2 0 255)) = "L"
  /\ normalized (Examples.grid_1x2 0 255)
  /\ loadImage (Examples.two_masks 0 255) "truth/a.png"
     = ret (Examples.grid_1x2 0 255).
Proof.
  assert (Hn : normalized (Examples.grid_1x2 0 255)).
  { repeat constructor; cbn; lia. }
  split; [reflexivity|]. split; [reflexivity|]. split; [exact Hn|].
  exact (loadImage_identity (Examples.two_masks 0 255) "truth/a.png"
           (mkImage "L" (Examples.grid_1x2 0 255)) eq_refl eq_refl Hn).
Defined.

(** With two distinct non-zero values, a case the policy leaves open, the
    check after the rescaling never fails: [>] asks for a proper superset
    of {0, 255}, and the rescaled grid has at most two values. *)
Example loadImage_two_nonzero_values :
  loadImage (Examples.two_masks 100 200) "truth/a.png"
  = ret (Examples.grid_1x2 255 254).
Proof. by vm_compute. Qed.

(** ** pandas frames *)

Lemma pyfloat_eqb_sym (x y : pyfloat) : pyfloat_eqb x y = pyfloat_eqb y x.
Proof.
  destruct x as [| | |p], y as [| | |q]; try reflexivity. cbn.
  destruct (Qeq_bool p q) eqn:E1, (Qeq_bool q p) eqn:E2; try reflexivity.
  - apply Qeq_bool_iff in E1. symmetry in E1. apply Qeq_bool_iff in E1. congruence.
  - apply Qeq_bool_iff in E2. symmetry in E2. apply Qeq_bool_iff in E2. congruence.
Qed.

Lemma cell_eqb_sym (a b : cell) : cell_eqb a b = cell_eqb b a.
Proof.
  destruct a, b; try reflexivity; cbn.
  - apply pyfloat_eqb_sym.
  - apply Z.eqb_sym.
  - apply String.eqb_sym.
  - by destruct b0, b.
Qed.

Lemma mem_cell_false (c : cell) (l : list cell) (i : nat) (b : cell) :
  mem_cell c l = false -> l !! i = Some b -> cell_eqb c b = false.
Proof.
  revert i. induction l as [|x l IH]; intros [|i] Hm Hi; try discriminate;
    cbn in Hm; apply orb_false_iff in Hm as [Hx Hl].
  - injection Hi as <-. exact Hx.
  - by apply IH with (i := i).
Qed.

(** An index without a repeated label has unique labels. *)
Lemma duplicated_nil_unique (l : list cell) :
  duplicated l = [] -> unique_labels l.
Proof.
  induction l as [|x l IH]; intros Hd i j a b Hi Hj Hab.
  - destruct i; discriminate.
  - cbn in Hd. destruct (mem_cell x l) eqn:Hm; [discriminate|].
    destruct i as [|i], j as [|j]; [done| | |].
    + injection Hi as <-. cbn in Hj.
      by rewrite (mem_cell_false _ _ _ _ Hm Hj) in Hab.
    + injection Hj as <-. cbn in Hi. rewrite cell_eqb_sym in Hab.
      by rewrite (mem_cell_false _ _ _ _ Hm Hi) in Hab.
    + f_equal. by apply (IH Hd i j a b).
Qed.

Lemma length_zero_nil {A} (l : list A) :
  negb (Nat.eqb (length l) 0) = false -> l = [].
Proof. by destruct l. Qed.

Lemma map_fst_filter_nil {A B} (test : A * B -> bool) (l : list (A * B)) :
  map fst (List.filter test l) = [] -> forall x, In x l -> test x = false.
Proof.
  induction l as [|y l IH]; intros Hnil x Hx; [done|].
  cbn in Hnil. destruct (test y) eqn:Hy; [discriminate|].
  destruct Hx as [<-|Hx]; [done | by apply IH].
Qed.

Lemma index_where_any_nil (test : cell -> bool) (df : DataFrame) :
  index_where_any test df = [] ->
  forall r, In r (rows df) -> forall c, In c (snd r) -> test c = false.
Proof.
  intros Hnil r Hr c Hc. unfold index_where_any in Hnil.
  pose proof (map_fst_filter_nil _ _ Hnil r Hr) as Hex. cbn in Hex.
  destruct (test c) eqn:Htest; [|done].
  assert (existsb test (snd r) = true); [|congruence].
  apply existsb_exists. by exists c.
Qed.

Lemma nth_remove_nth {A} (i j : nat) (l : list A) (d : A) :
  nth j (remove_nth i l) d = nth (if (j <? i)%nat then j else S j) l d.
Proof.
  revert i j. induction l as [|x l IH]; intros i j.
  - assert (Hn : forall n, nth n (@nil A) d = d) by (by intros []).
    destruct i; cbn [remove_nth]; by rewrite !Hn.
  - destruct i as [|i]; [by destruct j|].
    destruct j as [|j]; [done|]. cbn [remove_nth nth]. rewrite IH.
    change (S j <? S i)%nat with (j <? i)%nat. by destruct (j <? i)%nat.
Qed.

Lemma row_has_dtypes_typed (r : list cell) (ds : list dtype) :
  row_has_dtypes r ds = true -> row_typed r ds.
Proof.
  revert ds. induction r as [|c r IH]; intros [|d ds] Hr j; try discriminate.
  - by destruct j.
  - cbn in Hr. apply andb_true_iff in Hr as [Hc Hr].
    destruct j as [|j]; [exact Hc|]. exact (IH ds Hr j).
Qed.

Lemma row_typed_remove_nth (i : nat) (r : list cell) (ds : list dtype) :
  row_typed r ds -> row_typed (remove_nth i r) (remove_nth i ds).
Proof. intros Hr j. rewrite !nth_remove_nth. apply Hr. Qed.

Lemma position_Some_nth (s : string) (l : list string) (i : nat) :
  position s l = Some i -> (i < length l)%nat /\ nth i l "" = s.
Proof.
  revert i. induction l as [|x l IH]; intros i Hp; [discriminate|].
  cbn in Hp. destruct (String.eqb s x) eqn:Hsx.
  - injection Hp as <-. apply String.eqb_eq in Hsx. cbn. split; [lia | done].
  - destruct (position s l) as [k|]; [|discriminate].
    injection Hp as <-. destruct (IH k eq_refl) as [Hlt Hn].
    cbn. split; [lia | done].
Qed.

Lemma position_mem (s : string) (l : list string) :
  mem_str s l = true -> exists i, position s l = Some i.
Proof.
  induction l as [|x l IH]; intros Hm; [discriminate|].
  cbn in *. destruct (String.eqb s x); [by exists O|].
  destruct (IH Hm) as [i ->]. by exists (S i).
Qed.

(** Taking the column at [i] away moves the later columns one place to the
    left. *)
Lemma position_remove_nth (a b : string) (l : list string) (i j : nat) :
  position a l = Some i -> position b l = Some j -> a <> b ->
  exists j', position b (remove_nth i l) = Some j'
             /\ (if (j' <? i)%nat then j' else S j') = j.
Proof.
  revert i j. induction l as [|x l IH]; intros i j Ha Hb Hab; [discriminate|].
  cbn in Ha, Hb.
  destruct (String.eqb a x) eqn:Hax, (String.eqb b x) eqn:Hbx.
  - apply String.eqb_eq in Hax, Hbx. congruence.
  - injection Ha as <-. destruct (position b l) as [k|] eqn:Hpb; [|discriminate].
    injection Hb as <-. exists k. split; [exact Hpb|]. by destruct k.
  - injection Hb as <-. destruct (position a l) as [k|]; [|discriminate].
    injection Ha as <-. exists O. cbn. by rewrite Hbx.
  - destruct (position a l) as [k|]; [|discriminate].
    destruct (position b l) as [m|]; [|discriminate].
    injection Ha as <-. injection Hb as <-.
    destruct (IH k m eq_refl eq_refl Hab) as (j0 & Hp & Hidx).
    exists (S j0). cbn [remove_nth position]. rewrite Hbx, Hp.
    split; [reflexivity|].
    change (S j0 <? S k)%nat with (j0 <? k)%nat.
    destruct (j0 <? k)%nat; by rewrite Hidx.
Qed.

Lemma unique_str_nil (l : list string) : unique_str l = [] -> l = [].
Proof.
  induction l as [|x l IH]; [done|]. cbn.
  destruct (mem_str x l) eqn:Hm; [|discriminate].
  intros Hu. rewrite (IH Hu) in Hm. discriminate.
Qed.

Lemma sorted_nil (l : list string) : sorted l = [] -> l = [].
Proof.
  intros Hs. pose proof (sorted_perm l) as Hp. rewrite Hs in Hp.
  by apply Permutation_nil_r in Hp.
Qed.

(** An empty difference: every name of [a] is in [b]. *)
Lemma difference_str_nil (a b : list string) :
  difference_str a b = [] -> forall x, In x a -> mem_str x b = true.
Proof.
  unfold difference_str. intros Hd x Hx.
  apply sorted_nil, unique_str_nil in Hd.
  destruct (mem_str x b) eqn:Hm; [done|].
  assert (Hin : In x (List.filter (fun x => negb (mem_str x b)) a)).
  { apply filter_In. by rewrite Hm. }
  rewrite Hd in Hin. destruct Hin.
Qed.

(** ** parseCsv *)

Section ParseCsv.
Context `{FloatRepr}.

Lemma set_index_ret (df df' : DataFrame) (name : string) :
  set_index df name = ret df' ->
  exists i,
    position name (columns df) = Some i
    /\ duplicated (map (fun r => nth i (snd r) (CFloat NaN)) (rows df)) = []
    /\ df' = mkFrame (remove_nth i (columns df)) (remove_nth i (dtypes df))
               (map (fun r => (nth i (snd r) (CFloat NaN),
                               remove_nth i (snd r))) (rows df)).
Proof.
  unfold set_index. intros Hs.
  destruct (position name (columns df)) as [i|]; [|discriminate].
  exists i. split; [done|].
  destruct (duplicated _); [|discriminate].
  split; [done|]. by injection Hs.
Qed.

(** What a successful [parseCsv] went through. *)
Lemma parseCsv_ret (csv table : DataFrame) :
  parseCsv csv = ret table ->
  exists indexed,
    set_index csv "image" = ret indexed
    /\ difference_str CATEGORIES (columns indexed) = []
    /\ difference_str (columns indexed) CATEGORIES = []
    /\ table = reindex_columns indexed CATEGORIES
    /\ index_where_any is_null table = []
    /\ List.filter (fun cd => negb (dtype_eqb (snd cd) float64))
         (combine (columns table) (dtypes table)) = []
    /\ index_where_any out_of_range table = [].
Proof.
  unfold parseCsv. intros Hp.
  destruct (negb (mem_str "image" (columns csv))); [discriminate|].
  destruct (set_index csv "image") as [e|indexed]; [discriminate|].
  cbv beta iota delta [mbind result_bind] in Hp. exists indexed. split; [done|].
  destruct (negb (length (difference_str CATEGORIES (columns indexed)) =? 0)%nat)
    eqn:Hmissing; [discriminate|].
  apply length_zero_nil in Hmissing. split; [done|].
  destruct (negb (length (difference_str (columns indexed) CATEGORIES) =? 0)%nat)
    eqn:Hextra; [discriminate|].
  apply length_zero_nil in Hextra. split; [done|].
  set (t := reindex_columns indexed CATEGORIES) in *.
  destruct (negb (length (index_where_any is_null t) =? 0)%nat)
    eqn:Hnull; [discriminate|].
  apply length_zero_nil in Hnull.
  destruct (negb (length (map fst (List.filter _ (combine (columns t) (dtypes t)))) =? 0)%nat)
    eqn:Hfloat; [discriminate|].
  apply length_zero_nil in Hfloat.
  destruct (negb (length (index_where_any out_of_range t) =? 0)%nat)
    eqn:Hrange; [discriminate|].
  apply length_zero_nil in Hrange.
  injection Hp as <-. split; [done|]. split; [done|].
  split; [|done]. by apply map_eq_nil in Hfloat.
Qed.
End ParseCsv.

Lemma filter_combine_map_nil {A B} (test : B -> bool) (g : A -> B)
    (l : list A) :
  List.filter (fun cd => test (snd cd)) (combine l (map g l)) = [] ->
  forall x, In x l -> test (g x) = false.
Proof.
  induction l as [|y l IH]; intros Hnil x Hx; [done|].
  cbn in Hnil. destruct (test (g y)) eqn:Hy; [discriminate|].
  destruct Hx as [<-|Hx]; [done | by apply IH].
Qed.

Lemma nth_map_position {B} (g : string -> B) (d : B) (name : string)
    (l : list string) (k : nat) :
  position name l = Some k -> nth k (map g l) d = g name.
Proof.
  revert k. induction l as [|x l IH]; intros k Hp; [discriminate|].
  cbn in Hp. destruct (String.eqb name x) eqn:Hx.
  - injection Hp as <-. apply String.eqb_eq in Hx. by subst.
  - destruct (position name l) as [m|]; [|discriminate].
    injection Hp as <-. cbn. by apply IH.
Qed.

Lemma mem_str_remove_nth (b : string) (i : nat) (l : list string) :
  mem_str b (remove_nth i l) = true -> mem_str b l = true.
Proof.
  unfold mem_str. revert i.
  induction l as [|x l IH]; intros i Hm; [by destruct i|].
  destruct i as [|i]; cbn in *.
  - rewrite Hm. apply orb_true_r.
  - apply orb_true_iff in Hm as [Hx|Hm]; [by rewrite Hx|].
    rewrite (IH i Hm). apply orb_true_r.
Qed.

Lemma dtype_eqb_eq (a b : dtype) : dtype_eqb a b = true -> a = b.
Proof. by destruct a, b. Qed.

(** A cell of a [float64] column that is present and within the range is a
    probability. *)
Lemma probability_of_checks (c : cell) :
  cell_has_dtype c float64 = true ->
  is_null c = false ->
  out_of_range c = false ->
  probability c.
Proof.
  intros Ht Hn Hr. destruct c as [x| | |]; try discriminate.
  destruct x as [| | |q]; try discriminate.
  exists q. split; [done|].
  cbn in Hr. apply orb_false_iff in Hr as [H0 H1].
  apply negb_false_iff, Qle_bool_iff in H0, H1. done.
Qed.

Lemma category_not_image (category : string) :
  In category CATEGORIES -> "image" <> category.
Proof.
  intros Hin Heq. subst category. cbn in Hin.
  repeat (destruct Hin as [Hin|Hin]; [discriminate|]). done.
Qed.

(** C2: the table that [parseCsv] returns has exactly the seven category
    columns, in the canonical order and each holding the cells the CSV has
    under that name, whatever the order of the CSV's columns; every cell is
    a floating-point value in [0.0, 1.0], none is missing, and no row key
    occurs twice. *)
Theorem parseCsv_probability_table `{FloatRepr} (csv table : DataFrame) :
  wf_frame csv = true ->
  parseCsv csv = ret table ->
  ProbabilityTable table
  /\ forall category, In category CATEGORIES ->
       exists cells, column_values csv category = Some cells
                     /\ column_values table category = Some cells.
Proof.
  intros Hwf Hparse.
  destruct (parseCsv_ret csv table Hparse)
    as (indexed & Hset & Hmissing & _ & Htable & Hnull & Hfloat & Hrange).
  destruct (set_index_ret csv indexed "image" Hset) as (i & Hpos & Hdup & Hindexed).
  unfold wf_frame in Hwf. apply andb_true_iff in Hwf as [_ Hrows].
  rewrite forallb_forall in Hrows.
  assert (Hdtypes : forall name, In name CATEGORIES ->
                      pick indexed (dtypes indexed) float64 name = float64).
  { intros name Hname. apply dtype_eqb_eq, negb_false_iff.
    rewrite Htable in Hfloat. cbn [columns dtypes reindex_columns] in Hfloat.
    by apply (filter_combine_map_nil
                (fun d => negb (dtype_eqb d float64))
                (pick indexed (dtypes indexed) float64) CATEGORIES Hfloat). }
  assert (Htyped : forall r, In r (rows indexed) ->
                     row_typed (snd r) (dtypes indexed)).
  { intros r Hr. rewrite Hindexed in Hr |- *. cbn [rows dtypes] in *.
    apply in_map_iff in Hr as (r0 & <- & Hr0). cbn [snd].
    apply row_typed_remove_nth, row_has_dtypes_typed. by apply Hrows. }
  split; [split; [|split; [|split; [|split]]]|].
  - by rewrite Htable.
  - rewrite Htable. cbn [dtypes reindex_columns].
    apply List.Forall_forall. intros d Hd.
    apply in_map_iff in Hd as (name & <- & Hname). by apply Hdtypes.
  - rewrite Htable. cbn [dtypes reindex_columns]. apply length_map.
  - apply List.Forall_forall. intros r Hr.
    pose proof (index_where_any_nil _ _ Hnull r Hr) as Hnull_r.
    pose proof (index_where_any_nil _ _ Hrange r Hr) as Hrange_r.
    rewrite Htable in Hr. cbn [rows reindex_columns] in Hr.
    apply in_map_iff in Hr as (r1 & <- & Hr1). cbn [snd] in *.
    split; [apply length_map|].
    apply List.Forall_forall. intros c Hc.
    apply probability_of_checks; [|by apply Hnull_r | by apply Hrange_r].
    apply in_map_iff in Hc as (name & <- & Hname).
    rewrite <- (Hdtypes name Hname). unfold pick.
    destruct (position name (columns indexed)) as [j|]; [|done].
    by apply Htyped.
  - apply duplicated_nil_unique.
    rewrite Htable, Hindexed. unfold index. cbn [rows reindex_columns].
    rewrite !map_map. cbn [fst]. exact Hdup.
  - intros category Hcat.
    assert (Hin : mem_str category (columns indexed) = true)
      by by apply (difference_str_nil _ _ Hmissing).
    assert (Hcsv : mem_str category (columns csv) = true).
    { rewrite Hindexed in Hin. by apply mem_str_remove_nth in Hin. }
    apply position_mem in Hcsv as [j Hj].
    destruct (position_remove_nth "image" category (columns csv) i j Hpos Hj
                (category_not_image category Hcat)) as (j' & Hj' & Hshift).
    apply position_mem in Hin as [k Hk].
    exists (map (fun r => nth j (snd r) (CFloat NaN)) (rows csv)).
    unfold column_values. rewrite Hj. split; [done|].
    assert (Hc : exists k0, position category CATEGORIES = Some k0).
    { apply position_mem. unfold mem_str. apply existsb_exists.
      exists category. split; [done | apply String.eqb_refl]. }
    destruct Hc as [k0 Hk0]. rewrite Htable. cbn [columns rows reindex_columns].
    rewrite Hk0. f_equal. rewrite map_map. cbn [snd].
    rewrite Hindexed. cbn [rows]. rewrite map_map. apply map_ext. intros r.
    rewrite (nth_map_position _ _ category CATEGORIES k0 Hk0).
    unfold pick. cbn [columns snd]. rewrite Hj', nth_remove_nth. by rewrite Hshift.
Qed.

Lemma parseCsv_probability_table_witness :
  wf_frame ExampleFrames.two_images = true
  /\ (exists table,
        parseCsv ExampleFrames.two_images = ret table
        /\ ProbabilityTable table
        /\ column_values table "MEL"
           = Some [CFloat (Finite 0); CFloat (Finite (3 # 4))]).
Proof.
  split; [reflexivity|].
  destruct (parseCsv ExampleFrames.two_images) as [e|table] eqn:Hparse;
    [vm_compute in Hparse; discriminate|].
  exists table. split; [reflexivity|].
  destruct (parseCsv_probability_table ExampleFrames.two_images table
              eq_refl Hparse) as [Hinv Hcols].
  split; [exact Hinv|].
  destruct (Hcols "MEL") as (cells & Hcsv & Htable).
  { cbn. left. reflexivity. }
  rewrite Htable, <- Hcsv. reflexivity.
Defined.

(** ** Exception classes *)

(** C8 fails on a table with a repeated identifier: [parseCsv] does fail,
    but with the [ValueError] of [set_index], which is not a
    [ScoreException], the class of every other failure of [parseCsv]. *)
Theorem parseCsv_duplicate_keys_ValueError :
  wf_frame ExampleFrames.repeated_image = true
  /\ parseCsv ExampleFrames.repeated_image
     = raise ValueError "Index has duplicate keys: ['ISIC_0000001']"
  /\ isinstance (mkExn ValueError "Index has duplicate keys: ['ISIC_0000001']")
       ScoreException = false.
Proof. split; [reflexivity | split; [by vm_compute | reflexivity]]. Qed.


(** The failures of [loadImage] are of class [Exception]. *)
Lemma loadImage_error_class (w : world) (imagePath : string) (e : exn) :
  loadImage w imagePath = inl e -> exn_cls e = Exception.
Proof.
  unfold loadImage. intros Hl.
  destruct (Image_open w imagePath) as [image|]; [|by injection Hl as <-].
  destruct (negb _); [by injection Hl as <-|].
  destruct (bool_decide (unique_values (np_array image) ⊆ {[0; 255]})) eqn:Hsub;
    [discriminate|].
  destruct (bool_decide (size (unique_values (np_array image)) ≤ 2)%nat);
    [|by injection Hl as <-].
  destruct (set_pop _ _) as [highValue|] eqn:Hpop.
  - match type of Hl with
    | (if ?c then _ else _) = _ => destruct c
    end; [by injection Hl as <- | discriminate].
  - exfalso. apply bool_decide_eq_false_1 in Hsub.
    unfold set_pop in Hpop. apply lookup_ge_None_1 in Hpop.
    set (s := unique_values (np_array image) ∖ {[0]}) in *.
    assert (Hne : s <> ∅).
    { intros Hempty. apply Hsub. intros x Hx. apply elem_of_pair.
      destruct (decide (x = 0)) as [->|Hx0]; [by left|].
      assert (Hxs : x ∈ s).
      { apply elem_of_difference. split; [done|].
        intros Hx'. by apply elem_of_singleton in Hx'. }
      rewrite Hempty in Hxs. by apply elem_of_empty in Hxs. }
    assert (Hsize : size s <> O).
    { apply size_non_empty_iff. intros Hequiv. apply Hne.
      by apply leibniz_equiv. }
    change (length (elements s)) with (size s) in Hpop.
    pose proof (Nat.mod_upper_bound (pop_choice w) (size s) Hsize). lia.
Qed.

(** ** The error monad *)

Lemma bind_ret_inv {A B} (m : result A) (k : A -> result B) (b : B) :
  m ≫= k = ret b -> exists a, m = ret a /\ k a = ret b.
Proof. destruct m as [e|a]; [discriminate|]. intros Hk. by exists a. Qed.

Lemma mapM_result_ret_map {A B C} (f : A -> result B) (h : B -> C)
    (g : A -> C) (l : list A) (bs : list B) :
  (forall a b, f a = ret b -> h b = g a) ->
  mapM_result f l = ret bs -> map h bs = map g l.
Proof.
  intros Hf. revert bs. induction l as [|a l IH]; intros bs Hm.
  - by injection Hm as <-.
  - cbn [mapM_result] in Hm.
    apply bind_ret_inv in Hm as (b & Hb & Hm).
    apply bind_ret_inv in Hm as (bs' & Hbs & Hm).
    injection Hm as <-. cbn. by rewrite (Hf a b Hb), (IH bs' Hbs).
Qed.

Lemma mapM_result_ret_Forall {A B} (f : A -> result B) (P : B -> Prop)
    (l : list A) (bs : list B) :
  (forall a b, f a = ret b -> P b) ->
  mapM_result f l = ret bs -> Forall P bs.
Proof.
  intros Hf. revert bs. induction l as [|a l IH]; intros bs Hm.
  - injection Hm as <-. constructor.
  - cbn [mapM_result] in Hm.
    apply bind_ret_inv in Hm as (b & Hb & Hm).
    apply bind_ret_inv in Hm as (bs' & Hbs & Hm).
    injection Hm as <-. constructor; [by apply (Hf a) | by apply IH].
Qed.

(** ** computeMetrics *)

Lemma excludeRows_other_rows (df : DataFrame) :
  excludeRows df EXCLUDE_LABELS = mkFrame (columns df) (dtypes df) (other_rows df).
Proof.
  unfold excludeRows, drop_index, other_rows. f_equal.
  apply filter_ext. intros r. cbn. by rewrite orb_false_r.
Qed.

(** The columns and column types of a table that [parseCsv] returned. *)
Lemma parseCsv_schema `{FloatRepr} (csv table : DataFrame) :
  parseCsv csv = ret table ->
  columns table = CATEGORIES
  /\ dtypes table = map (fun _ => float64) CATEGORIES.
Proof.
  intros Hparse.
  destruct (parseCsv_ret csv table Hparse)
    as (indexed & _ & _ & _ & Htable & _ & Hfloat & _).
  rewrite Htable in Hfloat |- *. cbn [columns dtypes reindex_columns] in *.
  split; [done|]. apply map_ext_in. intros name Hname.
  apply dtype_eqb_eq, negb_false_iff.
  by apply (filter_combine_map_nil
              (fun d => negb (dtype_eqb d float64))
              (pick indexed (dtypes indexed) float64) CATEGORIES Hfloat).
Qed.

Lemma excludeRows_agree `{FloatRepr} (csv1 csv2 a b : DataFrame) :
  parseCsv csv1 = ret a ->
  parseCsv csv2 = ret b ->
  agree_elsewhere a b ->
  excludeRows a EXCLUDE_LABELS = excludeRows b EXCLUDE_LABELS.
Proof.
  intros Ha Hb Hr. rewrite !excludeRows_other_rows.
  destruct (parseCsv_schema csv1 a Ha) as [-> ->].
  destruct (parseCsv_schema csv2 b Hb) as [-> ->].
  by rewrite Hr.
Qed.

(** C10: when the parsed truth tables agree on all rows whose identifier is
    not ISIC_0035068, and so do the parsed prediction tables,
    [computeMetrics] gives the same score list, or raises the same error,
    on both pairs. *)
Theorem computeMetrics_ignores_excluded `{FloatRepr} `{MetricsModule}
    (truthCsv1 predictionCsv1 truthCsv2 predictionCsv2 : DataFrame)
    (truth1 prediction1 truth2 prediction2 : DataFrame) :
  parseCsv truthCsv1 = ret truth1 ->
  parseCsv predictionCsv1 = ret prediction1 ->
  parseCsv truthCsv2 = ret truth2 ->
  parseCsv predictionCsv2 = ret prediction2 ->
  agree_elsewhere truth1 truth2 ->
  agree_elsewhere prediction1 prediction2 ->
  computeMetrics truthCsv1 predictionCsv1
  = computeMetrics truthCsv2 predictionCsv2.
Proof.
  intros Ht1 Hp1 Ht2 Hp2 Ht Hp. unfold computeMetrics.
  rewrite Ht1, Hp1, Ht2, Hp2.
  cbv beta iota delta [mbind result_bind ret]. unfold computeMetricsParsed.
  by rewrite (excludeRows_agree _ _ truth1 truth2 Ht1 Ht2 Ht),
             (excludeRows_agree _ _ prediction1 prediction2 Hp1 Hp2 Hp).
Qed.

Lemma computeMetrics_ignores_excluded_witness :
  exists truth1 prediction1 truth2 prediction2,
    parseCsv (ExampleFrames.with_excluded 1 0) = ret truth1
    /\ parseCsv ExampleFrames.two_images = ret prediction1
    /\ parseCsv ExampleFrames.two_images = ret truth2
    /\ parseCsv (ExampleFrames.with_excluded (1 # 2) (1 # 2)) = ret prediction2
    /\ agree_elsewhere truth1 truth2
    /\ agree_elsewhere prediction1 prediction2
    /\ computeMetrics (ExampleFrames.with_excluded 1 0) ExampleFrames.two_images
       = computeMetrics ExampleFrames.two_images
           (ExampleFrames.with_excluded (1 # 2) (1 # 2)).
Proof.
  destruct (parseCsv (ExampleFrames.with_excluded 1 0)) as [e|truth1] eqn:Ht1;
    [vm_compute in Ht1; discriminate|].
  destruct (parseCsv ExampleFrames.two_images) as [e|table] eqn:Ht2;
    [vm_compute in Ht2; discriminate|].
  destruct (parseCsv (ExampleFrames.with_excluded (1 # 2) (1 # 2)))
    as [e|prediction2] eqn:Hp2; [vm_compute in Hp2; discriminate|].
  assert (Ht : agree_elsewhere truth1 table).
  { vm_compute in Ht1, Ht2. injection Ht1 as <-. injection Ht2 as <-.
    reflexivity. }
  assert (Hp : agree_elsewhere table prediction2).
  { vm_compute in Hp2, Ht2. injection Hp2 as <-. injection Ht2 as <-.
    reflexivity. }
  exists truth1, table, table, prediction2.
  split; [reflexivity|]. split; [reflexivity|]. split; [reflexivity|].
  split; [reflexivity|]. split; [exact Ht|]. split; [exact Hp|].
  exact (computeMetrics_ignores_excluded
           (ExampleFrames.with_excluded 1 0) ExampleFrames.two_images
           ExampleFrames.two_images (ExampleFrames.with_excluded (1 # 2) (1 # 2))
           truth1 table table prediction2 Ht1 Ht2 Ht2 Hp2 Ht Hp).
Defined.

(** ** Order of the score records *)

Section ScoreOrder.
Context `{FloatRepr} `{MetricsModule}.

Lemma categoryScore_ret (truth prediction : DataFrame) (category : string)
    (s : Score) :
  categoryScore truth prediction category = ret s ->
  dataset s = category /\ map name (metrics s) = category_metric_names.
Proof.
  unfold categoryScore. intros Hs.
  repeat (apply bind_ret_inv in Hs as (? & _ & Hs)).
  by injection Hs as <-.
Qed.

Lemma computeMetricsParsed_ret (truth prediction : DataFrame)
    (scores : list Score) :
  computeMetricsParsed truth prediction = ret scores ->
  exists aggregate categoryScores,
    scores = aggregate :: categoryScores
    /\ dataset aggregate = "aggregate"
    /\ map name (metrics aggregate) = ["balanced_accuracy"]
    /\ map dataset categoryScores = CATEGORIES
    /\ Forall (fun s => map name (metrics s) = category_metric_names)
         categoryScores.
Proof.
  unfold computeMetricsParsed. intros Hs.
  apply bind_ret_inv in Hs as (? & _ & Hs).
  apply bind_ret_inv in Hs as (balanced_accuracy & _ & Hs).
  apply bind_ret_inv in Hs as (categoryScores & Hcat & Hs).
  injection Hs as <-.
  exists (mkScore "aggregate" [mkMetric "balanced_accuracy" balanced_accuracy]),
    categoryScores.
  split; [done|]. split; [done|]. split; [done|]. split.
  - rewrite (mapM_result_ret_map _ dataset (fun c => c) _ _ (fun c s Hc =>
               proj1 (categoryScore_ret _ _ c s Hc)) Hcat).
    apply map_id.
  - apply (mapM_result_ret_Forall _ _ _ _ (fun c s Hc =>
             proj2 (categoryScore_ret _ _ c s Hc)) Hcat).
Qed.
End ScoreOrder.

Lemma scoreP1_datasets (w : world) (truthDir testDir : string)
    (scores : list Score) :
  scoreP1 w truthDir testDir = ret scores ->
  map dataset scores = map (rsplit1_head "_") (sorted (listdir w truthDir)).
Proof.
  unfold scoreP1. apply mapM_result_ret_map. intros truthFile s Hs.
  apply bind_ret_inv in Hs as (testPath & _ & Hs).
  apply bind_ret_inv in Hs as (ms & _ & Hs).
  by injection Hs as <-.
Qed.

(** C4, as amended: [scoreP1] returns one record per ground-truth file, in
    ascending order of the file names, each named by its file name without
    what follows the last [_]; [computeMetrics] returns the aggregate
    record first, then one record per category in the order MEL, NV, BCC,
    AKIEC, BKL, DF, VASC, each with the metrics accuracy, sensitivity,
    specificity, f1_score, ppv, npv, auc, auc_sens_80 in this order. *)
Theorem score_records_order `{FloatRepr} `{MetricsModule} :
  (forall (w : world) (truthDir testDir : string) (scores : list Score),
      scoreP1 w truthDir testDir = ret scores ->
      exists truthFiles,
        Permutation (listdir w truthDir) truthFiles
        /\ Sorted str_le truthFiles
        /\ map dataset scores = map (rsplit1_head "_") truthFiles)
  /\ (forall (truthFileStream predictionFileStream : DataFrame)
             (scores : list Score),
         computeMetrics truthFileStream predictionFileStream = ret scores ->
         exists aggregate categoryScores,
           scores = aggregate :: categoryScores
           /\ dataset aggregate = "aggregate"
           /\ map name (metrics aggregate) = ["balanced_accuracy"]
           /\ map dataset categoryScores = CATEGORIES
           /\ Forall (fun s => map name (metrics s) = category_metric_names)
                categoryScores).
Proof.
  split.
  - intros w truthDir testDir scores Hs.
    exists (sorted (listdir w truthDir)).
    split; [apply sorted_perm|]. split; [apply sorted_Sorted|].
    by apply scoreP1_datasets with (testDir := testDir).
  - intros truthFileStream predictionFileStream scores Hs.
    unfold computeMetrics in Hs.
    apply bind_ret_inv in Hs as (truth & _ & Hs).
    apply bind_ret_inv in Hs as (prediction & _ & Hs).
    by apply computeMetricsParsed_ret with (truth := truth) (prediction := prediction).
Qed.

Lemma score_records_order_witness :
  (exists scores,
     scoreP1 Examples.nested_identifiers "truth" "test" = ret scores
     /\ exists truthFiles,
          Permutation (listdir Examples.nested_identifiers "truth") truthFiles
          /\ Sorted str_le truthFiles
          /\ map dataset scores = map (rsplit1_head "_") truthFiles)
  /\ (exists scores,
        computeMetrics ExampleFrames.two_images ExampleFrames.two_images
        = ret scores
        /\ map dataset scores = "aggregate" :: CATEGORIES).
Proof.
  destruct (score_records_order (H := ExampleFrames.decimal_repr)
              (H0 := ExampleMetrics.row_count_metrics)) as [Hseg Hcls].
  split.
  - destruct (scoreP1 Examples.nested_identifiers "truth" "test")
      as [e|scores] eqn:Hs; [vm_compute in Hs; discriminate|].
    exists scores. split; [reflexivity|].
    exact (Hseg Examples.nested_identifiers "truth" "test" scores Hs).
  - destruct (computeMetrics ExampleFrames.two_images ExampleFrames.two_images)
      as [e|scores] eqn:Hs; [vm_compute in Hs; discriminate|].
    exists scores. split; [reflexivity|].
    destruct (Hcls ExampleFrames.two_images ExampleFrames.two_images scores Hs)
      as (aggregate & categoryScores & -> & Hagg & _ & Hcat & _).
    cbn [map]. by rewrite Hagg, Hcat.
Defined.

(** C4, as stated, fails for [scoreP1] when one identifier is a beginning
    of another: the file names are in ascending order, for [0] comes before
    [_], and the dataset identifiers are not. *)
Lemma scoreP1_not_sorted_by_dataset :
  exists scores,
    scoreP1 Examples.nested_identifiers "truth" "test" = ret scores
    /\ map dataset scores = ["ISIC_00000030"; "ISIC_0000003"]
    /\ ~ Sorted str_le (map dataset scores).
Proof.
  destruct (scoreP1 Examples.nested_identifiers "truth" "test")
    as [e|scores] eqn:Hs; [vm_compute in Hs; discriminate|].
  exists scores. split; [reflexivity|].
  assert (Hd : map dataset scores = ["ISIC_00000030"; "ISIC_0000003"]).
  { vm_compute in Hs. injection Hs as <-. reflexivity. }
  split; [exact Hd|]. rewrite Hd. intros Hsorted.
  inversion Hsorted as [|? ? _ Hrel]; subst.
  inversion Hrel as [|? ? Hle]; subst. vm_compute in Hle. discriminate.
Qed.

(** * Further properties of the code *)

(** ** loadImage: which images it accepts and what it returns *)

Lemma size_three (a b c : Z) (X : gset Z) :
  a ∈ X -> b ∈ X -> c ∈ X -> a <> b -> a <> c -> b <> c -> (3 <= size X)%nat.
Proof.
  intros Ha Hb Hc Hab Hac Hbc.
  assert (Hsub : ({[a]} ∪ ({[b]} ∪ {[c]}) : gset Z) ⊆ X).
  { intros x Hx. apply elem_of_union in Hx as [Hx|Hx].
    - apply elem_of_singleton in Hx. by subst.
    - apply elem_of_union in Hx as [Hx|Hx]; apply elem_of_singleton in Hx; by subst. }
  apply subseteq_size in Hsub. rewrite size_union in Hsub.
  - rewrite size_union, !size_singleton in Hsub; [lia|].
    intros x Hx1 Hx2. apply elem_of_singleton in Hx1, Hx2. congruence.
  - intros x Hx1 Hx2. apply elem_of_singleton in Hx1.
    apply elem_of_union in Hx2 as [Hx2|Hx2]; apply elem_of_singleton in Hx2;
      congruence.
Qed.

(** A grid with at most two distinct values is returned, rescaled or not,
    with the shape and the number of samples it had. *)
Lemma loadImage_small (w : world) (imagePath : string) (image : PILImage) :
  Image_open w imagePath = Some image ->
  mode image = "L" ->
  (size (unique_values (np_array image)) <= 2)%nat ->
  exists grid,
    loadImage w imagePath = ret grid
    /\ shape grid = shape (np_array image)
    /\ length (samples grid) = length (samples (np_array image)).
Proof.
  intros Hopen Hmode Hsize. unfold loadImage. rewrite Hopen, Hmode. cbn.
  destruct (bool_decide (unique_values (np_array image) ⊆ {[0; 255]})) eqn:Hsub;
    [by exists (np_array image)|].
  apply bool_decide_eq_false_1 in Hsub.
  rewrite bool_decide_eq_true_2 by done.
  set (s := unique_values (np_array image) ∖ {[0]}).
  destruct (set_pop (pop_choice w) s) as [highValue|] eqn:Hpop.
  - set (g := fun x : Z => (x `div` highValue * 255) `mod` 256).
    assert (Hmap : map (fun x : Z => (x * 255) `mod` 256)
                     (map (fun x : Z => x `div` highValue)
                          (samples (np_array image)))
                   = map g (samples (np_array image)))
      by (rewrite List.map_map; reflexivity).
    rewrite bool_decide_eq_false_2.
    + eexists. split; [reflexivity|]. split; [reflexivity|].
      cbn. by rewrite !length_map.
    + intros [Hle Hstrict]. apply Hstrict. clear Hstrict.
      assert (Hpre : forall y,
                 y ∈ unique_values
                       (multiply_uint8 (floor_divide (np_array image) highValue) 255) ->
                 exists x, x ∈ unique_values (np_array image) /\ g x = y).
      { intros y Hy. apply elem_of_unique_values in Hy. cbn in Hy.
        rewrite Hmap in Hy. apply in_map_iff in Hy as (x & Hx & Hin).
        exists x. split; [by apply elem_of_unique_values | done]. }
      intros z Hz. apply elem_of_pair.
      destruct (decide (z = 0)) as [|Hz0]; [by left|].
      destruct (decide (z = 255)) as [|Hz255]; [by right|].
      exfalso.
      destruct (Hpre 0) as (x0 & Hx0 & Hg0);
        [apply Hle, elem_of_pair; by left|].
      destruct (Hpre 255) as (x1 & Hx1 & Hg1);
        [apply Hle, elem_of_pair; by right|].
      destruct (Hpre z Hz) as (x2 & Hx2 & Hg2).
      assert (3 <= size (unique_values (np_array image)))%nat; [|lia].
      apply (size_three x0 x1 x2); try done; intros ->; congruence.
  - exfalso. unfold set_pop in Hpop. apply lookup_ge_None_1 in Hpop.
    assert (Hne : s <> ∅).
    { intros Hempty. apply Hsub. intros x Hx. apply elem_of_pair.
      destruct (decide (x = 0)) as [->|Hx0]; [by left|].
      assert (Hxs : x ∈ s).
      { apply elem_of_difference. split; [done|].
        intros Hx'. by apply elem_of_singleton in Hx'. }
      rewrite Hempty in Hxs. by apply elem_of_empty in Hxs. }
    assert (Hs : size s <> O).
    { apply size_non_empty_iff. intros Hequiv. apply Hne.
      by apply leibniz_equiv. }
    change (length (elements s)) with (size s) in Hpop.
    pose proof (Nat.mod_upper_bound (pop_choice w) (size s) Hs). lia.
Qed.

(** X1: a decoded single-channel image is accepted by [loadImage] exactly
    when its grid has at most two distinct sample values; the check after
    the rescaling never rejects. *)
Theorem loadImage_accepts_iff (w : world) (imagePath : string)
    (image : PILImage) :
  Image_open w imagePath = Some image ->
  mode image = "L" ->
  (exists grid, loadImage w imagePath = ret grid)
  <-> (size (unique_values (np_array image)) <= 2)%nat.
Proof.
  intros Hopen Hmode. split.
  - intros [grid Hgrid].
    destruct (le_lt_dec (size (unique_values (np_array image))) 2) as [|Hgt];
      [done|].
    rewrite (loadImage_reject w imagePath image Hopen Hmode Hgt) in Hgrid.
    discriminate.
  - intros Hsize.
    destruct (loadImage_small w imagePath image Hopen Hmode Hsize)
      as (grid & Hgrid & _).
    by exists grid.
Qed.

Lemma loadImage_accepts_iff_witness :
  Image_open (Examples.two_masks 100 200) "truth/a.png"
  = Some (mkImage "L" (Examples.grid_1x2 100 200))
  /\ mode (mkImage "L" (Examples.grid_1x2 100 200)) = "L"
  /\ exists grid, loadImage (Examples.two_masks 100 200) "truth/a.png" = ret grid.
Proof.
  split; [reflexivity|]. split; [reflexivity|].
  apply (loadImage_accepts_iff (Examples.two_masks 100 200) "truth/a.png"
           (mkImage "L" (Examples.grid_1x2 100 200)) eq_refl eq_refl).
  vm_compute. lia.
Defined.

(** X2: the grid that [loadImage] returns has the shape and the number of
    samples of the decoded single-channel image, so a well-formed array
    stays well-formed. *)
Theorem loadImage_keeps_shape (w : world) (imagePath : string)
    (grid : ndarray) :
  loadImage w imagePath = ret grid ->
  exists image,
    Image_open w imagePath = Some image
    /\ mode image = "L"
    /\ shape grid = shape (np_array image)
    /\ length (samples grid) = length (samples (np_array image))
    /\ (wf_ndarray (np_array image) -> wf_ndarray grid).
Proof.
  intros Hgrid.
  destruct (Image_open w imagePath) as [image|] eqn:Hopen;
    [|unfold loadImage in Hgrid; rewrite Hopen in Hgrid; discriminate].
  destruct (String.eqb (mode image) "L") eqn:Hmode;
    [|unfold loadImage in Hgrid; rewrite Hopen, Hmode in Hgrid; discriminate].
  apply String.eqb_eq in Hmode.
  exists image. split; [done|]. split; [done|].
  destruct (le_lt_dec (size (unique_values (np_array image))) 2) as [Hle|Hgt].
  - destruct (loadImage_small w imagePath image Hopen Hmode Hle)
      as (grid' & Hgrid' & Hshape & Hlen).
    rewrite Hgrid in Hgrid'. injection Hgrid' as <-.
    split; [done|]. split; [done|].
    unfold wf_ndarray. by rewrite Hshape, Hlen.
  - rewrite (loadImage_reject w imagePath image Hopen Hmode Hgt) in Hgrid.
    discriminate.
Qed.

Lemma loadImage_keeps_shape_witness :
  loadImage (Examples.two_masks 0 7) "truth/a.png" = ret (Examples.grid_1x2 0 255)
  /\ exists image,
       Image_open (Examples.two_masks 0 7) "truth/a.png" = Some image
       /\ shape (Examples.grid_1x2 0 255) = shape (np_array image).
Proof.
  assert (Hl : loadImage (Examples.two_masks 0 7) "truth/a.png"
               = ret (Examples.grid_1x2 0 255)) by (by vm_compute).
  split; [exact Hl|].
  destruct (loadImage_keeps_shape (Examples.two_masks 0 7) "truth/a.png"
              (Examples.grid_1x2 0 255) Hl) as (image & Hopen & _ & Hshape & _).
  exists image. split; [exact Hopen | exact Hshape].
Defined.



(** ** scoreP1Image: the metrics of two masks *)

Lemma confusion_nonneg (t s : list bool) :
  0 <= truePositive (confusion t s) /\ 0 <= trueNegative (confusion t s)
  /\ 0 <= falsePositive (confusion t s) /\ 0 <= falseNegative (confusion t s).
Proof. repeat split; apply np_sum_nonneg. Qed.

(** The counts add up to the numbers of positive samples of each mask. *)
Lemma confusion_margins (t s : list bool) :
  length t = length s ->
  truePositive (confusion t s) + falseNegative (confusion t s) = np_sum t
  /\ truePositive (confusion t s) + falsePositive (confusion t s) = np_sum s
  /\ trueNegative (confusion t s) + falsePositive (confusion t s)
     = Z.of_nat (length t) - np_sum t.
Proof.
  revert s. induction t as [|a t IH]; intros [|b s] Hlen; try discriminate.
  - done.
  - injection Hlen as Hlen. destruct (IH s Hlen) as (H1 & H2 & H3).
    rewrite confusion_cons, !np_sum_cons.
    cbn [truePositive trueNegative falsePositive falseNegative length].
    destruct a, b; cbn [andb negb]; lia.
Qed.

Lemma inject_Z_nonzero (z : Z) : z <> 0 -> ~ (inject_Z z == 0)%Q.
Proof.
  intros Hz Heq. change 0%Q with (inject_Z 0) in Heq.
  by apply (proj1 (inject_Z_injective z 0)) in Heq.
Qed.

(** A division of two floats that hold the counts [a] and [b]. *)
Lemma float_div_counts (x y : Q) (a b : Z) :
  (x == inject_Z a)%Q -> (y == inject_Z b)%Q -> b <> 0 ->
  float_div x y = ret (ratio a b).
Proof.
  intros Hx Hy Hb. unfold float_div, ratio.
  destruct (Qeq_bool y 0) eqn:He.
  - apply Qeq_bool_iff in He. rewrite Hy in He.
    by apply inject_Z_nonzero in He.
  - do 2 f_equal. apply Qred_complete. by rewrite Hx, Hy.
Qed.

Lemma float_div_by_zero (x y : Q) :
  (y == 0)%Q ->
  float_div x y = raise ZeroDivisionError "float division by zero".
Proof.
  intros Hy. unfold float_div.
  by rewrite (proj2 (Qeq_bool_iff y 0) Hy).
Qed.

Lemma float_div_cases (x y : Q) :
  float_div x y = raise ZeroDivisionError "float division by zero"
  \/ (exists v, float_div x y = ret v /\ ~ (y == 0)%Q).
Proof.
  unfold float_div. destruct (Qeq_bool y 0) eqn:He; [by left|].
  right. eexists. split; [reflexivity|].
  intros Hy. apply Qeq_bool_iff in Hy. congruence.
Qed.

Lemma result_bind_ret {A B} (a : A) (k : A -> result B) :
  ret a ≫= k = k a.
Proof. reflexivity. Qed.

Ltac step_div a b :=
  match goal with
  | |- (float_div ?x ?y ≫= _) = _ =>
      rewrite (float_div_counts x y a b);
      [ rewrite result_bind_ret; cbv beta
      | rewrite ?inject_Z_plus, ?inject_Z_mult; reflexivity ..
      | lia ]
  end.

(** The five metrics of two masks of one length, when the truth mask has a
    positive and a negative sample. *)
Lemma maskMetrics_values (t s : list bool) :
  length t = length s ->
  0 < np_sum t -> np_sum t < Z.of_nat (length t) ->
  let c := confusion t s in
  maskMetrics t s
  = ret [ mkMetric "accuracy"
            (ratio (truePositive c + trueNegative c)
                   (truePositive c + trueNegative c
                    + falsePositive c + falseNegative c));
          mkMetric "jaccard"
            (ratio (truePositive c)
                   (truePositive c + falseNegative c + falsePositive c));
          mkMetric "dice"
            (ratio (2 * truePositive c) (np_sum t + np_sum s));
          mkMetric "sensitivity"
            (ratio (truePositive c) (truePositive c + falseNegative c));
          mkMetric "specificity"
            (ratio (trueNegative c) (trueNegative c + falsePositive c)) ].
Proof.
  intros Hlen Hpos Hneg c.
  destruct (confusion_margins t s Hlen) as (Hm1 & Hm2 & Hm3).
  destruct (confusion_nonneg t s) as (Htp & Htn & Hfp & Hfn).
  pose proof (confusion_total t s Hlen) as Htot.
  pose proof (np_sum_nonneg s) as Hs.
  fold c in Hm1, Hm2, Hm3, Htp, Htn, Hfp, Hfn, Htot.
  unfold maskMetrics. fold c.
  step_div (truePositive c + trueNegative c)
           (truePositive c + trueNegative c + falsePositive c + falseNegative c).
  step_div (truePositive c) (truePositive c + falseNegative c + falsePositive c).
  step_div (2 * truePositive c) (np_sum t + np_sum s).
  step_div (truePositive c) (truePositive c + falseNegative c).
  step_div (trueNegative c) (trueNegative c + falsePositive c).
  reflexivity.
Qed.

(** Without a positive or without a negative sample in the truth mask, one
    of the divisions is by zero. *)
Lemma maskMetrics_raises (t s : list bool) :
  length t = length s ->
  np_sum t = 0 \/ np_sum t = Z.of_nat (length t) ->
  maskMetrics t s = raise ZeroDivisionError "float division by zero".
Proof.
  intros Hlen Hcase.
  destruct (confusion_margins t s Hlen) as (Hm1 & _ & Hm3).
  unfold maskMetrics. set (c := confusion t s) in *.
  repeat match goal with
         | |- context [float_div ?x ?y] =>
             let H := fresh "Hd" in
             destruct (float_div_cases x y) as [->|(? & -> & H)];
             [reflexivity|cbv beta iota delta [mbind result_bind]]
         end.
  exfalso. destruct Hcase as [H0|Hn].
  - apply Hd2. rewrite <- inject_Z_plus, Hm1, H0. reflexivity.
  - apply Hd3. rewrite <- inject_Z_plus, Hm3, Hn, Z.sub_diag. reflexivity.
Qed.

Lemma maskMetrics_ret_inv (t s : list bool) (ms : list Metric) :
  length t = length s ->
  maskMetrics t s = ret ms ->
  0 < np_sum t /\ np_sum t < Z.of_nat (length t).
Proof.
  intros Hlen Hms.
  pose proof (np_sum_nonneg t) as Hge. pose proof (np_sum_le_length t) as Hle.
  destruct (decide (np_sum t = 0)) as [Hz|Hz].
  { rewrite (maskMetrics_raises t s Hlen (or_introl Hz)) in Hms. discriminate. }
  destruct (decide (np_sum t = Z.of_nat (length t))) as [Hn|Hn].
  { rewrite (maskMetrics_raises t s Hlen (or_intror Hn)) in Hms. discriminate. }
  lia.
Qed.

Lemma inject_Z_pos (b : Z) : 0 < b -> (0 < inject_Z b)%Q.
Proof. intros Hb. unfold Qlt. cbn. lia. Qed.

Lemma ratio_unit (a b : Z) :
  0 <= a -> a <= b -> 0 < b -> unit_interval (ratio a b).
Proof.
  intros Ha Hab Hb. exists (Qred (inject_Z a / inject_Z b)).
  split; [done|]. rewrite Qred_correct. split.
  - apply Qle_shift_div_l; [by apply inject_Z_pos|].
    rewrite Qmult_0_l. change 0%Q with (inject_Z 0). by rewrite <- Zle_Qle.
  - apply Qle_shift_div_r; [by apply inject_Z_pos|].
    rewrite Qmult_1_l. by rewrite <- Zle_Qle.
Qed.

Lemma ratio_zero (b : Z) : ratio 0 b = Finite 0.
Proof.
  reflexivity.
Qed.

Lemma ratio_one_iff (a b : Z) : b <> 0 -> ratio a b = Finite 1 <-> a = b.
Proof.
  intros Hb. unfold ratio. split.
  - intros Hr. injection Hr as Hr.
    assert (Hq : (inject_Z a / inject_Z b == 1)%Q).
    { rewrite <- (Qred_correct (inject_Z a / inject_Z b)), Hr. reflexivity. }
    apply inject_Z_injective.
    rewrite <- (Qmult_1_l (inject_Z b)), <- Hq.
    field. by apply inject_Z_nonzero.
  - intros ->. f_equal. change 1%Q with (Qred 1). apply Qred_complete.
    apply Qmult_inv_r. by apply inject_Z_nonzero.
Qed.

Lemma ratio_le (a b c d : Z) (p q : Q) :
  0 < b -> 0 < d -> a * d <= c * b ->
  ratio a b = Finite p -> ratio c d = Finite q -> (p <= q)%Q.
Proof.
  intros Hb Hd Hle Hp Hq. unfold ratio in *.
  injection Hp as <-. injection Hq as <-. rewrite !Qred_correct.
  apply Qle_shift_div_l; [by apply inject_Z_pos|].
  unfold Qdiv. rewrite <- Qmult_assoc, (Qmult_comm (/ inject_Z b)), Qmult_assoc.
  apply Qle_shift_div_r; [by apply inject_Z_pos|].
  rewrite <- !inject_Z_mult. by rewrite <- Zle_Qle.
Qed.

Lemma np_sum_greater_zero (a : ndarray) (t : Z) :
  List.Forall (fun v => v <= t) (samples a) -> np_sum (greater a t) = 0.
Proof.
  unfold greater. induction 1 as [|v l Hv _ IH]; [done|].
  cbn [map]. rewrite np_sum_cons, IH.
  destruct (Z.ltb_spec t v); lia.
Qed.

Lemma np_sum_greater_all (a : ndarray) (t : Z) :
  List.Forall (fun v => t < v) (samples a) ->
  np_sum (greater a t) = Z.of_nat (length (samples a)).
Proof.
  unfold greater. induction 1 as [|v l Hv _ IH]; [done|].
  cbn [map length]. rewrite np_sum_cons, IH.
  destruct (Z.ltb_spec t v); lia.
Qed.

(** X4: once both images are loaded with one shape, [scoreP1Image] returns
    its five metrics when the truth grid has a sample above 128 and a
    sample not above 128, and raises [ZeroDivisionError] when the truth
    grid has no sample above 128 or none at or below it, whatever the
    submission is. *)
Theorem scoreP1Image_zero_division (w : world) (truthPath testPath : string)
    (truthImage testImage : ndarray) :
  loadImage w truthPath = ret truthImage ->
  loadImage w testPath = ret testImage ->
  wf_ndarray truthImage ->
  wf_ndarray testImage ->
  shape testImage = shape truthImage ->
  ((exists v, In v (samples truthImage) /\ 128 < v) ->
   (exists v, In v (samples truthImage) /\ v <= 128) ->
   exists ms, scoreP1Image w truthPath testPath = ret ms
              /\ map name ms = mask_metric_names)
  /\ (List.Forall (fun v => v <= 128) (samples truthImage)
      \/ List.Forall (fun v => 128 < v) (samples truthImage) ->
      scoreP1Image w truthPath testPath
      = raise ZeroDivisionError "float division by zero").
Proof.
  intros Ht Hs Hwt Hws Hshape.
  assert (Hlen : length (greater truthImage 128) = length (greater testImage 128)).
  { rewrite !length_greater. unfold wf_ndarray in *. congruence. }
  assert (Hscore : scoreP1Image w truthPath testPath
                   = maskMetrics (greater truthImage 128) (greater testImage 128)).
  { unfold scoreP1Image. rewrite Ht, Hs, !result_bind_ret.
    by rewrite (proj2 (shape_eqb_eq _ _) Hshape). }
  rewrite Hscore. split.
  - intros (v & Hv & Hpos) (u & Hu & Hneg).
    eexists. split.
    + apply (maskMetrics_values _ _ Hlen).
      * by apply np_sum_greater_pos with (v := v).
      * rewrite length_greater. by apply np_sum_greater_lt_length with (v := u).
    + reflexivity.
  - intros [Hall|Hall]; apply (maskMetrics_raises _ _ Hlen).
    + left. by apply np_sum_greater_zero.
    + right. rewrite length_greater. by apply np_sum_greater_all.
Qed.

Lemma scoreP1Image_zero_division_witness :
  loadImage (Examples.two_masks 255 255) "truth/a.png"
  = ret (Examples.grid_1x2 255 255)
  /\ wf_ndarray (Examples.grid_1x2 255 255)
  /\ scoreP1Image (Examples.two_masks 255 255) "truth/a.png" "test/a.png"
     = raise ZeroDivisionError "float division by zero".
Proof.
  assert (Hl : forall p, loadImage (Examples.two_masks 255 255) p
                         = ret (Examples.grid_1x2 255 255)).
  { intros p. vm_compute. reflexivity. }
  split; [apply Hl|]. split; [reflexivity|].
  destruct (scoreP1Image_zero_division (Examples.two_masks 255 255)
              "truth/a.png" "test/a.png"
              (Examples.grid_1x2 255 255) (Examples.grid_1x2 255 255)
              (Hl _) (Hl _) eq_refl eq_refl eq_refl) as [_ Hraise].
  apply Hraise. right. repeat constructor.
Defined.

(** X5: when the metrics of two masks of one size are returned, they are
    accuracy, jaccard, dice, sensitivity and specificity in this order, and
    each value lies between 0.0 and 1.0. *)
Theorem maskMetrics_in_unit_interval (t s : list bool) (ms : list Metric) :
  length t = length s ->
  maskMetrics t s = ret ms ->
  map name ms = mask_metric_names
  /\ List.Forall (fun m => unit_interval (value m)) ms.
Proof.
  intros Hlen Hms.
  destruct (maskMetrics_ret_inv t s ms Hlen Hms) as [Hpos Hneg].
  pose proof (maskMetrics_values t s Hlen Hpos Hneg) as Hv. cbv zeta in Hv.
  destruct (confusion_margins t s Hlen) as (Hm1 & Hm2 & Hm3).
  destruct (confusion_nonneg t s) as (Htp & Htn & Hfp & Hfn).
  pose proof (confusion_total t s Hlen) as Htot.
  pose proof (np_sum_nonneg s) as Hs.
  remember (confusion t s) as c eqn:Hc in *. clear Hc.
  rewrite Hv in Hms. injection Hms as <-. split; [reflexivity|].
  repeat (apply List.Forall_cons; [cbn [value]; apply ratio_unit; lia|]).
  apply List.Forall_nil.
Qed.

Lemma maskMetrics_in_unit_interval_witness :
  length [true; false; true] = length [true; true; false]
  /\ exists ms,
       maskMetrics [true; false; true] [true; true; false] = ret ms
       /\ map name ms = mask_metric_names
       /\ List.Forall (fun m => unit_interval (value m)) ms.
Proof.
  split; [reflexivity|].
  destruct (maskMetrics [true; false; true] [true; true; false])
    as [e|ms] eqn:Hms; [vm_compute in Hms; discriminate|].
  exists ms. split; [reflexivity|].
  exact (maskMetrics_in_unit_interval [true; false; true] [true; true; false]
           ms eq_refl Hms).
Defined.

(** No false positive and no false negative: the masks are equal. *)
Lemma confusion_no_errors (t s : list bool) :
  length t = length s ->
  falsePositive (confusion t s) = 0 ->
  falseNegative (confusion t s) = 0 ->
  t = s.
Proof.
  revert s. induction t as [|a t IH]; intros [|b s] Hlen Hfp Hfn;
    try discriminate; [done|].
  injection Hlen as Hlen. rewrite confusion_cons in Hfp, Hfn.
  cbn [falsePositive falseNegative] in Hfp, Hfn.
  destruct (confusion_nonneg t s) as (_ & _ & Hp & Hn).
  destruct a, b; cbn [andb negb] in Hfp, Hfn; try lia;
    f_equal; apply IH; try done; lia.
Qed.

(** X6: when two masks of one size are scored, the accuracy is 1.0 exactly
    when the two masks are equal. *)
Theorem maskMetrics_accuracy_one_iff (t s : list bool) (ms : list Metric) :
  length t = length s ->
  maskMetrics t s = ret ms ->
  exists accuracy rest,
    ms = mkMetric "accuracy" accuracy :: rest
    /\ (accuracy = Finite 1 <-> t = s).
Proof.
  intros Hlen Hms.
  destruct (maskMetrics_ret_inv t s ms Hlen Hms) as [Hpos Hneg].
  pose proof (maskMetrics_values t s Hlen Hpos Hneg) as Hv. cbv zeta in Hv.
  destruct (confusion_nonneg t s) as (Htp & Htn & Hfp & Hfn).
  pose proof (confusion_total t s Hlen) as Htot.
  pose proof (confusion_no_errors t s Hlen) as Heq.
  pose proof (confusion_self t) as Hself.
  remember (confusion t s) as c eqn:Hc in *.
  rewrite Hv in Hms. injection Hms as <-.
  eexists _, _. split; [reflexivity|].
  rewrite ratio_one_iff by lia. split.
  - intros Hone. apply Heq; lia.
  - intros <-. rewrite Hc, Hself.
    cbn [truePositive trueNegative falsePositive falseNegative]. lia.
Qed.

Lemma maskMetrics_accuracy_one_iff_witness :
  length [true; false; true] = length [true; true; false]
  /\ exists ms accuracy rest,
       maskMetrics [true; false; true] [true; true; false] = ret ms
       /\ ms = mkMetric "accuracy" accuracy :: rest
       /\ accuracy <> Finite 1.
Proof.
  split; [reflexivity|].
  destruct (maskMetrics [true; false; true] [true; true; false])
    as [e|ms] eqn:Hms; [vm_compute in Hms; discriminate|].
  destruct (maskMetrics_accuracy_one_iff [true; false; true]
              [true; true; false] ms eq_refl Hms)
    as (accuracy & rest & Hlist & Hiff).
  exists ms, accuracy, rest. split; [reflexivity|]. split; [exact Hlist|].
  intros Hone. apply Hiff in Hone. discriminate.
Defined.

(** X7: when two masks of one size are scored, the jaccard index is at
    most the dice coefficient. *)
Theorem maskMetrics_jaccard_le_dice (t s : list bool) (ms : list Metric) :
  length t = length s ->
  maskMetrics t s = ret ms ->
  exists accuracy jaccard dice rest,
    ms = accuracy :: mkMetric "jaccard" (Finite jaccard)
                  :: mkMetric "dice" (Finite dice) :: rest
    /\ (jaccard <= dice)%Q.
Proof.
  intros Hlen Hms.
  destruct (maskMetrics_ret_inv t s ms Hlen Hms) as [Hpos Hneg].
  pose proof (maskMetrics_values t s Hlen Hpos Hneg) as Hv. cbv zeta in Hv.
  destruct (confusion_margins t s Hlen) as (Hm1 & Hm2 & Hm3).
  destruct (confusion_nonneg t s) as (Htp & Htn & Hfp & Hfn).
  pose proof (np_sum_nonneg s) as Hs.
  remember (confusion t s) as c eqn:Hc in *. clear Hc.
  rewrite Hv in Hms. injection Hms as <-.
  eexists _, _, _, _. split; [reflexivity|].
  eapply (ratio_le (truePositive c)
            (truePositive c + falseNegative c + falsePositive c)
            (2 * truePositive c) (np_sum t + np_sum s));
    [lia | lia | nia | reflexivity | reflexivity].
Qed.

Lemma maskMetrics_jaccard_le_dice_witness :
  length [true; false; true] = length [true; true; false]
  /\ exists ms accuracy jaccard dice rest,
       maskMetrics [true; false; true] [true; true; false] = ret ms
       /\ ms = accuracy :: mkMetric "jaccard" (Finite jaccard)
                        :: mkMetric "dice" (Finite dice) :: rest
       /\ (jaccard <= dice)%Q.
Proof.
  split; [reflexivity|].
  destruct (maskMetrics [true; false; true] [true; true; false])
    as [e|ms] eqn:Hms; [vm_compute in Hms; discriminate|].
  destruct (maskMetrics_jaccard_le_dice [true; false; true]
              [true; true; false] ms eq_refl Hms)
    as (accuracy & jaccard & dice & rest & Hlist & Hle).
  exists ms, accuracy, jaccard, dice, rest.
  split; [reflexivity|]. split; [exact Hlist | exact Hle].
Defined.

Lemma np_sum_negb (t : list bool) :
  np_sum (map negb t) = Z.of_nat (length t) - np_sum t.
Proof.
  induction t as [|a t IH]; [done|].
  cbn [map length]. rewrite !np_sum_cons, IH. destruct a; cbn [negb]; lia.
Qed.

Lemma confusion_complement (t : list bool) :
  confusion t (map negb t)
  = mkConfusion 0 0 (Z.of_nat (length t) - np_sum t) (np_sum t).
Proof.
  induction t as [|a t IH]; [reflexivity|].
  cbn [map]. rewrite confusion_cons, IH, np_sum_cons.
  cbn [truePositive trueNegative falsePositive falseNegative length].
  destruct a; cbn [andb negb]; f_equal; lia.
Qed.

(** X8: a submission mask that is the complement of a truth mask with a
    positive and a negative sample scores 0.0 on all five metrics. *)
Theorem maskMetrics_complement (t : list bool) :
  In true t -> In false t ->
  maskMetrics t (map negb t) = ret all_metrics_zero.
Proof.
  intros Htrue Hfalse.
  assert (Hpos : 0 < np_sum t).
  { clear Hfalse. induction t as [|a t IH]; [done|].
    rewrite np_sum_cons. pose proof (np_sum_nonneg t).
    destruct Htrue as [->|Hin]; [lia|]. specialize (IH Hin). destruct a; lia. }
  assert (Hneg : np_sum t < Z.of_nat (length t)).
  { clear Htrue Hpos. induction t as [|a t IH]; [done|].
    rewrite np_sum_cons. cbn [length]. pose proof (np_sum_le_length t).
    destruct Hfalse as [->|Hin]; [lia|]. specialize (IH Hin). destruct a; lia. }
  assert (Hlen : length t = length (map negb t)) by (by rewrite length_map).
  rewrite (maskMetrics_values t (map negb t) Hlen Hpos Hneg).
  cbv zeta. rewrite confusion_complement.
  cbn [truePositive trueNegative falsePositive falseNegative].
  change (0 + 0) with 0. change (2 * 0) with 0. by rewrite !ratio_zero.
Qed.

Lemma maskMetrics_complement_witness :
  In true [true; false; false; true]
  /\ In false [true; false; false; true]
  /\ maskMetrics [true; false; false; true] (map negb [true; false; false; true])
     = ret all_metrics_zero.
Proof.
  assert (Ht : In true [true; false; false; true]) by (left; reflexivity).
  assert (Hf : In false [true; false; false; true])
    by (right; left; reflexivity).
  split; [exact Ht|]. split; [exact Hf|].
  exact (maskMetrics_complement [true; false; false; true] Ht Hf).
Defined.

(** X9: exchanging the truth mask and the submission mask exchanges the
    false positives and the false negatives and keeps the true positives
    and the true negatives. *)
Theorem confusion_swap (t s : list bool) :
  confusion s t
  = mkConfusion (truePositive (confusion t s)) (trueNegative (confusion t s))
                (falseNegative (confusion t s)) (falsePositive (confusion t s)).
Proof.
  revert s. induction t as [|a t IH]; intros [|b s]; try reflexivity.
  rewrite !confusion_cons, IH.
  cbn [truePositive trueNegative falsePositive falseNegative].
  by destruct a, b.
Qed.

(** ** scoreP1 and matchInputFile *)

Lemma scoreP1_scoreFile (w : world) (truthDir testDir : string) :
  scoreP1 w truthDir testDir
  = mapM_result (scoreFile w truthDir testDir) (sorted (listdir w truthDir)).
Proof. reflexivity. Qed.

(** A loop in the error monad fails with the error of the first element
    that fails. *)
Lemma mapM_result_error_iff {A B} (f : A -> result B) (l : list A) (e : exn) :
  mapM_result f l = inl e
  <-> exists pre a post,
        l = (pre ++ a :: post)%list
        /\ List.Forall (fun x => exists b, f x = ret b) pre
        /\ f a = inl e.
Proof.
  induction l as [|x l IH].
  - split; [discriminate|]. intros (pre & a & post & Hl & _).
    by destruct pre.
  - cbn [mapM_result]. destruct (f x) as [e'|b] eqn:Hx.
    + split.
      * intros He. injection He as ->. exists [], x, l.
        split; [done|]. split; [constructor | done].
      * intros (pre & a & post & Hl & Hpre & Ha).
        destruct pre as [|y pre]; injection Hl as -> ->.
        -- rewrite Hx in Ha. by rewrite Ha.
        -- apply List.Forall_inv in Hpre as [b Hb]. rewrite Hx in Hb. discriminate.
    + rewrite result_bind_ret. split.
      * intros He. destruct (mapM_result f l) as [e'|bs] eqn:Hl; [|discriminate].
        injection He as ->.
        destruct (proj1 IH eq_refl) as (pre & a & post & -> & Hpre & Ha).
        exists (x :: pre), a, post. split; [done|].
        split; [constructor; eauto | done].
      * intros (pre & a & post & Hl & Hpre & Ha).
        destruct pre as [|y pre]; injection Hl as -> ->;
          [rewrite Hx in Ha; discriminate|].
        apply List.Forall_inv_tail in Hpre.
        assert (Hl : mapM_result f (pre ++ a :: post) = inl e).
        { apply IH. by exists pre, a, post. }
        by rewrite Hl.
Qed.

(** X10: [scoreP1] is all or nothing: it fails exactly when the scoring of
    some ground-truth file fails, and then with the error of the first such
    file in ascending order of the file names; no record of the files
    before it is returned. *)
Theorem scoreP1_first_failure (w : world) (truthDir testDir : string)
    (e : exn) :
  scoreP1 w truthDir testDir = inl e
  <-> exists pre truthFile post,
        sorted (listdir w truthDir) = (pre ++ truthFile :: post)%list
        /\ List.Forall
             (fun f => exists score, scoreFile w truthDir testDir f = ret score)
             pre
        /\ scoreFile w truthDir testDir truthFile = inl e.
Proof. rewrite scoreP1_scoreFile. apply mapM_result_error_iff. Qed.

Lemma has_char_app (c : ascii) (a b : string) :
  has_char c (a ++ b) = has_char c a || has_char c b.
Proof.
  induction a as [|d a IH]; [done|].
  change (has_char c (String d a ++ b))
    with (Ascii.eqb d c || has_char c (a ++ b)).
  by rewrite IH, orb_assoc.
Qed.

Lemma rsplit1_head_suffix (d suffix : string) :
  has_char "_" suffix = false ->
  rsplit1_head "_" (d ++ "_" ++ suffix) = d.
Proof.
  intros Hs. induction d as [|c d IH].
  - change (rsplit1_head "_" ("" ++ "_" ++ suffix))
      with (if Ascii.eqb "_" "_" && negb (has_char "_" suffix)
            then EmptyString
            else String "_" (rsplit1_head "_" suffix)).
    by rewrite Hs.
  - change (rsplit1_head "_" (String c d ++ "_" ++ suffix))
      with (if Ascii.eqb c "_" && negb (has_char "_" (d ++ "_" ++ suffix))
            then EmptyString
            else String c (rsplit1_head "_" (d ++ "_" ++ suffix))).
    rewrite IH, has_char_app.
    change (has_char "_" ("_" ++ suffix))
      with (Ascii.eqb "_" "_" || has_char "_" suffix).
    by rewrite Ascii.eqb_refl, orb_true_r, andb_false_r.
Qed.

(** X11: the record of a ground-truth file named [d_suffix], where
    [suffix] has no [_], carries the dataset identifier [d], whatever [_]
    the identifier itself contains. *)
Theorem scoreFile_dataset (w : world) (truthDir testDir d suffix : string)
    (score : Score) :
  has_char "_" suffix = false ->
  scoreFile w truthDir testDir (d ++ "_" ++ suffix) = ret score ->
  dataset score = d.
Proof.
  intros Hs Hscore. unfold scoreFile in Hscore.
  apply bind_ret_inv in Hscore as (testPath & _ & Hscore).
  apply bind_ret_inv in Hscore as (ms & _ & Hscore).
  injection Hscore as <-. cbn [dataset]. by apply rsplit1_head_suffix.
Qed.

Lemma scoreFile_dataset_witness :
  has_char "_" "Segmentation.png" = false
  /\ exists score,
       scoreFile (Examples.two_masks 0 255) "truth" "test"
         ("ISIC_0000007" ++ "_" ++ "Segmentation.png") = ret score
       /\ dataset score = "ISIC_0000007".
Proof.
  split; [reflexivity|].
  destruct (scoreFile (Examples.two_masks 0 255) "truth" "test"
              ("ISIC_0000007" ++ "_" ++ "Segmentation.png"))
    as [e|score] eqn:Hscore; [vm_compute in Hscore; discriminate|].
  exists score. split; [reflexivity|].
  exact (scoreFile_dataset (Examples.two_masks 0 255) "truth" "test"
           "ISIC_0000007" "Segmentation.png" score eq_refl Hscore).
Defined.

Lemma matchInputFile_loop_ret (truthFile testDir : string)
    (files : list string) (testPath : string) :
  matchInputFile_loop truthFile testDir files = ret testPath ->
  exists truthFileId testFile,
    split "_" truthFile !! 1%nat = Some truthFileId
    /\ In testFile files
    /\ occurs_in truthFileId testFile
    /\ testPath = path_join testDir testFile.
Proof.
  induction files as [|f files IH]; cbn [matchInputFile_loop]; [discriminate|].
  destruct (split "_" truthFile !! 1%nat) as [tok|] eqn:Htok; [|discriminate].
  destruct (contains tok f) eqn:Hc.
  - intros Hp. injection Hp as <-. exists tok, f.
    split; [done|]. split; [by left|]. split; [by apply contains_spec | done].
  - intros Hp. destruct (IH Hp) as (tok' & g & Htok' & Hg & Ho & ->).
    exists tok', g. split; [done|]. split; [by right | done].
Qed.

(** X12: a path that [matchInputFile] returns is the path, inside the test
    directory, of a listed candidate whose name contains the second token
    of the ground-truth filename; with an empty test directory the call
    fails with the no-match error, whatever the ground-truth filename. *)
Theorem matchInputFile_sound (w : world) (truthFile testDir : string) :
  (forall testPath,
      matchInputFile w truthFile testDir = ret testPath ->
      exists truthFileId testFile,
        split "_" truthFile !! 1%nat = Some truthFileId
        /\ In testFile (listdir w testDir)
        /\ occurs_in truthFileId testFile
        /\ testPath = path_join testDir testFile)
  /\ (listdir w testDir = [] ->
      matchInputFile w truthFile testDir
      = raise Exception (no_match_message truthFile)).
Proof.
  unfold matchInputFile. split.
  - intros testPath. apply matchInputFile_loop_ret.
  - by intros ->.
Qed.

Lemma matchInputFile_sound_witness :
  exists testPath,
    matchInputFile (Examples.two_masks 0 255)
      "ISIC_0000007_Segmentation.png" "test" = ret testPath
    /\ exists truthFileId testFile,
         In testFile (listdir (Examples.two_masks 0 255) "test")
         /\ occurs_in truthFileId testFile
         /\ testPath = path_join "test" testFile.
Proof.
  destruct (matchInputFile (Examples.two_masks 0 255)
              "ISIC_0000007_Segmentation.png" "test")
    as [e|testPath] eqn:Hmatch; [vm_compute in Hmatch; discriminate|].
  exists testPath. split; [reflexivity|].
  destruct (matchInputFile_sound (Examples.two_masks 0 255)
              "ISIC_0000007_Segmentation.png" "test") as [Hsound _].
  destruct (Hsound testPath Hmatch) as (tok & f & _ & Hin & Hocc & Hpath).
  exists tok, f. split; [exact Hin|]. split; [exact Hocc | exact Hpath].
Defined.

(** ** parseCsv: what it accepts, what it keeps, how it fails *)

(** X13: the table that [parseCsv] returns has the rows of the CSV in
    their order: its row labels are the cells of the [image] column, from
    the first row to the last, and no row is added or dropped. *)
Theorem parseCsv_keeps_rows `{FloatRepr} (csv table : DataFrame) :
  parseCsv csv = ret table ->
  column_values csv "image" = Some (index table)
  /\ length (rows table) = length (rows csv).
Proof.
  intros Hparse.
  destruct (parseCsv_ret csv table Hparse)
    as (indexed & Hset & _ & _ & Htable & _).
  destruct (set_index_ret csv indexed "image" Hset) as (i & Hpos & _ & Hindexed).
  rewrite Htable, Hindexed. unfold column_values, index. rewrite Hpos.
  cbn [rows reindex_columns]. rewrite !map_map, !length_map. cbn [fst].
  done.
Qed.

Lemma parseCsv_keeps_rows_witness :
  exists table,
    parseCsv ExampleFrames.two_images = ret table
    /\ index table = [CStr "ISIC_0000002"; CStr "ISIC_0000001"]
    /\ length (rows table) = 2%nat.
Proof.
  destruct (parseCsv ExampleFrames.two_images) as [e|table] eqn:Hparse;
    [vm_compute in Hparse; discriminate|].
  exists table. split; [reflexivity|].
  destruct (parseCsv_keeps_rows ExampleFrames.two_images table Hparse)
    as [Hkeys Hlen].
  split; [|exact Hlen].
  change (column_values ExampleFrames.two_images "image")
    with (Some [CStr "ISIC_0000002"; CStr "ISIC_0000001"]) in Hkeys.
  injection Hkeys as Hkeys. symmetry. exact Hkeys.
Defined.

Lemma mem_str_In (x : string) (l : list string) :
  mem_str x l = true <-> In x l.
Proof.
  unfold mem_str. rewrite existsb_exists. split.
  - intros (y & Hy & Heq). apply String.eqb_eq in Heq. by subst.
  - intros Hx. exists x. split; [done | apply String.eqb_refl].
Qed.

Lemma unique_str_In (x : string) (l : list string) :
  In x (unique_str l) <-> In x l.
Proof.
  induction l as [|y l IH]; [done|]. cbn [unique_str].
  destruct (mem_str y l) eqn:Hm.
  - rewrite IH. split; [by right|]. intros [<-|Hx]; [|done].
    by apply mem_str_In.
  - cbn [In]. by rewrite IH.
Qed.

Lemma unique_str_NoDup (l : list string) : List.NoDup (unique_str l).
Proof.
  induction l as [|y l IH]; cbn [unique_str]; [constructor|].
  destruct (mem_str y l) eqn:Hm; [done|].
  constructor; [|done]. rewrite unique_str_In, <- mem_str_In. congruence.
Qed.

(** The names that [difference_str] lists: those of [a] that are not in
    [b], each once, in ascending order. *)
Lemma difference_str_spec (a b : list string) :
  (forall x, In x (difference_str a b) <-> In x a /\ ~ In x b)
  /\ Sorted str_le (difference_str a b)
  /\ List.NoDup (difference_str a b).
Proof.
  unfold difference_str.
  set (l := unique_str (List.filter (fun x => negb (mem_str x b)) a)).
  pose proof (sorted_perm l) as Hperm. split; [|split].
  - intros x. split.
    + intros Hx. apply (Permutation_in _ (Permutation_sym Hperm)) in Hx.
      apply unique_str_In, filter_In in Hx as [Hx Hb].
      split; [done|]. rewrite <- mem_str_In. by destruct (mem_str x b).
    + intros [Hx Hb]. apply (Permutation_in _ Hperm).
      apply unique_str_In, filter_In. split; [done|].
      rewrite <- mem_str_In in Hb. by destruct (mem_str x b).
  - apply sorted_Sorted.
  - apply (Permutation_NoDup Hperm), unique_str_NoDup.
Qed.

Lemma difference_str_nil_intro (a b : list string) :
  (forall x, In x a -> In x b) -> difference_str a b = [].
Proof.
  intros Hsub. destruct (difference_str a b) as [|x l] eqn:Hd; [done|].
  destruct (difference_str_spec a b) as [Hspec _].
  assert (Hx : In x (difference_str a b)) by (rewrite Hd; by left).
  apply Hspec in Hx as [Hx Hb]. by apply Hsub in Hx.
Qed.

Lemma set_index_image `{FloatRepr} (csv : DataFrame) (i : nat) :
  position "image" (columns csv) = Some i ->
  duplicated (map (fun r => nth i (snd r) (CFloat NaN)) (rows csv)) = [] ->
  mem_str "image" (columns csv) = true
  /\ set_index csv "image"
     = ret (mkFrame (remove_nth i (columns csv)) (remove_nth i (dtypes csv))
              (map (fun r => (nth i (snd r) (CFloat NaN), remove_nth i (snd r)))
                   (rows csv))).
Proof.
  intros Hpos Hdup. split.
  - apply mem_str_In. destruct (position_Some_nth _ _ _ Hpos) as [Hlt <-].
    by apply nth_In.
  - unfold set_index. by rewrite Hpos, Hdup.
Qed.

(** X14: a CSV that has an [image] column with distinct labels and lacks a
    category column is rejected with a [ScoreException] that lists the
    missing categories, each once and in ascending order, whether or not it
    also has columns that are not expected. *)
Theorem parseCsv_missing_columns `{FloatRepr} (csv : DataFrame) (i : nat) :
  position "image" (columns csv) = Some i ->
  duplicated (map (fun r => nth i (snd r) (CFloat NaN)) (rows csv)) = [] ->
  (exists category, In category CATEGORIES /\ ~ In category (columns csv)) ->
  exists missingColumns,
    parseCsv csv
    = raise ScoreException
        ("Missing columns in CSV: " ++ repr_list repr_str missingColumns ++ ".")
    /\ (forall category,
          In category missingColumns
          <-> In category CATEGORIES /\ ~ In category (columns csv))
    /\ Sorted str_le missingColumns
    /\ List.NoDup missingColumns.
Proof.
  intros Hpos Hdup (c & Hc & Hnot).
  destruct (set_index_image csv i Hpos Hdup) as [Hmem Hset].
  destruct (difference_str_spec CATEGORIES (remove_nth i (columns csv)))
    as (Hspec & Hsorted & Hnodup).
  assert (Hin : forall x, In x CATEGORIES ->
                  (In x (remove_nth i (columns csv)) <-> In x (columns csv))).
  { intros x Hx. split.
    - intros Hr. apply mem_str_In. apply mem_str_In in Hr.
      by apply mem_str_remove_nth in Hr.
    - intros Hcsv. apply mem_str_In, position_mem in Hcsv as [j Hj].
      destruct (position_remove_nth "image" x (columns csv) i j Hpos Hj
                  (category_not_image x Hx)) as (j' & Hj' & _).
      destruct (position_Some_nth _ _ _ Hj') as [Hlt <-]. by apply nth_In. }
  exists (difference_str CATEGORIES (remove_nth i (columns csv))).
  split; [|split; [|done]].
  - unfold parseCsv. rewrite Hmem. cbn [negb].
    rewrite Hset, result_bind_ret. cbn [columns].
    destruct (difference_str CATEGORIES (remove_nth i (columns csv)))
      as [|x l] eqn:Hd; [|reflexivity].
    exfalso. assert (Hx : In c []); [|done].
    apply Hspec. split; [done|]. by rewrite Hin.
  - intros x. rewrite Hspec. split; intros [Hx Hn]; (split; [done|]);
      by rewrite ?Hin in *.
Qed.

Lemma parseCsv_missing_columns_witness :
  exists missingColumns,
    parseCsv (mkFrame ["image"; "NV"; "MEL"; "extra"]
                      [object; float64; float64; float64] [])
    = raise ScoreException
        ("Missing columns in CSV: " ++ repr_list repr_str missingColumns ++ ".")
    /\ In "BCC" missingColumns
    /\ ~ In "NV" missingColumns.
Proof.
  assert (Hbcc : In "BCC" CATEGORIES
                 /\ ~ In "BCC" ["image"; "NV"; "MEL"; "extra"]).
  { split; [right; right; left; reflexivity|].
    intros [H1|[H1|[H1|[H1|[]]]]]; discriminate. }
  destruct (parseCsv_missing_columns
              (mkFrame ["image"; "NV"; "MEL"; "extra"]
                       [object; float64; float64; float64] []) 0%nat
              eq_refl eq_refl (ex_intro _ "BCC" Hbcc))
    as (M & Hparse & Hspec & _).
  exists M. split; [exact Hparse|]. split.
  - apply Hspec. exact Hbcc.
  - intros Hnv. apply Hspec in Hnv as [_ Hnot]. apply Hnot.
    right; left; reflexivity.
Defined.

Lemma In_remove_nth_incl {A} (i : nat) (l : list A) (x : A) :
  In x (remove_nth i l) -> In x l.
Proof.
  revert i. induction l as [|y l IH]; intros i Hx; [by destruct i|].
  destruct i as [|i]; cbn in Hx; [by right|].
  destruct Hx as [<-|Hx]; [by left | right; by apply (IH i)].
Qed.

Lemma In_remove_nth {A} (i : nat) (l : list A) (x d : A) :
  In x l -> x = nth i l d \/ In x (remove_nth i l).
Proof.
  revert i. induction l as [|y l IH]; intros i Hx; [done|].
  destruct i as [|i]; cbn.
  - destruct Hx as [<-|Hx]; [by left | by right].
  - destruct Hx as [<-|Hx]; [right; by left|].
    destruct (IH i Hx) as [->|Hr]; [by left | right; by right].
Qed.

Lemma nodup_remove_nth (a : string) (l : list string) (i : nat) :
  nodup_str l = true -> position a l = Some i -> ~ In a (remove_nth i l).
Proof.
  revert i. induction l as [|x l IH]; intros i Hnd Hp; [discriminate|].
  cbn in Hnd. apply andb_true_iff in Hnd as [Hx Hnd].
  cbn in Hp. destruct (String.eqb a x) eqn:Hax.
  - injection Hp as <-. apply String.eqb_eq in Hax. subst x. cbn.
    rewrite <- mem_str_In. by destruct (mem_str a l).
  - destruct (position a l) as [k|] eqn:Hk; [|discriminate].
    injection Hp as <-. cbn. intros [Heq|Hin].
    + subst x. by rewrite String.eqb_refl in Hax.
    + by apply (IH k Hnd).
Qed.

Lemma mem_cell_true (c : cell) (l : list cell) :
  mem_cell c l = true -> exists i b, l !! i = Some b /\ cell_eqb c b = true.
Proof.
  induction l as [|x l IH]; [discriminate|]. cbn. intros Hm.
  apply orb_true_iff in Hm as [Hx|Hl].
  - by exists O, x.
  - destruct (IH Hl) as (i & b & Hi & Hb). by exists (S i), b.
Qed.

Lemma unique_labels_duplicated (l : list cell) :
  unique_labels l -> duplicated l = [].
Proof.
  induction l as [|x l IH]; intros Hu; [done|]. cbn [duplicated].
  destruct (mem_cell x l) eqn:Hm.
  - apply mem_cell_true in Hm as (i & b & Hi & Hb).
    by specialize (Hu O (S i) x b eq_refl Hi Hb).
  - apply IH. intros i j a b Hi Hj Hab.
    by injection (Hu (S i) (S j) a b Hi Hj Hab).
Qed.

Lemma index_where_any_nil_intro (test : cell -> bool) (df : DataFrame) :
  (forall r, In r (rows df) -> forall c, In c (snd r) -> test c = false) ->
  index_where_any test df = [].
Proof.
  unfold index_where_any. intros Hall.
  induction (rows df) as [|r l IH]; [done|]. cbn [List.filter].
  assert (Hr : existsb test (snd r) = false).
  { destruct (existsb test (snd r)) eqn:He; [|done].
    apply existsb_exists in He as (c & Hc & Ht).
    rewrite (Hall r (or_introl eq_refl) c Hc) in Ht. discriminate. }
  rewrite Hr. apply IH. intros r' Hr'. apply Hall. by right.
Qed.

Lemma filter_combine_map_nil_intro {A B} (test : B -> bool) (g : A -> B)
    (l : list A) :
  (forall x, In x l -> test (g x) = false) ->
  List.filter (fun cd => test (snd cd)) (combine l (map g l)) = [].
Proof.
  induction l as [|y l IH]; intros Hall; [done|]. cbn.
  rewrite (Hall y (or_introl eq_refl)). apply IH.
  intros x Hx. apply Hall. by right.
Qed.

(** The entry that [reindex] picks for a category, once the [image] column
    at [i] has left the frame. *)
Lemma pick_indexed {A} (csv indexed : DataFrame) (i j : nat)
    (category : string) (l : list A) (d : A) :
  columns indexed = remove_nth i (columns csv) ->
  position "image" (columns csv) = Some i ->
  position category (columns csv) = Some j ->
  "image" <> category ->
  pick indexed (remove_nth i l) d category = nth j l d.
Proof.
  intros Hcols Hi Hj Hne. unfold pick. rewrite Hcols.
  destruct (position_remove_nth "image" category (columns csv) i j Hi Hj Hne)
    as (j' & -> & Hshift).
  by rewrite nth_remove_nth, Hshift.
Qed.

Lemma probability_checks (c : cell) :
  probability c ->
  is_null c = false /\ out_of_range c = false
  /\ cell_has_dtype c float64 = true.
Proof.
  intros (q & -> & H0 & H1). split; [done|]. split; [|done].
  cbn. apply Qle_bool_iff in H0, H1. by rewrite H0, H1.
Qed.

Lemma nil_length_check {A} (l : list A) :
  l = [] -> negb (Nat.eqb (length l) 0) = false.
Proof. by intros ->. Qed.

Section ParseCsvAccepts.
Context `{FloatRepr}.
Variable csv : DataFrame.
Hypothesis Hwf : wf_frame csv = true.

Lemma parseCsv_accepts_acceptable :
  acceptable csv -> exists table, parseCsv csv = ret table.
Proof using Hwf.
  intros ((keys & Hkeys & Hunique) & Hnames & Hcats).
  unfold wf_frame in Hwf. apply andb_true_iff in Hwf as [Hwf' _].
  apply andb_true_iff in Hwf' as [Hnodup _].
  unfold column_values in Hkeys.
  destruct (position "image" (columns csv)) as [i|] eqn:Hpos; [|discriminate].
  injection Hkeys as <-. apply unique_labels_duplicated in Hunique.
  destruct (set_index_image csv i Hpos Hunique) as [Hmem Hset].
  remember (mkFrame (remove_nth i (columns csv)) (remove_nth i (dtypes csv))
              (map (fun r => (nth i (snd r) (CFloat NaN), remove_nth i (snd r)))
                   (rows csv))) as indexed eqn:Hindexed.
  assert (Hcols : columns indexed = remove_nth i (columns csv))
    by (by rewrite Hindexed).
  assert (Hpick : forall category, In category CATEGORIES ->
            pick indexed (dtypes indexed) float64 category = float64
            /\ forall r, In r (rows indexed) ->
                 probability (pick indexed (snd r) (CFloat NaN) category)).
  { intros category Hcat.
    destruct (Hcats category Hcat) as (j & Hj & Hdtype & Hcells).
    pose proof (category_not_image category Hcat) as Hne.
    destruct (position_Some_nth _ _ _ Hj) as [Hlt _]. split.
    - rewrite Hindexed at 2. cbn [dtypes].
      rewrite (pick_indexed csv indexed i j category _ _ Hcols Hpos Hj Hne).
      destruct (lt_dec j (length (dtypes csv))) as [Hjd|Hjd].
      + by rewrite (nth_indep _ float64 object Hjd).
      + by rewrite nth_overflow by lia.
    - intros r Hr. rewrite Hindexed in Hr. cbn [rows] in Hr.
      apply in_map_iff in Hr as (r0 & <- & Hr0). cbn [snd].
      rewrite (pick_indexed csv indexed i j category _ _ Hcols Hpos Hj Hne).
      by apply Hcells. }
  assert (Hmissing : difference_str CATEGORIES (columns indexed) = []).
  { apply difference_str_nil_intro. intros category Hcat. rewrite Hcols.
    destruct (Hcats category Hcat) as (j & Hj & _).
    destruct (position_remove_nth "image" category (columns csv) i j Hpos Hj
                (category_not_image category Hcat)) as (j' & Hj' & _).
    destruct (position_Some_nth _ _ _ Hj') as [Hlt <-]. by apply nth_In. }
  assert (Hextra : difference_str (columns indexed) CATEGORIES = []).
  { apply difference_str_nil_intro. intros name Hname. rewrite Hcols in Hname.
    destruct (Hnames name (In_remove_nth_incl _ _ _ Hname)) as [->|Hc]; [|done].
    by apply (nodup_remove_nth "image" (columns csv) i Hnodup Hpos) in Hname. }
  assert (Hcells : forall r, In r (rows (reindex_columns indexed CATEGORIES)) ->
                   forall c, In c (snd r) -> probability c).
  { intros r Hr c Hc. cbn [rows reindex_columns] in Hr.
    apply in_map_iff in Hr as (r1 & <- & Hr1). cbn [snd] in Hc.
    apply in_map_iff in Hc as (category & <- & Hcat).
    by apply (Hpick category Hcat). }
  assert (Hnull : index_where_any is_null (reindex_columns indexed CATEGORIES) = []).
  { apply index_where_any_nil_intro. intros r Hr c Hc.
    by apply (probability_checks c (Hcells r Hr c Hc)). }
  assert (Hrange : index_where_any out_of_range
                     (reindex_columns indexed CATEGORIES) = []).
  { apply index_where_any_nil_intro. intros r Hr c Hc.
    by apply (probability_checks c (Hcells r Hr c Hc)). }
  assert (Hfloat : List.filter (fun cd : string * dtype =>
                                  negb (dtype_eqb (snd cd) float64))
                     (combine (columns (reindex_columns indexed CATEGORIES))
                              (dtypes (reindex_columns indexed CATEGORIES)))
                   = []).
  { cbn [columns dtypes reindex_columns].
    apply (filter_combine_map_nil_intro (fun d => negb (dtype_eqb d float64))).
    intros category Hcat. by rewrite (proj1 (Hpick category Hcat)). }
  exists (reindex_columns indexed CATEGORIES).
  unfold parseCsv. rewrite Hmem. cbn [negb].
  rewrite Hset, result_bind_ret.
  rewrite (nil_length_check _ Hmissing), (nil_length_check _ Hextra).
  rewrite (nil_length_check _ Hnull).
  rewrite Hfloat. cbn [map length Nat.eqb negb].
  by rewrite (nil_length_check _ Hrange).
Qed.

Lemma parseCsv_ret_acceptable (table : DataFrame) :
  parseCsv csv = ret table -> acceptable csv.
Proof using Hwf.
  intros Hparse.
  destruct (parseCsv_ret csv table Hparse)
    as (indexed & Hset & Hmissing & Hextra & Htable & Hnull & Hfloat & Hrange).
  destruct (set_index_ret csv indexed "image" Hset)
    as (i & Hpos & Hdup & Hindexed).
  unfold wf_frame in Hwf. apply andb_true_iff in Hwf as [Hwf' Hrows].
  apply andb_true_iff in Hwf' as [_ Hlen]. apply Nat.eqb_eq in Hlen.
  rewrite forallb_forall in Hrows.
  assert (Hcols : columns indexed = remove_nth i (columns csv))
    by (by rewrite Hindexed).
  split; [|split].
  - eexists. unfold column_values. rewrite Hpos. split; [reflexivity|].
    by apply duplicated_nil_unique.
  - intros name Hname.
    destruct (In_remove_nth i _ name "" Hname) as [->|Hr].
    + left. by destruct (position_Some_nth _ _ _ Hpos).
    + right. rewrite <- Hcols in Hr. apply mem_str_In.
      by apply (difference_str_nil _ _ Hextra).
  - intros category Hcat.
    pose proof (category_not_image category Hcat) as Hne.
    assert (Hin : mem_str category (columns csv) = true).
    { apply (mem_str_remove_nth category i). rewrite <- Hcols.
      by apply (difference_str_nil _ _ Hmissing). }
    apply position_mem in Hin as [j Hj]. exists j. split; [done|].
    destruct (position_Some_nth _ _ _ Hj) as [Hlt _].
    assert (Hdtype : nth j (dtypes csv) float64 = float64).
    { rewrite <- (pick_indexed csv indexed i j category (dtypes csv) float64
                    Hcols Hpos Hj Hne).
      replace (remove_nth i (dtypes csv)) with (dtypes indexed)
        by (by rewrite Hindexed).
      apply dtype_eqb_eq, negb_false_iff.
      rewrite Htable in Hfloat. cbn [columns dtypes reindex_columns] in Hfloat.
      by apply (filter_combine_map_nil
                  (fun d => negb (dtype_eqb d float64))
                  (pick indexed (dtypes indexed) float64) CATEGORIES Hfloat). }
    split.
    + rewrite <- Hdtype. apply nth_indep. lia.
    + intros r Hr.
      set (r' := (nth i (snd r) (CFloat NaN),
                  map (pick indexed (remove_nth i (snd r)) (CFloat NaN))
                      CATEGORIES)).
      assert (Hr' : In r' (rows table)).
      { rewrite Htable, Hindexed. cbn [rows reindex_columns].
        rewrite map_map. apply in_map_iff. exists r. split; [|done].
        unfold r'. cbn [fst snd]. by rewrite <- Hindexed. }
      assert (Hc : In (nth j (snd r) (CFloat NaN)) (snd r')).
      { unfold r'. cbn [snd]. apply in_map_iff. exists category.
        split; [|done]. by apply pick_indexed with (csv := csv). }
      apply probability_of_checks.
      * rewrite <- Hdtype. by apply row_has_dtypes_typed, Hrows.
      * by apply (index_where_any_nil _ _ Hnull r' Hr').
      * by apply (index_where_any_nil _ _ Hrange r' Hr').
Qed.
End ParseCsvAccepts.

(** X15: a frame as the CSV reader returns it is accepted by [parseCsv]
    exactly when it has an [image] column with distinct labels, no column
    besides [image] and the seven categories, and, for every category, a
    column of type [float64] in which every cell is a finite value between
    0.0 and 1.0. *)
Theorem parseCsv_accepts_iff `{FloatRepr} (csv : DataFrame) :
  wf_frame csv = true ->
  (exists table, parseCsv csv = ret table) <-> acceptable csv.
Proof.
  intros Hwf. split.
  - intros [table Hparse]. by apply parseCsv_ret_acceptable with (table := table).
  - by apply parseCsv_accepts_acceptable.
Qed.

Lemma parseCsv_accepts_iff_witness :
  wf_frame ExampleFrames.two_images = true
  /\ acceptable ExampleFrames.two_images.
Proof.
  split; [reflexivity|].
  apply (parseCsv_accepts_iff ExampleFrames.two_images eq_refl).
  destruct (parseCsv ExampleFrames.two_images) as [e|table] eqn:Hparse;
    [vm_compute in Hparse; discriminate|].
  by exists table.
Defined.


(** ** excludeRows, validateRows, sortRows *)

Lemma unique_cell_nil (l : list cell) : unique_cell l = [] -> l = [].
Proof.
  induction l as [|x l IH]; [done|]. cbn.
  destruct (mem_cell x l) eqn:Hm; [|discriminate].
  intros Hu. rewrite (IH Hu) in Hm. discriminate.
Qed.

Lemma unique_cell_incl (x : cell) (l : list cell) :
  In x (unique_cell l) -> In x l.
Proof.
  induction l as [|y l IH]; [done|]. cbn [unique_cell].
  destruct (mem_cell y l); [by right; apply IH|].
  intros [<-|Hx]; [by left | right; by apply IH].
Qed.

Lemma insert_cell_perm (x : cell) (l : list cell) :
  Permutation (x :: l) (insert_cell x l).
Proof.
  induction l as [|y l IH]; cbn; [reflexivity|].
  destruct (cell_leb x y); [reflexivity|].
  etransitivity; [apply perm_swap|]. by constructor.
Qed.

Lemma sorted_cells_perm (l : list cell) : Permutation l (sorted_cells l).
Proof.
  induction l as [|x l IH]; cbn; [reflexivity|].
  etransitivity; [|apply insert_cell_perm]. by constructor.
Qed.

Lemma filter_none {A} (test : A -> bool) (l : list A) :
  (forall x, In x l -> test x = false) -> List.filter test l = [].
Proof.
  induction l as [|x l IH]; intros Hall; [done|]. cbn.
  rewrite (Hall x (or_introl eq_refl)). apply IH.
  intros y Hy. apply Hall. by right.
Qed.

(** The labels that [difference_cell] lists are labels of [a] that are not
    in [b]; there is none exactly when every label of [a] is in [b]. *)
Lemma difference_cell_spec (a b : list cell) :
  (forall y, In y (difference_cell a b) -> In y a /\ mem_cell y b = false)
  /\ (difference_cell a b = [] <-> forall x, In x a -> mem_cell x b = true).
Proof.
  unfold difference_cell.
  set (f := List.filter (fun x => negb (mem_cell x b)) a).
  pose proof (sorted_cells_perm (unique_cell f)) as Hperm. split.
  - intros y Hy. apply (Permutation_in _ (Permutation_sym Hperm)) in Hy.
    apply unique_cell_incl, filter_In in Hy as [Hy Hb].
    split; [done | by apply negb_true_iff].
  - split.
    + intros Hnil x Hx. rewrite Hnil in Hperm.
      apply Permutation_nil_r, unique_cell_nil in Hperm.
      destruct (mem_cell x b) eqn:Hm; [done|].
      assert (Hin : In x f) by (apply filter_In; by rewrite Hm).
      rewrite Hperm in Hin. destruct Hin.
    + intros Hall. assert (Hf : f = []).
      { apply filter_none. intros x Hx. by rewrite (Hall x Hx). }
      by rewrite Hf.
Qed.

Lemma validateRows_same_labels `{FloatRepr} (truth prediction : DataFrame) :
  validateRows truth prediction = ret tt ->
  (forall x, In x (index truth) -> mem_cell x (index prediction) = true)
  /\ (forall x, In x (index prediction) -> mem_cell x (index truth) = true).
Proof.
  unfold validateRows.
  destruct (difference_cell_spec (index truth) (index prediction)) as [_ Hmiss].
  destruct (difference_cell_spec (index prediction) (index truth)) as [_ Hextra].
  destruct (difference_cell (index truth) (index prediction)) as [|m ms];
    [|discriminate].
  destruct (difference_cell (index prediction) (index truth)) as [|x xs];
    [|discriminate].
  intros _. split; [by apply Hmiss | by apply Hextra].
Qed.

(** X17: [validateRows] passes exactly when the two tables have the same
    row labels: every label of the truth table is a label of the
    prediction table, and the other way round. *)
Theorem validateRows_ok_iff `{FloatRepr} (truth prediction : DataFrame) :
  validateRows truth prediction = ret tt
  <-> (forall x, In x (index truth) -> mem_cell x (index prediction) = true)
      /\ (forall x, In x (index prediction) -> mem_cell x (index truth) = true).
Proof.
  unfold validateRows.
  destruct (difference_cell_spec (index truth) (index prediction)) as [_ Hmiss].
  destruct (difference_cell_spec (index prediction) (index truth)) as [_ Hextra].
  destruct (difference_cell (index truth) (index prediction)) as [|m ms] eqn:Hm.
  - destruct (difference_cell (index prediction) (index truth)) as [|x xs] eqn:Hx.
    + cbn. split; [|done]. intros _. split; [by apply Hmiss | by apply Hextra].
    + cbn. split; [discriminate|]. intros [_ Hall].
      by apply Hextra in Hall.
  - cbn. split; [discriminate|]. intros [Hall _]. by apply Hmiss in Hall.
Qed.

(** X18: when a label of the truth table is not in the prediction table,
    [validateRows] fails with the missing-images error, whose list holds
    only such labels, whether or not the prediction table has labels of
    its own; when none is missing and the prediction table has a label
    that is not in the truth table, it fails with the extra-images error,
    whose list holds only such labels. *)
Theorem validateRows_errors `{FloatRepr} (truth prediction : DataFrame) :
  ((exists x, In x (index truth) /\ mem_cell x (index prediction) = false) ->
   exists missingImages,
     validateRows truth prediction
     = raise ScoreException
         ("Missing images in CSV: " ++ repr_list repr_cell missingImages ++ ".")
     /\ missingImages <> []
     /\ forall y, In y missingImages ->
          In y (index truth) /\ mem_cell y (index prediction) = false)
  /\ ((forall x, In x (index truth) -> mem_cell x (index prediction) = true) ->
      (exists x, In x (index prediction) /\ mem_cell x (index truth) = false) ->
      exists extraImages,
        validateRows truth prediction
        = raise ScoreException
            ("Extra images in CSV: " ++ repr_list repr_cell extraImages ++ ".")
        /\ extraImages <> []
        /\ forall y, In y extraImages ->
             In y (index prediction) /\ mem_cell y (index truth) = false).
Proof.
  unfold validateRows.
  destruct (difference_cell_spec (index truth) (index prediction))
    as [Hmin Hmiss].
  destruct (difference_cell_spec (index prediction) (index truth))
    as [Hxin Hextra].
  split.
  - intros (x & Hx & Hb).
    exists (difference_cell (index truth) (index prediction)).
    destruct (difference_cell (index truth) (index prediction)) as [|m ms] eqn:Hm.
    + rewrite (proj1 Hmiss eq_refl x Hx) in Hb. discriminate.
    + split; [reflexivity|]. split; [discriminate | done].
  - intros Hall (x & Hx & Hb).
    exists (difference_cell (index prediction) (index truth)).
    rewrite (proj2 Hmiss Hall). cbn [length Nat.eqb negb].
    destruct (difference_cell (index prediction) (index truth)) as [|m ms] eqn:Hm.
    + rewrite (proj1 Hextra eq_refl x Hx) in Hb. discriminate.
    + split; [reflexivity|]. split; [discriminate | done].
Qed.

Lemma validateRows_errors_witness :
  exists truth prediction missingImages,
    parseCsv (ExampleFrames.with_excluded 1 0) = ret truth
    /\ parseCsv ExampleFrames.two_images = ret prediction
    /\ validateRows truth prediction
       = raise ScoreException
           ("Missing images in CSV: " ++ repr_list repr_cell missingImages ++ ".")
    /\ In (CStr "ISIC_0035068") (index truth)
    /\ missingImages <> [].
Proof.
  destruct (parseCsv (ExampleFrames.with_excluded 1 0)) as [e|truth] eqn:Ht;
    [vm_compute in Ht; discriminate|].
  destruct (parseCsv ExampleFrames.two_images) as [e|prediction] eqn:Hp;
    [vm_compute in Hp; discriminate|].
  assert (Hin : In (CStr "ISIC_0035068") (index truth)
                /\ mem_cell (CStr "ISIC_0035068") (index prediction) = false).
  { vm_compute in Ht, Hp. injection Ht as <-. injection Hp as <-.
    split; [right; left; reflexivity | reflexivity]. }
  destruct (validateRows_errors truth prediction) as [Hmissing _].
  destruct (Hmissing (ex_intro _ (CStr "ISIC_0035068") Hin))
    as (missingImages & Hraise & Hne & _).
  exists truth, prediction, missingImages.
  split; [reflexivity|]. split; [reflexivity|]. split; [exact Hraise|].
  split; [exact (proj1 Hin) | exact Hne].
Defined.

(** X19: [excludeRows] keeps the rows whose label is not among [labels],
    in their order, and drops the others; it changes nothing when no row
    has such a label, and excluding twice is excluding once. *)
Theorem excludeRows_spec (df : DataFrame) (labels : list cell) :
  (forall r, In r (rows (excludeRows df labels))
             <-> In r (rows df) /\ mem_cell (fst r) labels = false)
  /\ ((forall r, In r (rows df) -> mem_cell (fst r) labels = false) ->
      excludeRows df labels = df)
  /\ excludeRows (excludeRows df labels) labels = excludeRows df labels
  /\ columns (excludeRows df labels) = columns df.
Proof.
  unfold excludeRows, drop_index. cbn [rows columns dtypes].
  split; [|split; [|split; [|done]]].
  - intros r. rewrite filter_In. by rewrite negb_true_iff.
  - intros Hall. destruct df as [cs ds rs]. cbn in *. f_equal.
    induction rs as [|r rs IH]; [done|]. cbn.
    rewrite (Hall r (or_introl eq_refl)). cbn. f_equal.
    apply IH. intros r' Hr'. apply Hall. by right.
  - f_equal. induction (rows df) as [|r rs IH]; [done|]. cbn.
    destruct (mem_cell (fst r) labels) eqn:Hm; cbn; [done|].
    by rewrite Hm, IH.
Qed.

Lemma excludeRows_spec_witness :
  exists table,
    parseCsv ExampleFrames.two_images = ret table
    /\ excludeRows table EXCLUDE_LABELS = table.
Proof.
  destruct (parseCsv ExampleFrames.two_images) as [e|table] eqn:Hp;
    [vm_compute in Hp; discriminate|].
  exists table. split; [reflexivity|].
  destruct (excludeRows_spec table EXCLUDE_LABELS) as (_ & Hnoop & _).
  apply Hnoop. vm_compute in Hp. injection Hp as <-.
  intros r [<-|[<-|[]]]; reflexivity.
Defined.

Lemma Qle_bool_total (p q : Q) : Qle_bool p q = true \/ Qle_bool q p = true.
Proof.
  destruct (Qlt_le_dec p q) as [Hlt|Hle].
  - left. apply Qle_bool_iff. by apply Qlt_le_weak.
  - right. by apply Qle_bool_iff.
Qed.

Lemma pyfloat_leb_total (x y : pyfloat) :
  x <> NaN -> y <> NaN -> pyfloat_leb x y = true \/ pyfloat_leb y x = true.
Proof.
  intros Hx Hy. destruct x as [| | |p], y as [| | |q]; try done; cbn;
    try (by left); try (by right).
  apply Qle_bool_total.
Qed.

Lemma cell_number_not_nan (c : cell) (x : pyfloat) :
  is_null c = false -> cell_number c = Some x -> x <> NaN.
Proof.
  destruct c as [y| | |]; cbn; intros Hn Hc; try discriminate;
    injection Hc as <-; try done.
  by destruct y.
Qed.

(** Any two labels are ordered one way or the other. *)
Lemma cell_leb_total (a b : cell) : cell_leb a b = true \/ cell_leb b a = true.
Proof.
  unfold cell_leb.
  destruct (is_null b) eqn:Hb; [by left|].
  destruct (is_null a) eqn:Ha; [by right|].
  destruct (cell_number a) as [x|] eqn:Hx, (cell_number b) as [y|] eqn:Hy.
  - apply pyfloat_leb_total;
      [exact (cell_number_not_nan a x Ha Hx) | exact (cell_number_not_nan b y Hb Hy)].
  - by left.
  - by right.
  - destruct a, b; try discriminate; try (by left). apply String.leb_total.
Qed.

Lemma insert_row_perm (x : cell * list cell) (l : list (cell * list cell)) :
  Permutation (x :: l) (insert_row x l).
Proof.
  induction l as [|y l IH]; cbn; [reflexivity|].
  destruct (cell_leb (fst x) (fst y)); [reflexivity|].
  etransitivity; [apply perm_swap|]. by constructor.
Qed.

Lemma insert_row_Sorted (x : cell * list cell) (l : list (cell * list cell)) :
  Sorted row_le l -> Sorted row_le (insert_row x l).
Proof.
  induction l as [|y l IH]; intros Hs; cbn.
  - repeat constructor.
  - destruct (cell_leb (fst x) (fst y)) eqn:Hxy.
    + constructor; [done | by constructor].
    + inversion Hs as [|? ? Hl Hhd]; subst.
      constructor; [by apply IH|].
      assert (Hyx : row_le y x).
      { destruct (cell_leb_total (fst x) (fst y)) as [Hle|Hle]; [congruence | done]. }
      destruct l as [|z l]; cbn; [by constructor|].
      destruct (cell_leb (fst x) (fst z)); constructor; [done|].
      by inversion Hhd.
Qed.

(** X20: [sortRows] rearranges the rows of the table, none lost and none
    added, into ascending order of their labels, and leaves the columns and
    their types as they are. *)
Theorem sortRows_sorted (df : DataFrame) :
  Permutation (rows df) (rows (sortRows df))
  /\ Sorted row_le (rows (sortRows df))
  /\ columns (sortRows df) = columns df
  /\ dtypes (sortRows df) = dtypes df.
Proof.
  unfold sortRows, sort_index. cbn [rows columns dtypes].
  split; [|split; [|done]].
  - induction (rows df) as [|r l IH]; cbn; [reflexivity|].
    etransitivity; [|apply insert_row_perm]. by constructor.
  - induction (rows df) as [|r l IH]; cbn; [constructor|].
    by apply insert_row_Sorted.
Qed.

(** *** Sorting aligns the two tables *)

Lemma str_le_trans (s1 s2 s3 : string) :
  str_le s1 s2 -> str_le s2 s3 -> str_le s1 s3.
Proof.
  unfold str_le, String.leb. revert s2 s3.
  induction s1 as [|a1 s1 IH]; intros [|a2 s2] [|a3 s3];
    cbn [String.compare]; try done.
  unfold Ascii.compare.
  destruct (N.compare_spec (N_of_ascii a1) (N_of_ascii a2)) as [E12|L12|G12];
    destruct (N.compare_spec (N_of_ascii a2) (N_of_ascii a3)) as [E23|L23|G23];
    destruct (N.compare_spec (N_of_ascii a1) (N_of_ascii a3)) as [E13|L13|G13];
    try done; try lia.
  apply IH.
Qed.

Lemma str_le_transitive : RelationClasses.Transitive str_le.
Proof. intros x y z. apply str_le_trans. Qed.

(** Two ascending lists with the same elements are equal. *)
Lemma StronglySorted_perm_eq (l1 l2 : list string) :
  StronglySorted str_le l1 -> StronglySorted str_le l2 ->
  Permutation l1 l2 -> l1 = l2.
Proof.
  revert l2. induction l1 as [|a l1 IH]; intros l2 H1 H2 Hperm.
  - by apply Permutation_nil in Hperm.
  - destruct l2 as [|b l2];
      [by apply Permutation_sym, Permutation_nil in Hperm|].
    inversion H1 as [|? ? Hs1 Ha]; subst.
    inversion H2 as [|? ? Hs2 Hb]; subst.
    rewrite List.Forall_forall in Ha, Hb.
    assert (Hab : a = b).
    { assert (Hin_a : In a (b :: l2))
        by (apply (Permutation_in _ Hperm); by left).
      assert (Hin_b : In b (a :: l1))
        by (apply (Permutation_in _ (Permutation_sym Hperm)); by left).
      destruct Hin_a as [->|Hin_a]; [done|].
      destruct Hin_b as [->|Hin_b]; [done|].
      apply String.leb_antisym; [by apply Ha | by apply Hb]. }
    subst b. f_equal. apply IH; [done..|].
    by apply Permutation_cons_inv in Hperm.
Qed.

Lemma sorted_perm_eq (l1 l2 : list string) :
  Permutation l1 l2 -> sorted l1 = sorted l2.
Proof.
  intros Hperm. apply StronglySorted_perm_eq.
  - apply Sorted_StronglySorted; [apply str_le_transitive | apply sorted_Sorted].
  - apply Sorted_StronglySorted; [apply str_le_transitive | apply sorted_Sorted].
  - etransitivity; [apply Permutation_sym, sorted_perm|].
    etransitivity; [exact Hperm | apply sorted_perm].
Qed.

Lemma index_insert_row (x : cell * list cell) (l : list (cell * list cell)) :
  map fst (insert_row x l) = insert_cell (fst x) (map fst l).
Proof.
  induction l as [|y l IH]; [done|]. cbn.
  destruct (cell_leb (fst x) (fst y)); [done|]. cbn. by rewrite IH.
Qed.

(** The labels of a sorted table are the sorted labels. *)
Lemma index_sortRows (df : DataFrame) :
  index (sortRows df) = sorted_cells (index df).
Proof.
  unfold index, sortRows, sort_index. cbn [rows].
  induction (rows df) as [|r l IH]; [done|]. cbn.
  by rewrite index_insert_row, IH.
Qed.

Lemma insert_cell_CStr (x : string) (l : list string) :
  insert_cell (CStr x) (map CStr l) = map CStr (insert_sorted x l).
Proof.
  induction l as [|y l IH]; [done|]. cbn [map insert_cell insert_sorted].
  change (cell_leb (CStr x) (CStr y)) with (String.leb x y).
  destruct (String.leb x y); [done|]. cbn [map]. by rewrite IH.
Qed.

Lemma sorted_cells_CStr (l : list string) :
  sorted_cells (map CStr l) = map CStr (sorted l).
Proof.
  induction l as [|x l IH]; [done|]. cbn. unfold sorted_cells in IH.
  by rewrite IH, insert_cell_CStr.
Qed.

Lemma mem_cell_CStr (x : string) (l : list string) :
  mem_cell (CStr x) (map CStr l) = true <-> In x l.
Proof.
  induction l as [|y l IH]; [done|]. cbn.
  rewrite orb_true_iff, String.eqb_eq. unfold mem_cell in IH. rewrite IH.
  split; intros [->|Hin]; auto.
Qed.

(** X21: when the labels of both tables are strings, without repetition,
    and [validateRows] passes, [sortRows] brings the two tables into the
    same order: after sorting, the two sequences of row labels are equal,
    so the rows are compared label by label. *)
Theorem sortRows_aligns `{FloatRepr} (truth prediction : DataFrame)
    (truthNames predictionNames : list string) :
  index truth = map CStr truthNames ->
  index prediction = map CStr predictionNames ->
  List.NoDup truthNames ->
  List.NoDup predictionNames ->
  validateRows truth prediction = ret tt ->
  index (sortRows truth) = index (sortRows prediction).
Proof.
  intros Ht Hp Hnt Hnp Hvalid.
  apply validateRows_same_labels in Hvalid as [Htp Hpt].
  rewrite !index_sortRows, Ht, Hp, !sorted_cells_CStr. f_equal.
  apply sorted_perm_eq.
  apply Permutation.NoDup_Permutation; [exact Hnt | exact Hnp |].
  intros x. split; intros Hx.
  - apply mem_cell_CStr. rewrite <- Hp. apply Htp. rewrite Ht.
    by apply in_map.
  - apply mem_cell_CStr. rewrite <- Ht. apply Hpt. rewrite Hp.
    by apply in_map.
Qed.

Lemma sortRows_aligns_witness :
  exists truth prediction,
    parseCsv ExampleFrames.two_images = ret truth
    /\ parseCsv ExampleFiles.two_images_reversed = ret prediction
    /\ index truth <> index prediction
    /\ index (sortRows truth) = index (sortRows prediction).
Proof.
  eexists. eexists.
  split; [vm_compute; reflexivity|]. split; [vm_compute; reflexivity|].
  split; [discriminate|].
  apply (sortRows_aligns _ _ ["ISIC_0000002"; "ISIC_0000001"]
                             ["ISIC_0000001"; "ISIC_0000002"]).
  - reflexivity.
  - reflexivity.
  - repeat (apply List.NoDup_cons; [cbn; intuition discriminate|]).
    apply List.NoDup_nil.
  - repeat (apply List.NoDup_cons; [cbn; intuition discriminate|]).
    apply List.NoDup_nil.
  - vm_compute. reflexivity.
Defined.

(** ** scoreP3 and ensureManuscript *)

Lemma find_first {A} (test : A -> bool) (pre : list A) (x : A) (post : list A) :
  List.Forall (fun y => test y = false) pre -> test x = true ->
  List.find test (pre ++ x :: post) = Some x.
Proof.
  intros Hpre Hx. induction Hpre as [|y pre Hy _ IH]; cbn.
  - by rewrite Hx.
  - by rewrite Hy.
Qed.

Lemma find_none {A} (test : A -> bool) (l : list A) :
  List.Forall (fun y => test y = false) l -> List.find test l = None.
Proof.
  intros Hl. induction Hl as [|y l Hy _ IH]; cbn; [done|]. by rewrite Hy.
Qed.

Lemma filter_single {A} (test : A -> bool) (pre : list A) (x : A)
    (post : list A) :
  List.Forall (fun y => test y = false) pre -> test x = true ->
  List.Forall (fun y => test y = false) post ->
  List.filter test (pre ++ x :: post) = [x].
Proof.
  intros Hpre Hx Hpost. rewrite List.filter_app. cbn. rewrite Hx.
  rewrite !filter_none; [done|..]; by apply List.Forall_forall.
Qed.

Lemma filter_two {A} (test : A -> bool) (a : list A) (p : A) (b : list A)
    (q : A) (c : list A) :
  test p = true -> test q = true ->
  (1 < length (List.filter test (a ++ p :: b ++ q :: c)))%nat.
Proof.
  intros Hp Hq. rewrite List.filter_app. cbn. rewrite Hp.
  rewrite List.filter_app. cbn. rewrite Hq.
  rewrite length_app. cbn. rewrite length_app. cbn. lia.
Qed.

(** A list in which exactly one element passes a test. *)
Lemma filter_length_one {A} (test : A -> bool) (l : list A) :
  length (List.filter test l) = 1%nat
  <-> exists pre x post,
        l = (pre ++ x :: post)%list
        /\ List.Forall (fun y => test y = false) pre
        /\ test x = true
        /\ List.Forall (fun y => test y = false) post.
Proof.
  split.
  - induction l as [|y l IH]; [discriminate|]. cbn.
    destruct (test y) eqn:Hy.
    + cbn. intros Hlen. exists [], y, l. split; [done|].
      split; [constructor|]. split; [done|].
      apply List.Forall_forall. intros z Hz.
      destruct (test z) eqn:Htz; [|done].
      assert (Hin : In z (List.filter test l)) by (by apply filter_In).
      destruct (List.filter test l); [done | discriminate].
    + intros Hlen. destruct (IH Hlen) as (pre & x & post & -> & Hpre & Hx & Hpost).
      exists (y :: pre), x, post. split; [done|].
      split; [by constructor | done].
  - intros (pre & x & post & -> & Hpre & Hx & Hpost).
    by rewrite filter_single.
Qed.

(** X22: [scoreP3] takes the first name of the truth directory that
    matches the ground-truth pattern, and fails with the internal error
    when none does, whatever the prediction directory holds; with a truth
    file it fails when the prediction directory has no file, or more than
    one file, with the suffix [.csv] in any letter case, and otherwise
    scores the truth file against the one such file. *)
Theorem scoreP3_selection `{FloatRepr} `{MetricsModule} (w : csv_world)
    (truthPath predictionPath : string) :
  (List.Forall (fun n => matches_truth_pattern n = false)
               (iterdir w truthPath) ->
   scoreP3 w truthPath predictionPath
   = raise ScoreException "Internal error, truth file could not be found.")
  /\ (forall pre truthFile post,
        iterdir w truthPath = (pre ++ truthFile :: post)%list ->
        List.Forall (fun n => matches_truth_pattern n = false) pre ->
        matches_truth_pattern truthFile = true ->
        (List.Forall (fun n => has_suffix ".csv" n = false)
                     (iterdir w predictionPath) ->
         scoreP3 w truthPath predictionPath
         = raise ScoreException
             "No prediction files submitted. Exactly one CSV file should be submitted.")
        /\ (forall a p b q c,
              iterdir w predictionPath = (a ++ p :: b ++ q :: c)%list ->
              has_suffix ".csv" p = true -> has_suffix ".csv" q = true ->
              scoreP3 w truthPath predictionPath
              = raise ScoreException
                  "Multiple prediction files submitted. Exactly one CSV file should be submitted.")
        /\ (forall a predictionFile b,
              iterdir w predictionPath = (a ++ predictionFile :: b)%list ->
              List.Forall (fun n => has_suffix ".csv" n = false) a ->
              has_suffix ".csv" predictionFile = true ->
              List.Forall (fun n => has_suffix ".csv" n = false) b ->
              scoreP3 w truthPath predictionPath
              = computeMetrics
                  (read_csv w (path_join truthPath truthFile))
                  (read_csv w (path_join predictionPath predictionFile)))).
Proof.
  unfold scoreP3. split.
  - intros Hnone. by rewrite (find_none _ _ Hnone).
  - intros pre truthFile post -> Hpre Htruth.
    rewrite (find_first _ _ _ _ Hpre Htruth). split; [|split].
    + intros Hnone. rewrite filter_none; [done|].
      by apply List.Forall_forall.
    + intros a p b q c -> Hp Hq.
      pose proof (filter_two (has_suffix ".csv") a p b q c Hp Hq) as Hlen.
      apply Nat.ltb_lt in Hlen. by rewrite Hlen.
    + intros a predictionFile b -> Ha Hp Hb.
      by rewrite (filter_single _ _ _ _ Ha Hp Hb).
Qed.

Lemma scoreP3_selection_witness :
  scoreP3 ExampleFiles.submission "truth" "prediction"
  = computeMetrics ExampleFrames.two_images ExampleFiles.two_images_reversed.
Proof.
  destruct (scoreP3_selection ExampleFiles.submission "truth" "prediction")
    as [_ Hfound].
  destruct (Hfound ["readme.txt"] "ISIC2018_Task3_Test_GroundTruth.csv" []
              eq_refl) as (_ & _ & Hone).
  - repeat constructor.
  - reflexivity.
  - apply (Hone ["manuscript.pdf"] "Predictions.CSV" [] eq_refl).
    + repeat constructor.
    + reflexivity.
    + constructor.
Defined.

(** X25: [ensureManuscript] passes exactly when one name of the prediction
    directory, and no other, has the suffix [.pdf] in any letter case. *)
Theorem ensureManuscript_ok_iff (w : csv_world) (predictionPath : string) :
  ensureManuscript w predictionPath = ret tt
  <-> exists pre manuscript post,
        iterdir w predictionPath = (pre ++ manuscript :: post)%list
        /\ List.Forall (fun n => has_suffix ".pdf" n = false) pre
        /\ has_suffix ".pdf" manuscript = true
        /\ List.Forall (fun n => has_suffix ".pdf" n = false) post.
Proof.
  rewrite <- filter_length_one. unfold ensureManuscript.
  set (n := length (List.filter (has_suffix ".pdf") (iterdir w predictionPath))).
  destruct (1 <? n)%nat eqn:H1.
  - apply Nat.ltb_lt in H1. split; [discriminate | lia].
  - apply Nat.ltb_ge in H1. destruct (n <? 1)%nat eqn:H0.
    + apply Nat.ltb_lt in H0. split; [discriminate | lia].
    + apply Nat.ltb_ge in H0. split; [lia | done].
Qed.

(** *** File names: suffixes and the ground-truth pattern *)

Lemma append_cons (c : ascii) (a b : string) :
  String c a ++ b = String c (a ++ b).
Proof. reflexivity. Qed.

Lemma append_nil_r (a : string) : a ++ "" = a.
Proof. induction a as [|c a IH]; [done|]. by rewrite append_cons, IH. Qed.

Lemma append_assoc (a b c : string) : (a ++ b) ++ c = a ++ (b ++ c).
Proof. induction a as [|d a IH]; [done|]. by rewrite !append_cons, IH. Qed.

Lemma length_append (a b : string) :
  String.length (a ++ b) = (String.length a + String.length b)%nat.
Proof.
  induction a as [|c a IH]; [done|]. rewrite append_cons. cbn. by rewrite IH.
Qed.

Lemma substring_all (s : string) : String.substring 0 (String.length s) s = s.
Proof. induction s as [|c s IH]; [done|]. cbn. by rewrite IH. Qed.

Lemma substring_app_l (a b : string) :
  String.substring 0 (String.length a) (a ++ b) = a.
Proof.
  induction a as [|c a IH]; [by destruct b|]. rewrite append_cons. cbn.
  by rewrite IH.
Qed.

Lemma substring_app_r (a b : string) (n : nat) :
  String.substring (String.length a) n (a ++ b) = String.substring 0 n b.
Proof. induction a as [|c a IH]; [done|]. rewrite append_cons. by cbn. Qed.

Lemma substring_split (s : string) (k : nat) :
  (k <= String.length s)%nat ->
  s = String.substring 0 k s ++ String.substring k (String.length s - k) s.
Proof.
  revert k. induction s as [|c s IH]; intros k Hk.
  - by destruct k.
  - destruct k as [|k].
    + cbn [String.substring String.length Nat.sub].
      change (String.substring 0 0 (String c s)) with EmptyString.
      by rewrite substring_all.
    + cbn in Hk. cbn [String.substring String.length Nat.sub].
      rewrite append_cons. f_equal. apply IH. lia.
Qed.

(** [endswith] decides whether the string ends with [e]. *)
Lemma endswith_spec (e s : string) :
  endswith e s = true <-> exists a, s = a ++ e.
Proof.
  unfold endswith. rewrite andb_true_iff, Nat.leb_le, String.eqb_eq. split.
  - intros [Hlen Hsub].
    exists (String.substring 0 (String.length s - String.length e) s).
    assert (Hk : (String.length s - String.length e <= String.length s)%nat)
      by lia.
    pose proof (substring_split s _ Hk) as Hsplit.
    replace (String.length s - (String.length s - String.length e))%nat
      with (String.length e) in Hsplit by lia.
    by rewrite Hsub in Hsplit.
  - intros [a ->]. rewrite length_append. split; [lia|].
    replace (String.length a + String.length e - String.length e)%nat
      with (String.length a) by lia.
    by rewrite substring_app_r, substring_all.
Qed.

Lemma rfind_none (c : ascii) (s : string) :
  rfind c s = None <-> has_char c s = false.
Proof.
  induction s as [|d s IH]; [done|]. cbn.
  destruct (rfind c s) as [i|].
  - split; [discriminate|]. intros Hf. apply orb_false_iff in Hf as [_ Hf].
    by apply IH in Hf.
  - rewrite (proj1 IH eq_refl), orb_false_r.
    by destruct (Ascii.eqb d c).
Qed.

(** [rfind] finds the last occurrence. *)
Lemma rfind_spec (c : ascii) (s : string) (i : nat) :
  rfind c s = Some i
  <-> exists a b, s = a ++ String c b
                  /\ String.length a = i /\ has_char c b = false.
Proof.
  revert i. induction s as [|d s IH]; intros i.
  - split; [discriminate|]. intros (a & b & Ha & _). by destruct a.
  - cbn [rfind]. destruct (rfind c s) as [j|] eqn:Hj.
    + split.
      * intros Hi. injection Hi as <-.
        destruct (proj1 (IH j) eq_refl) as (a & b & -> & Hlen & Hb).
        exists (String d a), b. rewrite append_cons. cbn. by rewrite Hlen.
      * intros (a & b & Hs & Hlen & Hb).
        destruct a as [|d' a].
        -- cbn in Hs. injection Hs as -> ->. apply rfind_none in Hb. congruence.
        -- rewrite append_cons in Hs. injection Hs as -> ->.
           cbn in Hlen. subst i.
           assert (Hj' : Some j = Some (String.length a)).
           { apply IH. by exists a, b. }
           injection Hj' as ->. reflexivity.
    + apply rfind_none in Hj. split.
      * destruct (Ascii.eqb d c) eqn:Hd; [|discriminate].
        intros Hi. injection Hi as <-. apply Ascii.eqb_eq in Hd. subst d.
        by exists "", s.
      * intros (a & b & Hs & Hlen & Hb). destruct a as [|d' a].
        -- cbn in Hs. injection Hs as -> ->. cbn in Hlen. subst i.
           by rewrite Ascii.eqb_refl.
        -- rewrite append_cons in Hs. injection Hs as -> ->.
           rewrite has_char_app in Hj. cbn in Hj.
           rewrite Ascii.eqb_refl, orb_true_r in Hj. discriminate.
Qed.

(** The suffix of a name is the part from its last dot on, when neither
    the part before the dot nor the part after it is empty. *)
Lemma suffix_spec (name s : string) :
  s <> "" ->
  suffix name = s
  <-> exists stem ext,
        name = stem ++ "." ++ ext
        /\ stem <> "" /\ ext <> ""
        /\ has_char "." ext = false
        /\ s = "." ++ ext.
Proof.
  intros Hs. unfold suffix. destruct (rfind "." name) as [i|] eqn:Hi.
  - apply rfind_spec in Hi as (a & b & Hname & Hlen & Hb).
    assert (Hsub : String.substring i (String.length name - i) name
                   = "." ++ b).
    { rewrite Hname, length_append, <- Hlen.
      replace (String.length a + String.length (String "." b)
               - String.length a)%nat
        with (String.length (String "." b)) by lia.
      by rewrite substring_app_r, substring_all. }
    assert (Hcond : (0 <? i)%nat && (i <? String.length name - 1)%nat = true
                    <-> a <> "" /\ b <> "").
    { rewrite Hname, length_append, <- Hlen. cbn [String.length].
      rewrite andb_true_iff, !Nat.ltb_lt.
      destruct a, b; cbn [String.length]; split; intros [H1 H2];
        split; try done; lia. }
    split.
    + destruct ((0 <? i)%nat && (i <? String.length name - 1)%nat) eqn:Hc;
        [|by intros <-].
      intros <-. exists a, b. destruct (proj1 Hcond eq_refl) as [Ha Hb'].
      by rewrite Hsub.
    + intros (stem & ext & Hname' & Hstem & Hext & Hdot & ->).
      assert (Hi' : rfind "." name = Some (String.length stem)).
      { apply rfind_spec. by exists stem, ext. }
      assert (Hi'' : rfind "." name = Some i).
      { apply rfind_spec. by exists a, b. }
      rewrite Hi' in Hi''. injection Hi'' as Heq.
      assert (Hab : a = stem /\ b = ext).
      { rewrite Hname in Hname'. clear -Hname' Hlen Heq.
        subst i. revert stem Heq Hname'.
        induction a as [|d a IH]; intros [|d' stem] Heq Hname';
          try discriminate.
        - cbn in Hname'. by injection Hname' as ->.
        - rewrite !append_cons in Hname'. injection Hname' as -> Hname'.
          cbn in Heq. injection Heq as Heq.
          destruct (IH stem Heq Hname') as [-> ->]. done. }
      destruct Hab as [-> ->].
      by rewrite (proj2 Hcond (conj Hstem Hext)).
  - split; [by intros <-|].
    intros (stem & ext & -> & _). apply rfind_none in Hi.
    rewrite has_char_app in Hi. cbn in Hi. by rewrite orb_true_r in Hi.
Qed.

Lemma lower_cons (c : ascii) (s : string) :
  lower (String c s) = String (lower_ascii c) (lower s).
Proof. reflexivity. Qed.

(** X23: a file name counts as a file of the extension [e], for the
    prediction CSV of [scoreP3] and for the manuscript PDF of
    [ensureManuscript], exactly when it is [stem.ext] with a non-empty
    stem, an [ext] without a dot, and [ext] in lower case equal to [e]; so
    the letter case of the extension does not matter, and a name that
    begins with its only dot, or ends with a dot, does not count. *)
Theorem has_suffix_iff (e name : string) :
  has_suffix ("." ++ e) name = true
  <-> exists stem ext,
        name = stem ++ "." ++ ext
        /\ stem <> "" /\ ext <> ""
        /\ has_char "." ext = false
        /\ lower ext = e.
Proof.
  unfold has_suffix. rewrite String.eqb_eq. split.
  - intros Hlower. destruct (suffix name) as [|c s] eqn:Hs; [discriminate|].
    apply suffix_spec in Hs as (stem & ext & Hname & Hstem & Hext & Hdot & Heq);
      [|discriminate].
    exists stem, ext. rewrite Heq in Hlower.
    change ("." ++ ext) with (String "." ext) in Hlower.
    rewrite lower_cons in Hlower. by injection Hlower.
  - intros (stem & ext & Hname & Hstem & Hext & Hdot & <-).
    assert (Hs : suffix name = "." ++ ext).
    { apply suffix_spec; [discriminate|]. by exists stem, ext. }
    by rewrite Hs.
Qed.

Lemma append_split_suffix (a x y e : string) :
  a ++ x = y ++ e -> (String.length a <= String.length y)%nat ->
  exists m, x = m ++ e.
Proof.
  revert y. induction a as [|c a IH]; intros y Heq Hlen.
  - by exists y.
  - destruct y as [|d y]; [cbn in Hlen; lia|].
    rewrite !append_cons in Heq. injection Heq as _ Heq.
    apply (IH y Heq). cbn in Hlen. lia.
Qed.

(** The names that the pattern matches, when nothing follows the final
    [GroundTruth.csv]. *)
Lemma truth_pattern_body (body : string) :
  startswith "ISIC" body
  && endswith "GroundTruth.csv" body
  && (19 <=? String.length body)%nat
  && negb (has_char line_feed body) = true
  <-> exists middle,
        body = "ISIC" ++ middle ++ "GroundTruth.csv"
        /\ has_char line_feed middle = false.
Proof.
  rewrite !andb_true_iff, startswith_spec, endswith_spec, Nat.leb_le,
    negb_true_iff.
  split.
  - intros [[[[x Hx] [y Hy]] Hlen] Hlf].
    assert (Hy' : String.length y = (String.length body - 15)%nat).
    { rewrite Hy, length_append. cbn. lia. }
    destruct (append_split_suffix "ISIC" x y "GroundTruth.csv") as [m Hm].
    { by rewrite <- Hx, <- Hy. }
    { cbn. lia. }
    exists m. split; [by rewrite Hx, Hm|].
    rewrite Hx, Hm, !has_char_app in Hlf.
    apply orb_false_iff in Hlf as [_ Hlf].
    by apply orb_false_iff in Hlf as [Hlf _].
  - intros (middle & -> & Hlf). split; [split; [split|]|].
    + by exists (middle ++ "GroundTruth.csv").
    + exists ("ISIC" ++ middle). by rewrite append_assoc.
    + rewrite !length_append. cbn. lia.
    + rewrite !has_char_app, Hlf. reflexivity.
Qed.

(** X24: the ground-truth file of [scoreP3] is a name that begins with
    [ISIC] and ends with [GroundTruth.csv], the two not overlapping and no
    line feed between them; a single line feed after [GroundTruth.csv] is
    let through. *)
Theorem matches_truth_pattern_iff (name : string) :
  matches_truth_pattern name = true
  <-> exists middle tail,
        name = "ISIC" ++ middle ++ "GroundTruth.csv" ++ tail
        /\ has_char line_feed middle = false
        /\ (tail = "" \/ tail = String line_feed "").
Proof.
  unfold matches_truth_pattern.
  destruct (endswith (String line_feed "") name) eqn:Hend.
  - apply endswith_spec in Hend as [body ->].
    assert (Hbody : String.substring 0
                      (String.length (body ++ String line_feed "") - 1)
                      (body ++ String line_feed "") = body).
    { rewrite length_append. cbn [String.length].
      replace (String.length body + 1 - 1)%nat with (String.length body) by lia.
      apply substring_app_l. }
    rewrite Hbody, truth_pattern_body. split.
    + intros (middle & -> & Hlf). exists middle, (String line_feed "").
      split; [by rewrite !append_assoc|]. split; [done | by right].
    + intros (middle & tail & Hname & Hlf & [->| ->]).
      * exfalso. rewrite append_nil_r in Hname.
        assert (Hhas : has_char line_feed (body ++ String line_feed "") = true).
        { rewrite has_char_app. cbn. by rewrite Ascii.eqb_refl, orb_true_r. }
        rewrite Hname, !has_char_app, Hlf in Hhas. discriminate.
      * exists middle. split; [|done].
        rewrite <- !append_assoc in Hname.
        assert (Hlen : String.length body
                       = String.length (("ISIC" ++ middle) ++ "GroundTruth.csv")).
        { apply (f_equal String.length) in Hname.
          rewrite !length_append in Hname. rewrite !length_append.
          cbn [String.length] in *. lia. }
        apply (f_equal (String.substring 0 (String.length body))) in Hname.
        rewrite substring_app_l in Hname. rewrite Hlen in Hname.
        rewrite substring_app_l in Hname. by rewrite Hname, append_assoc.
  - rewrite truth_pattern_body. split.
    + intros (middle & -> & Hlf). exists middle, "".
      split; [by rewrite append_nil_r|]. split; [done | by left].
    + intros (middle & tail & Hname & Hlf & [->| ->]).
      * exists middle. by rewrite append_nil_r in Hname.
      * exfalso. assert (Htrue : endswith (String line_feed "") name = true).
        { apply endswith_spec. exists ("ISIC" ++ middle ++ "GroundTruth.csv").
          by rewrite Hname, !append_assoc. }
        congruence.
Qed.

(** ** computeMetrics: the validation of the row labels *)

Lemma index_excludeRows (df : DataFrame) (labels : list cell) :
  index (excludeRows df labels)
  = List.filter (fun x => negb (mem_cell x labels)) (index df).
Proof.
  unfold excludeRows, drop_index, index. cbn [rows].
  induction (rows df) as [|r l IH]; [done|]. cbn.
  destruct (negb (mem_cell (fst r) labels)); cbn; by rewrite IH.
Qed.

(** A label that is not excluded is in the index after the exclusion when
    it was in the index before. *)
Lemma mem_cell_not_excluded (x : cell) (l : list cell) :
  mem_cell x EXCLUDE_LABELS = false ->
  mem_cell x (List.filter (fun y => negb (mem_cell y EXCLUDE_LABELS)) l)
  = mem_cell x l.
Proof.
  intros Hx. induction l as [|a l IH]; [done|]. cbn [List.filter].
  destruct (mem_cell a EXCLUDE_LABELS) eqn:Ha; cbn [negb].
  - cbn [mem_cell existsb]. fold (mem_cell x l). rewrite <- IH.
    assert (Hxa : cell_eqb x a = false).
    { destruct a as [f|z|t|b]; try discriminate.
      cbn in Ha. rewrite orb_false_r in Ha. apply String.eqb_eq in Ha as ->.
      cbn in Hx. by rewrite orb_false_r in Hx. }
    by rewrite Hxa.
  - cbn [mem_cell existsb]. fold (mem_cell x l).
    fold (mem_cell x (List.filter (fun y => negb (mem_cell y EXCLUDE_LABELS)) l)).
    by rewrite IH.
Qed.

Lemma validateRows_missing `{FloatRepr} (truth prediction : DataFrame)
    (x : cell) :
  In x (index truth) -> mem_cell x (index prediction) = false ->
  validateRows truth prediction
  = raise ScoreException
      ("Missing images in CSV: "
       ++ repr_list repr_cell
            (difference_cell (index truth) (index prediction)) ++ ".")
  /\ difference_cell (index truth) (index prediction) <> [].
Proof.
  intros Hx Hb. unfold validateRows.
  destruct (difference_cell_spec (index truth) (index prediction))
    as [_ Hmiss].
  destruct (difference_cell (index truth) (index prediction)) as [|m ms].
  - rewrite (proj1 Hmiss eq_refl x Hx) in Hb. discriminate.
  - split; [reflexivity | discriminate].
Qed.

(** X26: when both CSVs are accepted and a label of the truth CSV other
    than the excluded one is not in the prediction CSV, [computeMetrics]
    fails with the missing-images error before any metric is computed; the
    list of the error holds only labels of the truth CSV that are not in
    the prediction CSV, and never the excluded label. *)
Theorem computeMetrics_missing_images `{FloatRepr} `{MetricsModule}
    (truthCsv predictionCsv truth prediction : DataFrame) :
  parseCsv truthCsv = ret truth ->
  parseCsv predictionCsv = ret prediction ->
  (exists x, In x (index truth)
             /\ mem_cell x EXCLUDE_LABELS = false
             /\ mem_cell x (index prediction) = false) ->
  exists missingImages,
    computeMetrics truthCsv predictionCsv
    = raise ScoreException
        ("Missing images in CSV: " ++ repr_list repr_cell missingImages ++ ".")
    /\ missingImages <> []
    /\ forall y, In y missingImages ->
         In y (index truth)
         /\ mem_cell y (index prediction) = false
         /\ mem_cell y EXCLUDE_LABELS = false.
Proof.
  intros Ht Hp (x & Hx & Hex & Hb).
  set (t := excludeRows truth EXCLUDE_LABELS).
  set (p := excludeRows prediction EXCLUDE_LABELS).
  assert (Hxt : In x (index t)).
  { unfold t. rewrite index_excludeRows. apply filter_In.
    by rewrite Hex. }
  assert (Hxp : mem_cell x (index p) = false).
  { unfold p. by rewrite index_excludeRows, mem_cell_not_excluded. }
  destruct (validateRows_missing t p x Hxt Hxp) as [Hfail Hne].
  exists (difference_cell (index t) (index p)). split; [|split].
  - unfold computeMetrics. rewrite Ht, Hp, !result_bind_ret.
    unfold computeMetricsParsed. cbv zeta. fold t p. by rewrite Hfail.
  - exact Hne.
  - intros y Hy.
    destruct (difference_cell_spec (index t) (index p)) as [Hin _].
    destruct (Hin y Hy) as [Hyt Hyp]. unfold t in Hyt.
    rewrite index_excludeRows in Hyt. apply filter_In in Hyt as [Hyt Hyex].
    apply negb_true_iff in Hyex. split; [done|]. split; [|done].
    unfold p in Hyp. by rewrite index_excludeRows, mem_cell_not_excluded in Hyp.
Qed.

Lemma computeMetrics_missing_images_witness :
  exists missingImages,
    computeMetrics ExampleFrames.two_images ExampleFiles.one_image_and_excluded
    = raise ScoreException
        ("Missing images in CSV: " ++ repr_list repr_cell missingImages ++ ".")
    /\ missingImages <> [].
Proof.
  destruct (computeMetrics_missing_images
              ExampleFrames.two_images ExampleFiles.one_image_and_excluded
              _ _ eq_refl eq_refl) as (missingImages & Hfail & Hne & _).
  - exists (CStr "ISIC_0000001"). split; [|split].
    + vm_compute. tauto.
    + reflexivity.
    + reflexivity.
  - exists missingImages. split; [exact Hfail | exact Hne].
Defined.
